(** * Import validation, title-based merge and store synchronisation

    A shallow embedding of the import/sync pipeline of the concepts
    application:

    - [validateJsonContent] (settings panel) and its twin [validateJson]
      (JSON validator component);
    - [handleValidatedImport], [handleSyncToDatabase] and
      [handleSyncFromDatabase] (settings panel);
    - the [POST] handler of the sync route.

    Values handled by the code are untyped JSON, so the embedding works on
    an explicit JSON value type with the JavaScript notions the code relies
    on (truthiness, [typeof], property lookup, optional chaining,
    exceptions). *)

From Stdlib Require Import List String Ascii Bool Arith ZArith QArith_base Lia.
From Stdlib Require Import DecimalString.
Import ListNotations.

Local Open Scope string_scope.
Local Open Scope list_scope.
Local Open Scope nat_scope.

Set Warnings "-register-all".

(* ================================================================== *)
(** ** Strings

    A [string] is read as a sequence of UTF-16 code units, each below 256.
    On such strings the functions below are the ECMAScript ones. *)

Module JSString.

(** The double quote character, used inside diagnostic messages. *)
Definition dquote : string := String (ascii_of_nat 34) EmptyString.

(** [`${n}`] for a non-negative integer. *)
Definition ofNat (n : nat) : string := NilEmpty.string_of_uint (Nat.to_uint n).

(** White space and line terminators of ECMAScript below code unit 256:
    TAB, LF, VT, FF, CR, SPACE and NO-BREAK SPACE. *)
Definition isWhiteSpace (c : ascii) : bool :=
  let n := nat_of_ascii c in
  ((9 <=? n) && (n <=? 13)) || (n =? 32) || (n =? 160).

Fixpoint trimStart (s : string) : string :=
  match s with
  | EmptyString => EmptyString
  | String c rest => if isWhiteSpace c then trimStart rest else s
  end.

Fixpoint trimEnd (s : string) : string :=
  match s with
  | EmptyString => EmptyString
  | String c rest =>
      match trimEnd rest with
      | EmptyString => if isWhiteSpace c then EmptyString else String c EmptyString
      | rest' => String c rest'
      end
  end.

(** [String.prototype.trim]. *)
Definition trim (s : string) : string := trimEnd (trimStart s).

(** Lower-casing of one code unit: A-Z and the upper-case letters of the
    Latin-1 supplement (all of 192..222 but the multiplication sign). *)
Definition lowerChar (c : ascii) : ascii :=
  let n := nat_of_ascii c in
  if ((65 <=? n) && (n <=? 90))
     || ((192 <=? n) && (n <=? 222) && negb (n =? 215))
  then ascii_of_nat (n + 32)
  else c.

(** [String.prototype.toLowerCase]. *)
Fixpoint toLowerCase (s : string) : string :=
  match s with
  | EmptyString => EmptyString
  | String c rest => String (lowerChar c) (toLowerCase rest)
  end.

(** [String.prototype.includes]. *)
Fixpoint includes (s sub : string) : bool :=
  String.prefix sub s
  || match s with
     | EmptyString => false
     | String _ rest => includes rest sub
     end.

Definition isDigit (c : ascii) : bool :=
  let n := nat_of_ascii c in (48 <=? n) && (n <=? 57).

Fixpoint takeDigits (s : string) : string :=
  match s with
  | EmptyString => EmptyString
  | String c rest => if isDigit c then String c (takeDigits rest) else EmptyString
  end.

Fixpoint drop (n : nat) (s : string) : string :=
  match n, s with
  | O, _ => s
  | S _, EmptyString => EmptyString
  | S m, String _ rest => drop m rest
  end.

(** Case folding of the [i] flag for a pattern of ASCII letters: only
    A-Z and a-z are identified. *)
Definition foldAscii (c : ascii) : ascii :=
  let n := nat_of_ascii c in
  if (65 <=? n) && (n <=? 90) then ascii_of_nat (n + 32) else c.

Fixpoint foldCase (s : string) : string :=
  match s with
  | EmptyString => EmptyString
  | String c rest => String (foldAscii c) (foldCase rest)
  end.

(** [s.match(/line (\d+)/i)], returning the first capture group of the
    leftmost match. *)
Fixpoint matchLine (s : string) : option string :=
  match s with
  | EmptyString => None
  | String _ rest =>
      if String.prefix "line " (foldCase s)
      then match takeDigits (drop 5 s) with
           | EmptyString => matchLine rest
           | digits => Some digits
           end
      else matchLine rest
  end.

(** [Number.parseInt] on a non-empty string of decimal digits (exact
    below 2^53). *)
Fixpoint parseDigits (acc : N) (s : string) : N :=
  match s with
  | EmptyString => acc
  | String c rest => parseDigits (acc * 10 + N.of_nat (nat_of_ascii c - 48))%N rest
  end.

Definition parseInt (s : string) : N := parseDigits 0%N s.

End JSString.

(* ================================================================== *)
(** ** JSON values and the JavaScript operations applied to them *)

(** A value produced by [JSON.parse].  The fields of an object are listed
    in the order [Object.keys] enumerates them; a parsed object has no
    repeated key.  [undefined] is [None] in an [option json]. *)
Inductive json : Type :=
| JNull
| JBool (b : bool)
| JNum (q : Q)
| JStr (s : string)
| JArr (items : list json)
| JObj (fields : list (string * json)).

(** What a [throw] carries: an instance of [Error] with its message, or
    some other value. *)
Inductive Thrown : Type :=
| ErrorObject (message : string)
| OtherValue.

(** Outcome of evaluating an expression that may throw. *)
Inductive Completion (A : Type) : Type :=
| Normal (a : A)
| Throw (e : Thrown).

Arguments Normal {A} a.
Arguments Throw {A} e.

Definition bind {A B : Type} (c : Completion A) (k : A -> Completion B) : Completion B :=
  match c with
  | Normal a => k a
  | Throw e => Throw e
  end.

Notation "x <- c ;; k" := (bind c (fun x => k))
  (at level 61, c at next level, right associativity).

(** A [Date] object: a time value in milliseconds, or the invalid date. *)
Inductive Date : Type :=
| ValidDate (ms : Z)
| InvalidDate.

Module JS.

Fixpoint assoc (key : string) (fields : list (string * json)) : option json :=
  match fields with
  | [] => None
  | (k, v) :: rest => if String.eqb k key then Some v else assoc key rest
  end.

(** [value[key]] for a value that is neither [null] nor [undefined], and
    a key that names no array index, no [length] and no member of the
    built-in prototypes (every key the code reads is such a key). *)
Definition get (key : string) (value : json) : option json :=
  match value with
  | JObj fields => assoc key fields
  | _ => None
  end.

(** [Object.keys(value)] for an object or an array. *)
Definition keys (value : json) : list string :=
  match value with
  | JObj fields => map fst fields
  | JArr items => map JSString.ofNat (seq 0 (List.length items))
  | _ => []
  end.

Definition isZero (q : Q) : bool := (Qnum q =? 0)%Z.

(** ToBoolean. *)
Definition truthy (v : option json) : bool :=
  match v with
  | None => false
  | Some JNull => false
  | Some (JBool b) => b
  | Some (JNum q) => negb (isZero q)
  | Some (JStr s) => negb (String.eqb s EmptyString)
  | Some (JArr _) => true
  | Some (JObj _) => true
  end.

Inductive TypeTag : Type :=
| t_undefined | t_object | t_boolean | t_number | t_string.

(** [typeof v]. *)
Definition typeof (v : option json) : TypeTag :=
  match v with
  | None => t_undefined
  | Some JNull => t_object
  | Some (JBool _) => t_boolean
  | Some (JNum _) => t_number
  | Some (JStr _) => t_string
  | Some (JArr _) => t_object
  | Some (JObj _) => t_object
  end.

Definition isType (t : TypeTag) (v : option json) : bool :=
  match t, typeof v with
  | t_undefined, t_undefined => true
  | t_object, t_object => true
  | t_boolean, t_boolean => true
  | t_number, t_number => true
  | t_string, t_string => true
  | _, _ => false
  end.

Definition isArray (v : option json) : bool :=
  match v with
  | Some (JArr _) => true
  | _ => false
  end.

End JS.

(** The parts of the host that the code calls and that are not fixed by the
    language: the JSON parser, the conversion of a value to a [Date], and
    the wording of the [TypeError] raised when [.trim] is called on a value
    that has no such method. *)
Class Engine : Type := {
  JSON_parse : string -> Completion json;
  newDate : json -> Completion Date;
  notAFunction : string -> string
}.

(** Readings of the system clock.  [clock i CreatedAt] is the time value
    that [new Date()] returns when it supplies the missing [createdAt] of
    the record at index [i]; likewise for [UpdatedAt]. *)
Inductive Stamp : Type := CreatedAt | UpdatedAt.
Definition Clock : Type := nat -> Stamp -> Z.

(* ================================================================== *)
(** ** Data model *)

(** The [Concept] interface. *)
Record Concept : Type := mkConcept {
  _id : option string;
  topicID : Q;
  topic : string;
  title : string;
  definition : string;
  detailedExplanation : string;
  whenToUse : string;
  whyNeed : string;
  codeExample : string;
  keyword : string;
  differences : string;
  createdAt : option Date;
  updatedAt : option Date
}.

Inductive DiagnosticType : Type := t_error | t_warning | t_info.

Definition isErrorType (t : DiagnosticType) : bool :=
  match t with t_error => true | _ => false end.

Definition isWarningType (t : DiagnosticType) : bool :=
  match t with t_warning => true | _ => false end.

(** The [ValidationError] interface. *)
Record ValidationError : Type := mkError {
  type : DiagnosticType;
  message : string;
  line : option N;
  field : option string;
  conceptIndex : option nat
}.

(** The [ValidationResult] interface. *)
Record ValidationResult : Type := mkResult {
  isValid : bool;
  errors : list ValidationError;
  validConcepts : list Concept;
  totalConcepts : nat
}.

(* ================================================================== *)
(** ** The validator ([validateJsonContent], [validateJson]) *)

Module Validator.

Import JSString JS.

Definition requiredFields : list string :=
  ["title"; "topic"; "definition"; "keyword"].

Definition optionalFields : list string :=
  ["topicID"; "detailedExplanation"; "whenToUse"; "whyNeed"; "codeExample";
   "differences"; "createdAt"; "updatedAt"].

Definition allValidFields : list string := requiredFields ++ optionalFields.

Definition includesString (l : list string) (s : string) : bool :=
  existsb (String.eqb s) l.

(** Diagnostics of the three branches of the required-field check. *)
Definition missingField (index : nat) (f : string) : ValidationError :=
  mkError t_error ("Missing required field: " ++ dquote ++ f ++ dquote)
          None (Some f) (Some index).

Definition notAString (index : nat) (f : string) : ValidationError :=
  mkError t_error ("Field " ++ dquote ++ f ++ dquote ++ " must be a string")
          None (Some f) (Some index).

Definition emptyField (index : nat) (f : string) : ValidationError :=
  mkError t_error ("Field " ++ dquote ++ f ++ dquote ++ " cannot be empty")
          None (Some f) (Some index).

(** Body of [requiredFields.forEach]: what one field pushes. *)
Definition checkRequiredField (index : nat) (concept : json) (f : string)
  : list ValidationError :=
  let value := get f concept in
  if negb (truthy value) then [missingField index f]
  else match value with
       | Some (JStr s) =>
           if String.eqb (trim s) EmptyString then [emptyField index f] else []
       | _ => [notAString index f]
       end.

Definition checkRequiredFields (index : nat) (concept : json) : list ValidationError :=
  flat_map (checkRequiredField index concept) requiredFields.

Definition unknownField (index : nat) (key : string) : ValidationError :=
  mkError t_warning ("Unknown field " ++ dquote ++ key ++ dquote ++ " will be ignored")
          None (Some key) (Some index).

(** Body of [Object.keys(concept).forEach]. *)
Definition checkUnknownFields (index : nat) (concept : json) : list ValidationError :=
  flat_map (fun key => if negb (includesString allValidFields key)
                       then [unknownField index key] else [])
           (keys concept).

Definition duplicateTitle (index : nat) (t : string) : ValidationError :=
  mkError t_warning
          ("Duplicate title " ++ dquote ++ t ++ dquote
           ++ " - only the first occurrence will be imported")
          None (Some "title") (Some index).

(** The duplicate-title check: the diagnostics pushed and the set
    [seenTitles] afterwards. *)
Definition checkDuplicateTitle (index : nat) (concept : json) (seenTitles : list string)
  : list ValidationError * list string :=
  match get "title" concept with
  | Some (JStr t) =>
      if truthy (Some (JStr t)) then
        let titleLower := trim (toLowerCase t) in
        if includesString seenTitles titleLower
        then ([duplicateTitle index t], seenTitles)
        else ([], seenTitles ++ [titleLower])
      else ([], seenTitles)
  | _ => ([], seenTitles)
  end.

Definition topicIDNotNumber (index : nat) : ValidationError :=
  mkError t_error ("Field " ++ dquote ++ "topicID" ++ dquote ++ " must be a number")
          None (Some "topicID") (Some index).

Definition checkTopicID (index : nat) (concept : json) : list ValidationError :=
  match get "topicID" concept with
  | None => []
  | Some (JNum _) => []
  | Some _ => [topicIDNotNumber index]
  end.

Definition hasCriticalErrors (conceptErrors : list ValidationError) : bool :=
  existsb (fun err => isErrorType (type err)) conceptErrors.

Definition notAnObject (index : nat) : ValidationError :=
  mkError t_error
          ("Concept at position " ++ ofNat (index + 1) ++ " is not a valid object")
          None None (Some index).

Section WithHost.

Context {engine : Engine}.
Variable clock : Clock.

(** [concept.key?.trim() || ""]: nothing is called on [null] and
    [undefined]; on any other value that is not a string the call of
    [trim] raises a [TypeError]. *)
Definition trimmedOrEmpty (key : string) (concept : json) : Completion string :=
  match get key concept with
  | None => Normal EmptyString
  | Some JNull => Normal EmptyString
  | Some (JStr s) => Normal (trim s)
  | Some _ => Throw (ErrorObject (notAFunction key))
  end.

(** [concept.topicID || 0].  The expression is only evaluated for a
    concept that passed [checkTopicID], where the property is absent
    or a number. *)
Definition topicIDOrZero (concept : json) : Q :=
  match get "topicID" concept with
  | Some (JNum q) => if isZero q then 0%Q else q
  | _ => 0%Q
  end.

(** [concept.key ? new Date(concept.key) : new Date()]. *)
Definition dateOrNow (key : string) (index : nat) (stamp : Stamp) (concept : json)
  : Completion Date :=
  match get key concept with
  | Some v => if truthy (Some v) then newDate v
              else Normal (ValidDate (clock index stamp))
  | None => Normal (ValidDate (clock index stamp))
  end.

(** The object literal pushed to [validConcepts]; its properties are
    evaluated in the order they are written. *)
Definition buildConcept (index : nat) (concept : json) : Completion Concept :=
  let v_topicID := topicIDOrZero concept in
  v_topic <- trimmedOrEmpty "topic" concept ;;
  v_title <- trimmedOrEmpty "title" concept ;;
  v_definition <- trimmedOrEmpty "definition" concept ;;
  v_detailedExplanation <- trimmedOrEmpty "detailedExplanation" concept ;;
  v_whenToUse <- trimmedOrEmpty "whenToUse" concept ;;
  v_whyNeed <- trimmedOrEmpty "whyNeed" concept ;;
  v_codeExample <- trimmedOrEmpty "codeExample" concept ;;
  v_keyword <- trimmedOrEmpty "keyword" concept ;;
  v_differences <- trimmedOrEmpty "differences" concept ;;
  v_createdAt <- dateOrNow "createdAt" index CreatedAt concept ;;
  v_updatedAt <- dateOrNow "updatedAt" index UpdatedAt concept ;;
  Normal (mkConcept None v_topicID v_topic v_title v_definition
                    v_detailedExplanation v_whenToUse v_whyNeed v_codeExample
                    v_keyword v_differences (Some v_createdAt) (Some v_updatedAt)).

(** What the loop over the records mutates: [result.errors],
    the local [validConcepts] and [seenTitles]. *)
Record Progress : Type := mkProgress {
  p_errors : list ValidationError;
  p_validConcepts : list Concept;
  p_seenTitles : list string
}.

Definition start : Progress := mkProgress [] [] [].

(** The diagnostics collected in [conceptErrors] for an object, with
    the updated [seenTitles]. *)
Definition conceptErrorsOf (index : nat) (concept : json) (seenTitles : list string)
  : list ValidationError * list string :=
  let (dup, seen') := checkDuplicateTitle index concept seenTitles in
  (checkRequiredFields index concept ++ checkUnknownFields index concept
     ++ dup ++ checkTopicID index concept,
   seen').

(** Callback of [parsedData.forEach].  The second component is the
    exception that escaped the callback, if any; the state beside it
    is the one reached when it was raised. *)
Definition validateConcept (index : nat) (concept : json) (p : Progress)
  : Progress * option Thrown :=
  if negb (truthy (Some concept)) || negb (isType t_object (Some concept))
  then (mkProgress (p_errors p ++ [notAnObject index])
                   (p_validConcepts p) (p_seenTitles p), None)
  else
    let (conceptErrors, seen') := conceptErrorsOf index concept (p_seenTitles p) in
    let errors' := p_errors p ++ conceptErrors in
    if negb (hasCriticalErrors conceptErrors) then
      match buildConcept index concept with
      | Normal c => (mkProgress errors' (p_validConcepts p ++ [c]) seen', None)
      | Throw e => (mkProgress errors' (p_validConcepts p) seen', Some e)
      end
    else (mkProgress errors' (p_validConcepts p) seen', None).

(** [parsedData.forEach(...)], from index [index] on. *)
Fixpoint forEach (index : nat) (parsedData : list json) (p : Progress)
  : Progress * option Thrown :=
  match parsedData with
  | [] => (p, None)
  | concept :: rest =>
      match validateConcept index concept p with
      | (p', None) => forEach (S index) rest p'
      | (p', Some e) => (p', Some e)
      end
  end.

Definition errorCount (l : list ValidationError) : nat :=
  List.length (filter (fun e => isErrorType (type e)) l).

Definition warningCount (l : list ValidationError) : nat :=
  List.length (filter (fun e => isWarningType (type e)) l).

Definition summary (n : nat) : ValidationError :=
  mkError t_info
          ("Validation successful! " ++ ofNat n ++ " concepts ready for import")
          None None None.

Definition unexpected (e : Thrown) : ValidationError :=
  mkError t_error
          ("Unexpected validation error: "
           ++ match e with
              | ErrorObject m => m
              | OtherValue => "Unknown error"
              end)
          None None None.

Definition parsingFailed (e : Thrown) : ValidationError :=
  let errorMessage := match e with
                      | ErrorObject m => m
                      | OtherValue => "Unknown parsing error"
                      end in
  mkError t_error ("JSON parsing failed: " ++ errorMessage)
          (option_map parseInt (matchLine errorMessage)) None None.

Definition rootNotArray : ValidationError :=
  mkError t_error "Root element must be an array of concepts" None None None.

Definition noConcepts : ValidationError :=
  mkError t_warning "The file contains no concepts to import" None None None.

(** Steps 2 and 3 of the validator, on the value [JSON.parse] gave. *)
Definition validateParsed (parsedData : json) : ValidationResult :=
  match parsedData with
  | JArr items =>
      match items with
      | [] => mkResult false [noConcepts] [] 0
      | _ :: _ =>
          match forEach 0 items start with
          | (p, None) =>
              let valid := Nat.ltb 0 (List.length (p_validConcepts p))
                           && Nat.eqb (errorCount (p_errors p)) 0 in
              mkResult valid
                       (if valid
                        then p_errors p ++ [summary (List.length (p_validConcepts p))]
                        else p_errors p)
                       (p_validConcepts p)
                       (List.length items)
          | (p, Some e) =>
              mkResult false (p_errors p ++ [unexpected e]) [] (List.length items)
          end
      end
  | _ => mkResult false [rootNotArray] [] 0
  end.

(** [validateJsonContent] of the settings panel. *)
Definition validateJsonContent (content : string) : ValidationResult :=
  match JSON_parse content with
  | Throw parseError => mkResult false [parsingFailed parseError] [] 0
  | Normal parsedData => validateParsed parsedData
  end.

(** [validateJson] of the validator component: the same statements,
    with [onValidationComplete(result)] before each [return].  The
    second component lists the results handed to the callback, which
    is taken not to throw. *)
Definition validateJson (content : string)
  : ValidationResult * list ValidationResult :=
  let result := validateJsonContent content in (result, [result]).

End WithHost.

(** *** Notions used to state the properties of the validator *)

(** Values that pass the object test of the loop: objects and arrays. *)
Definition isRecord (c : json) : bool :=
  match c with
  | JObj _ | JArr _ => true
  | _ => false
  end.

(** The checks whose outcome decides whether a record is accepted. *)
Definition criticalChecks (i : nat) (c : json) : list ValidationError :=
  checkRequiredFields i c ++ checkTopicID i c.

(** The record at index [i] draws an error-level diagnostic. *)
Definition rejected (i : nat) (c : json) : bool :=
  negb (isRecord c) || hasCriticalErrors (criticalChecks i c).


(** A diagnostic tagged with record index [i]; with an index in
    [lo, lo + n). *)
Definition at_index (i : nat) (e : ValidationError) : Prop :=
  conceptIndex e = Some i.

Definition in_range (lo n : nat) (e : ValidationError) : Prop :=
  exists j, conceptIndex e = Some j /\ lo <= j < lo + n.

Definition optionEqb (a : option string) (b : string) : bool :=
  match a with
  | Some s => String.eqb s b
  | None => false
  end.

Definition indexEqb (a : option nat) (i : nat) : bool :=
  match a with
  | Some j => Nat.eqb j i
  | None => false
  end.

(** An error-level diagnostic naming field [f] of the record at index [i]. *)
Definition aboutField (i : nat) (f : string) (e : ValidationError) : bool :=
  isErrorType (type e) && optionEqb (field e) f && indexEqb (conceptIndex e) i.

(** The key under which the title of a record enters [seenTitles]. *)
Definition titleKey (c : json) : option string :=
  match get "title" c with
  | Some (JStr t) =>
      if String.eqb t EmptyString then None else Some (trim (toLowerCase t))
  | _ => None
  end.

Definition titleOf (c : json) : string :=
  match get "title" c with
  | Some (JStr t) => t
  | _ => EmptyString
  end.

Definition optionalStrings : list string :=
  ["detailedExplanation"; "whenToUse"; "whyNeed"; "codeExample"; "differences"].

Definition timestamps : list string := ["createdAt"; "updatedAt"].

Definition requiredOk (c : json) (f : string) : bool :=
  match get f c with
  | Some (JStr s) => negb (String.eqb (trim s) EmptyString)
  | _ => false
  end.

Definition topicIDOk (c : json) : bool :=
  match get "topicID" c with
  | None => true
  | Some (JNum _) => true
  | Some _ => false
  end.

Definition optionalOk (c : json) (f : string) : bool :=
  match get f c with
  | None => true
  | Some JNull => true
  | Some (JStr _) => true
  | Some _ => false
  end.

Definition dateOk {engine : Engine} (c : json) (f : string) : bool :=
  match get f c with
  | Some v =>
      if truthy (Some v)
      then match newDate v with Normal _ => true | Throw _ => false end
      else true
  | None => true
  end.

(** A well-formed record: an object whose required fields are strings
    that are not blank, whose [topicID], if any, is a number, whose
    optional texts, if any, are strings or [null], and whose timestamps,
    if any, convert to a [Date]. *)
Definition wellFormed {engine : Engine} (c : json) : bool :=
  isRecord c
  && forallb (requiredOk c) requiredFields
  && topicIDOk c
  && forallb (optionalOk c) optionalStrings
  && forallb (dateOk c) timestamps.

(** The result computed from the end state of the loop. *)
Definition resultOf (n : nat) (run : Progress * option Thrown) : ValidationResult :=
  match run with
  | (p, None) =>
      let valid := Nat.ltb 0 (List.length (p_validConcepts p))
                   && Nat.eqb (errorCount (p_errors p)) 0 in
      mkResult valid
               (if valid
                then p_errors p ++ [summary (List.length (p_validConcepts p))]
                else p_errors p)
               (p_validConcepts p) n
  | (p, Some e) => mkResult false (p_errors p ++ [unexpected e]) [] n
  end.

(** A diagnostic that is not tagged with record index [i]. *)
Definition elsewhere (i : nat) (e : ValidationError) : Prop :=
  conceptIndex e <> Some i.

(** A record carries both timestamps. *)
Definition stamped (c : json) : bool :=
  truthy (get "createdAt" c) && truthy (get "updatedAt" c).

Definition eraseDates (c : Concept) : Concept :=
  mkConcept (_id c) (topicID c) (topic c) (title c) (definition c)
            (detailedExplanation c) (whenToUse c) (whyNeed c) (codeExample c)
            (keyword c) (differences c) None None.

(** A result, a loop state and a built record seen through a function
    [v] applied to the accepted records. *)
Definition viewResult (v : Concept -> Concept) (r : ValidationResult)
  : ValidationResult :=
  mkResult (isValid r) (errors r) (map v (validConcepts r)) (totalConcepts r).

Definition viewProgress (v : Concept -> Concept) (p : Progress) : Progress :=
  mkProgress (p_errors p) (map v (p_validConcepts p)) (p_seenTitles p).

Definition viewBuilt (v : Concept -> Concept) (b : Completion Concept)
  : Completion Concept :=
  match b with
  | Normal k => Normal (v k)
  | Throw e => Throw e
  end.

(** Two clocks build the same record from [c], up to [v]. *)
Definition agree {engine : Engine} (clock1 clock2 : Clock) (v : Concept -> Concept)
           (c : json) : Prop :=
  forall i,
    viewBuilt v (buildConcept clock1 i c) = viewBuilt v (buildConcept clock2 i c).

(** A validation result with the timestamps of its records left out. *)
Definition withoutDates (r : ValidationResult) : ValidationResult :=
  viewResult eraseDates r.

End Validator.

(* ================================================================== *)
(** ** The settings panel: import commit and the two sync operations *)

Module Settings.

Import JSString.

Inductive Variant : Type := v_default | v_destructive.

(** Argument of [toast]. *)
Record Toast : Type := mkToast {
  toast_title : string;
  toast_description : string;
  toast_variant : Variant
}.

(** A call of [fetch] on the sync endpoint. *)
Inductive Request : Type :=
| SyncPOST (body : list Concept)
| SyncGET.

(** The JSON body the sync endpoint answers with, as the handlers read
    it: [success], [message], [count], [concepts], [error], [details]. *)
Record SyncResult : Type := mkSyncResult {
  res_success : bool;
  res_message : option string;
  res_count : option nat;
  res_concepts : option (list Concept);
  res_error : option string;
  res_details : option string
}.

(** The [isLoading] state. *)
Record Loading : Type := mkLoading {
  ld_syncTo : bool;
  ld_syncFrom : bool;
  ld_import : bool;
  ld_export : bool
}.

(** What the handlers read and write: the [concepts] prop (written
    through [onConceptsChange]), the [concepts] entry of [localStorage]
    (kept as the record set that was serialised into it), the component
    state, the value of the file input, and the logs of [toast] and
    [fetch] calls. *)
Record AppState : Type := mkApp {
  concepts : list Concept;
  localStorage : option (list Concept);
  validationResult : option ValidationResult;
  jsonPreview : string;
  fileInput : string;
  isLoading : Loading;
  toasts : list Toast;
  requests : list Request
}.

(** The browser services the handlers call.  [fetch r] is the outcome of
    [fetch], [response.json()] and the reading of the body as a
    [SyncResult] (an exception raised by any of the three, or the body);
    [setItem cs] is the exception [localStorage.setItem] raises when
    writing [cs], if any. *)
Class Browser : Type := {
  fetch : Request -> Completion SyncResult;
  setItem : list Concept -> option Thrown
}.

(** [a || b] on optional strings: the empty string is falsy. *)
Definition orElse (a : option string) (b : string) : string :=
  match a with
  | Some s => if String.eqb s EmptyString then b else s
  | None => b
  end.

Definition titleSet (cs : list Concept) : list string :=
  map (fun c => toLowerCase (title c)) cs.

Definition has (set : list string) (s : string) : bool :=
  existsb (String.eqb s) set.

(** [importedConcepts.filter(c => !existingTitles.has(c.title.toLowerCase()))]. *)
Definition newConceptsOf (existing importedConcepts : list Concept) : list Concept :=
  let existingTitles := titleSet existing in
  filter (fun c => negb (has existingTitles (toLowerCase (title c)))) importedConcepts.

(** [updatedConcepts] of [handleValidatedImport]. *)
Definition mergeConcepts (existing importedConcepts : list Concept) : list Concept :=
  existing ++ newConceptsOf existing importedConcepts.

Definition setLoading (f : Loading -> Loading) (st : AppState) : AppState :=
  mkApp (concepts st) (localStorage st) (validationResult st) (jsonPreview st)
        (fileInput st) (f (isLoading st)) (toasts st) (requests st).

Definition toast (t : Toast) (st : AppState) : AppState :=
  mkApp (concepts st) (localStorage st) (validationResult st) (jsonPreview st)
        (fileInput st) (isLoading st) (toasts st ++ [t]) (requests st).

Definition onConceptsChange (cs : list Concept) (st : AppState) : AppState :=
  mkApp cs (localStorage st) (validationResult st) (jsonPreview st)
        (fileInput st) (isLoading st) (toasts st) (requests st).

Definition store (cs : list Concept) (st : AppState) : AppState :=
  mkApp (concepts st) (Some cs) (validationResult st) (jsonPreview st)
        (fileInput st) (isLoading st) (toasts st) (requests st).

Definition resetValidation (st : AppState) : AppState :=
  mkApp (concepts st) (localStorage st) None EmptyString EmptyString
        (isLoading st) (toasts st) (requests st).

Definition logRequest (r : Request) (st : AppState) : AppState :=
  mkApp (concepts st) (localStorage st) (validationResult st) (jsonPreview st)
        (fileInput st) (isLoading st) (toasts st) (requests st ++ [r]).

Definition importDone (l : Loading) : Loading :=
  mkLoading (ld_syncTo l) (ld_syncFrom l) false (ld_export l).

Definition syncToDone (l : Loading) : Loading :=
  mkLoading false (ld_syncFrom l) (ld_import l) (ld_export l).

Definition syncFromDone (l : Loading) : Loading :=
  mkLoading (ld_syncTo l) false (ld_import l) (ld_export l).

Definition cannotImport : Toast :=
  mkToast "Cannot import" "Please fix all validation errors before importing."
          v_destructive.

Definition importSuccessful (imported added : nat) : Toast :=
  mkToast "Import successful"
          ("Successfully imported " ++ ofNat added ++ " new concepts. "
           ++ (if Nat.ltb 0 (imported - added)
               then ofNat (imported - added) ++ " duplicates were skipped."
               else EmptyString))
          v_default.

Definition importFailed (e : Thrown) : Toast :=
  mkToast "Import failed"
          match e with
          | ErrorObject m => m
          | OtherValue =>
              "Failed to import concepts. Please check the file format and try again."
          end
          v_destructive.

Definition nothingToSync : Toast :=
  mkToast "Nothing to sync"
          "You don't have any concepts to sync. Add some concepts first."
          v_destructive.

Definition noDataFound : Toast :=
  mkToast "No data found" "No concepts found in the database to sync." v_default.

(** The message computed in the [catch] block of both sync handlers. *)
Definition describeFailure (fallback : string) (e : Thrown) : string :=
  match e with
  | ErrorObject m =>
      if includes m "Failed to fetch" || includes m "NetworkError"
      then "Network error: Please check your internet connection and try again."
      else if includes m "Database connection failed"
      then "Database connection failed. Please check your database configuration."
      else m
  | OtherValue => fallback
  end.

Definition syncFailed (fallback : string) (e : Thrown) : Toast :=
  mkToast "Sync failed" (describeFailure fallback e) v_destructive.

Section WithBrowser.

Context {browser : Browser}.

(** [handleValidatedImport].  The final state of the component is
    given; the intermediate [import: true] is overwritten by the
    [finally] block. *)
Definition handleValidatedImport (st : AppState) : AppState :=
  match validationResult st with
  | None => toast cannotImport st
  | Some vr =>
      if negb (isValid vr) || Nat.eqb (List.length (validConcepts vr)) 0
      then toast cannotImport st
      else
        let importedConcepts := validConcepts vr in
        let newConcepts := newConceptsOf (concepts st) importedConcepts in
        let updatedConcepts := concepts st ++ newConcepts in
        let st1 := onConceptsChange updatedConcepts st in
        match setItem updatedConcepts with
        | None =>
            setLoading importDone
              (resetValidation
                 (toast (importSuccessful (List.length importedConcepts)
                                          (List.length newConcepts))
                        (store updatedConcepts st1)))
        | Some e => setLoading importDone (toast (importFailed e) st1)
        end
  end.

Definition syncToSuccessful (result : SyncResult) (local : nat) : Toast :=
  mkToast "Sync successful"
          (orElse (res_message result)
                  ("Successfully synced "
                   ++ ofNat match res_count result with
                            | Some (S n) => S n
                            | _ => local
                            end
                   ++ " concepts to database."))
          v_default.

(** [handleSyncToDatabase]. *)
Definition handleSyncToDatabase (st : AppState) : AppState :=
  if Nat.eqb (List.length (concepts st)) 0
  then toast nothingToSync st
  else
    let request := SyncPOST (concepts st) in
    let st1 := logRequest request st in
    let attempt : Completion Toast :=
      result <- fetch request ;;
      if res_success result
      then Normal (syncToSuccessful result (List.length (concepts st)))
      else Throw (ErrorObject
                    (orElse (res_details result)
                            (orElse (res_error result) "Sync failed")))
    in
    setLoading syncToDone
      match attempt with
      | Normal t => toast t st1
      | Throw e =>
          toast (syncFailed "Failed to sync with database. Please try again." e) st1
      end.

Definition syncFromSuccessful (n : nat) : Toast :=
  mkToast "Sync successful"
          ("Successfully synced " ++ ofNat n
           ++ " concepts from database to local storage.")
          v_default.

(** What the [try] block of [handleSyncFromDatabase] does once the
    response is there. *)
Definition applyRemote (result : SyncResult) (st : AppState) : Completion AppState :=
  if res_success result then
    let databaseConcepts := match res_concepts result with
                            | Some cs => cs
                            | None => []
                            end in
    if Nat.eqb (List.length databaseConcepts) 0
    then Normal (toast noDataFound st)
    else
      let st1 := onConceptsChange databaseConcepts st in
      match setItem databaseConcepts with
      | None =>
          Normal (toast (syncFromSuccessful (List.length databaseConcepts))
                        (store databaseConcepts st1))
      | Some e =>
          Normal (toast (syncFailed "Failed to sync from database. Please try again." e)
                        st1)
      end
  else Throw (ErrorObject
                (orElse (res_details result)
                        (orElse (res_error result) "Failed to fetch from database"))).

(** [handleSyncFromDatabase]. *)
Definition handleSyncFromDatabase (st : AppState) : AppState :=
  let st1 := logRequest SyncGET st in
  setLoading syncFromDone
    match result <- fetch SyncGET ;; applyRemote result st1 with
    | Normal st2 => st2
    | Throw e =>
        toast (syncFailed "Failed to sync from database. Please try again." e) st1
    end.

End WithBrowser.

(** *** Notions used to state the properties of the handlers *)

(** The title of [c] is, up to case, the title of a record of [existing]. *)
Definition matchesExisting (existing : list Concept) (c : Concept) : bool :=
  existsb (fun e => String.eqb (toLowerCase (title e)) (toLowerCase (title c)))
          existing.

End Settings.

(* ================================================================== *)
(** ** The sync route: [POST] *)

Module SyncRoute.

Import JSString JS.

(** Outcome of [Concept.insertMany]: the documents as stored, or the
    exception together with whatever the collection holds afterwards. *)
Inductive InsertOutcome : Type :=
| Inserted (docs : list json)
| InsertFailed (e : Thrown) (remaining : list json).

(** The services of the server side: the exception [dbConnect] and
    [Concept.deleteMany] raise, if any (a failed [deleteMany] is taken to
    leave the collection as it was), the outcome of [Concept.insertMany],
    and the message of the [TypeError] raised by reading a property of
    [null]. *)
Class Server : Type := {
  dbConnect : option Thrown;
  deleteMany : option Thrown;
  insertMany : list json -> InsertOutcome;
  cannotReadNull : string -> string
}.

(** Status and JSON body of a [NextResponse]. *)
Record Response : Type := mkResponse {
  status : nat;
  success : bool;
  error : option string;
  details : option string;
  message : option string;
  count : option nat
}.

Definition failure (code : nat) (err det : string) : Response :=
  mkResponse code false (Some err) (Some det) None None.

Definition invalidFormat : Response :=
  failure 400 "Invalid data format"
          "Expected an array of concepts but received different data type".

Definition missingRequired (i : nat) (f : string) : Response :=
  failure 400 "Invalid concept data"
          ("Concept at index " ++ ofNat i ++ " is missing required field: " ++ f).

Definition synced (n : nat) : Response :=
  mkResponse 200 true None None
             (Some ("Successfully synced " ++ ofNat n ++ " concepts to database")%string)
             (Some n).

Definition connectionFailed : Response :=
  failure 503 "Database connection failed"
          "Unable to connect to MongoDB. Please check your internet connection and database configuration.".

Definition validationFailed : Response :=
  failure 400 "Data validation failed"
          "One or more concepts contain invalid data that doesn't match the required format.".

Definition internalError : Response :=
  failure 500 "Internal server error"
          "An unexpected error occurred while syncing data. Please try again later.".

(** The [catch] block. *)
Definition onError (e : Thrown) : Response :=
  match e with
  | ErrorObject m =>
      if includes m "ENOTFOUND" || includes m "ECONNREFUSED" then connectionFailed
      else if includes m "ValidationError" then validationFailed
      else internalError
  | OtherValue => internalError
  end.

Definition requiredFields : list string :=
  ["title"; "topic"; "definition"; "keyword"].

(** How the validation loops end: they run to the end, [return] a
    response, or raise. *)
Inductive Checked : Type :=
| AllPresent
| Rejected (r : Response)
| Raised (e : Thrown).

Section WithServer.

Context {server : Server}.

(** The inner loop, [for (const field of requiredFields)], on a
    concept that is not [null]. *)
Fixpoint checkFields (i : nat) (concept : json) (fields : list string)
  : option Response :=
  match fields with
  | [] => None
  | f :: rest =>
      if negb (truthy (get f concept)) then Some (missingRequired i f)
      else checkFields i concept rest
  end.

(** The outer loop, from index [i] on.  Reading a property of [null]
    raises a [TypeError]. *)
Fixpoint checkConcepts (i : nat) (cs : list json) : Checked :=
  match cs with
  | [] => AllPresent
  | concept :: rest =>
      match concept with
      | JNull => Raised (ErrorObject (cannotReadNull "title"))
      | _ =>
          match checkFields i concept requiredFields with
          | Some r => Rejected r
          | None => checkConcepts (S i) rest
          end
      end
  end.

(** [const { concepts } = await request.json()]. *)
Definition readConcepts (body : Completion json) : Completion (option json) :=
  b <- body ;;
  match b with
  | JNull => Throw (ErrorObject (cannotReadNull "concepts"))
  | _ => Normal (get "concepts" b)
  end.

(** The [try] block after the array test, on the array [cs]. *)
Definition replaceAll (cs : list json) (db : list json) : Response * list json :=
  match checkConcepts 0 cs with
  | Rejected r => (r, db)
  | Raised e => (onError e, db)
  | AllPresent =>
      match deleteMany with
      | Some e => (onError e, db)
      | None =>
          if Nat.ltb 0 (List.length cs) then
            match insertMany cs with
            | Inserted docs => (synced (List.length cs), docs)
            | InsertFailed e remaining => (onError e, remaining)
            end
          else (synced (List.length cs), [])
      end
  end.

(** [POST]: the response, and the collection afterwards, for a request
    body read as [body] and a collection holding [db]. *)
Definition POST (body : Completion json) (db : list json) : Response * list json :=
  match dbConnect with
  | Some e => (onError e, db)
  | None =>
      match readConcepts body with
      | Throw e => (onError e, db)
      | Normal (Some (JArr cs)) => replaceAll cs db
      | Normal _ => (invalidFormat, db)
      end
  end.

End WithServer.

(** *** Notions used to state the properties of the route *)

(** Some required field of [c] is absent or falsy. *)
Definition lacksRequired (c : json) : bool :=
  existsb (fun f => negb (truthy (get f c))) requiredFields.

Definition isNull (c : json) : bool :=
  match c with
  | JNull => true
  | _ => false
  end.

End SyncRoute.

(* ================================================================== *)
(** ** Sample hosts

    Small instances of the host interfaces, used to run the definitions on
    the examples below.  [sampleEngine] answers as [JSON.parse] does on the
    three texts it knows and on a text that is not JSON. *)

Module Samples.

Import JSString.

Definition quoted (s : string) : string := dquote ++ s ++ dquote.

Definition recordOf (t tp d k : string) : json :=
  JObj [("title", JStr t); ("topic", JStr tp); ("definition", JStr d);
        ("keyword", JStr k)].

Definition textOf (t tp d k : string) : string :=
  "{" ++ quoted "title" ++ ":" ++ quoted t ++ ","
      ++ quoted "topic" ++ ":" ++ quoted tp ++ ","
      ++ quoted "definition" ++ ":" ++ quoted d ++ ","
      ++ quoted "keyword" ++ ":" ++ quoted k ++ "}".

(** The batch of the duplicate-title scenario. *)
Definition scenario : list json :=
  [recordOf "A" "T" "D" "K"; recordOf "a" "T2" "D2" "K2"].

Definition scenarioText : string :=
  "[" ++ textOf "A" "T" "D" "K" ++ "," ++ textOf "a" "T2" "D2" "K2" ++ "]".

Definition singleText : string := "[" ++ textOf "A" "T" "D" "K" ++ "]".

#[export] Instance sampleEngine : Engine := {
  JSON_parse := fun s =>
    if String.eqb s "[]" then Normal (JArr [])
    else if String.eqb s singleText then Normal (JArr [recordOf "A" "T" "D" "K"])
    else if String.eqb s scenarioText then Normal (JArr scenario)
    else Throw (ErrorObject "Unexpected end of JSON input");
  newDate := fun v =>
    match v with
    | JNum q => Normal (ValidDate (Qnum q / Zpos (Qden q)))
    | _ => Normal InvalidDate
    end;
  notAFunction := fun key => ("concept." ++ key ++ "?.trim is not a function")%string
}.

Definition clockAt (t : Z) : Clock := fun _ _ => t.

Definition conceptOf (t : string) : Concept :=
  mkConcept None 0%Q "T" t "D" EmptyString EmptyString EmptyString EmptyString
            "K" EmptyString None None.

(** A browser whose store is empty and reachable and whose storage never
    overflows. *)
#[export] Instance sampleBrowser : Settings.Browser := {
  Settings.fetch := fun r =>
    match r with
    | Settings.SyncGET =>
        Normal (Settings.mkSyncResult true
                  (Some "Retrieved 0 concepts from database") (Some 0) (Some [])
                  None None)
    | Settings.SyncPOST body =>
        Normal (Settings.mkSyncResult true None (Some (List.length body)) None
                  None None)
    end;
  Settings.setItem := fun _ => None
}.

Definition sampleState (cs : list Concept) : Settings.AppState :=
  Settings.mkApp cs (Some cs) None EmptyString EmptyString
                 (Settings.mkLoading false false false false) [] [].

(** A server whose database is reachable and stores documents as given. *)
#[export] Instance sampleServer : SyncRoute.Server := {
  SyncRoute.dbConnect := None;
  SyncRoute.deleteMany := None;
  SyncRoute.insertMany := fun docs => SyncRoute.Inserted docs;
  SyncRoute.cannotReadNull := fun key =>
    ("Cannot read properties of null (reading '" ++ key ++ "')")%string
}.

(** Records and batches of the examples. *)
Definition wholesome : json := recordOf "A" "T" "D" "K".
Definition onlyTitle : json := JObj [("title", JStr "B")].
Definition emptyTitle : json := recordOf EmptyString "T" "D" "K".
Definition blankTitle : json := recordOf "  " "T" "D" "K".
Definition zeroTitle : json :=
  JObj [("title", JNum 0); ("topic", JStr "T"); ("definition", JStr "D");
        ("keyword", JStr "K")].

Definition numericOptional : json :=
  JObj [("title", JStr "A"); ("topic", JStr "T"); ("definition", JStr "D");
        ("keyword", JStr "K"); ("whyNeed", JNum 3)].

(** A staged import of two records, one of which repeats an existing title. *)
Definition staged : ValidationResult :=
  mkResult true [] [conceptOf "a"; conceptOf "B"] 2.

Definition importing : Settings.AppState :=
  Settings.mkApp [conceptOf "A"] (Some [conceptOf "A"]) (Some staged) EmptyString
                 EmptyString (Settings.mkLoading false false false false) [] [].

(** The answer of the sync endpoint when the collection is empty. *)
Definition emptyRemote : Settings.SyncResult :=
  Settings.mkSyncResult true (Some "Retrieved 0 concepts from database") (Some 0)
                        (Some []) None None.

(** A collection and two request bodies for the sync route. *)
Definition stored : list json := [wholesome].

End Samples.

(* ================================================================== *)
(** ** The settings panel: staging a file for import *)

Module FileImport.

Import JSString Settings.

(** [String.prototype.endsWith]. *)
Definition endsWith (s suffix : string) : bool :=
  let n := String.length s in
  let m := String.length suffix in
  if m <=? n then String.eqb (substring (n - m) m s) suffix else false.

(** The file picked in the file input: its name, its size in bytes, and
    what [readAsText] delivers ([None] when the reader fires [onerror]). *)
Record File : Type := mkFile {
  file_name : string;
  file_size : N;
  file_text : option string
}.

Definition invalidFileType : Toast :=
  mkToast "Invalid file type" "Please select a JSON file (.json extension required)."
          v_destructive.

Definition fileTooLarge : Toast :=
  mkToast "File too large"
          "File size must be less than 10MB. Please choose a smaller file."
          v_destructive.

Definition fileReadError (description : string) : Toast :=
  mkToast "File read error" description v_destructive.

Definition unreadable : string :=
  "Failed to read the selected file. Please try again or choose a different file.".

Definition stage (content : string) (validation : ValidationResult) (st : AppState)
  : AppState :=
  mkApp (concepts st) (localStorage st) (Some validation) content
        (fileInput st) (isLoading st) (toasts st) (requests st).

Definition clearFileInput (st : AppState) : AppState :=
  mkApp (concepts st) (localStorage st) (validationResult st) (jsonPreview st)
        EmptyString (isLoading st) (toasts st) (requests st).

Section WithHost.

Context {engine : Engine}.
Variable clock : Clock.

(** [handleImport], with the reader callbacks run: the state once the file
    has been read (or has failed to be). *)
Definition handleImport (file : option File) (st : AppState) : AppState :=
  match file with
  | None => st
  | Some f =>
      if negb (endsWith (file_name f) ".json") then toast invalidFileType st
      else if (10 * 1024 * 1024 <? file_size f)%N then toast fileTooLarge st
      else
        match file_text f with
        | None => setLoading importDone (toast (fileReadError unreadable) st)
        | Some content =>
            if String.eqb content EmptyString
               || String.eqb (trim content) EmptyString
            then setLoading importDone
                   (clearFileInput
                      (toast (fileReadError "File is empty or unreadable") st))
            else setLoading importDone
                   (stage content (Validator.validateJsonContent clock content) st)
        end
  end.

End WithHost.

(** [handleCancelImport]. *)
Definition handleCancelImport (st : AppState) : AppState := resetValidation st.

(** The cache holds the records shown. *)
Definition coherent (st : AppState) : Prop :=
  localStorage st = Some (concepts st).

End FileImport.

(* ================================================================== *)
(** ** The list and search components *)

Module Listing.

Import JSString.

(** What the form submits: a concept without [_id] and timestamps. *)
Record FormData : Type := mkForm {
  f_topicID : Q;
  f_topic : string;
  f_title : string;
  f_definition : string;
  f_detailedExplanation : string;
  f_whenToUse : string;
  f_whyNeed : string;
  f_codeExample : string;
  f_keyword : string;
  f_differences : string
}.

(** [useState] initialiser of [ConceptForm]: [concept?.field || default]. *)
Definition initialFormData (concept : option Concept) : FormData :=
  match concept with
  | Some c =>
      mkForm (if JS.isZero (topicID c) then 1%Q else topicID c)
             (topic c) (title c) (definition c) (detailedExplanation c)
             (whenToUse c) (whyNeed c) (codeExample c) (keyword c) (differences c)
  | None =>
      mkForm 1%Q EmptyString EmptyString EmptyString EmptyString EmptyString
             EmptyString EmptyString EmptyString EmptyString
  end.

(** The fields of a concept that the form edits. *)
Definition formFields (c : Concept) : FormData :=
  mkForm (topicID c) (topic c) (title c) (definition c) (detailedExplanation c)
         (whenToUse c) (whyNeed c) (codeExample c) (keyword c) (differences c).

(** One field of a concept, lower-cased, includes the query. *)
Definition matchesQuery (query : string) (concept : Concept) : bool :=
  includes (toLowerCase (title concept)) query
  || includes (toLowerCase (keyword concept)) query
  || includes (toLowerCase (topic concept)) query
  || includes (toLowerCase (definition concept)) query
  || includes (toLowerCase (detailedExplanation concept)) query
  || includes (toLowerCase (whenToUse concept)) query
  || includes (toLowerCase (whyNeed concept)) query
  || includes (toLowerCase (differences concept)) query.

(** [filteredConcepts] of [ConceptSearch]. *)
Definition filteredConcepts (concepts : list Concept) (searchQuery : string)
  : list Concept :=
  if String.eqb (trim searchQuery) EmptyString then concepts
  else
    let query := trim (toLowerCase searchQuery) in
    filter (matchesQuery query) concepts.

(** The names that a fresh object inherits from [Object.prototype] (each
    with a truthy value that has no [push] method), and the message of the
    [TypeError] raised by calling [push] on such a value. *)
Class Prototype : Type := {
  inherited : string -> bool;
  pushNotAFunction : string -> string
}.

(** The accumulator of the grouping: the own properties of [groups], in
    the order they were created. *)
Definition Groups : Type := list (string * list Concept).

Fixpoint group (t : string) (groups : Groups) : option (list Concept) :=
  match groups with
  | [] => None
  | (k, members) :: rest => if String.eqb k t then Some members else group t rest
  end.

(** [groups[t].push(concept)] for an own property [t]. *)
Fixpoint pushTo (t : string) (concept : Concept) (groups : Groups) : Groups :=
  match groups with
  | [] => []
  | (k, members) :: rest =>
      if String.eqb k t then (k, members ++ [concept]) :: rest
      else (k, members) :: pushTo t concept rest
  end.

Section WithPrototype.

Context {prototype : Prototype}.

(** The callback of [reduce]. *)
Definition addToGroup (groups : Groups) (concept : Concept) : Completion Groups :=
  let t := topic concept in
  match group t groups with
  | Some _ => Normal (pushTo t concept groups)
  | None =>
      if inherited t then Throw (ErrorObject (pushNotAFunction t))
      else Normal (groups ++ [(t, [concept])])
  end.

Fixpoint reduce (concepts : list Concept) (groups : Groups) : Completion Groups :=
  match concepts with
  | [] => Normal groups
  | concept :: rest => groups' <- addToGroup groups concept ;; reduce rest groups'
  end.

(** [groupedConcepts] of [ConceptList] and [ConceptSearch]. *)
Definition groupedConcepts (concepts : list Concept) : Completion Groups :=
  reduce concepts [].

End WithPrototype.

(** A call of [fetch] on the concepts endpoints. *)
Inductive CrudRequest : Type :=
| PutConcept (id : string) (data : FormData)
| PostConcept (data : FormData)
| DeleteConcept (id : string).

(** The body the endpoints answer with, as the handlers read it:
    [success], and [data] when [success] holds. *)
Inductive CrudResult : Type :=
| Succeeded (data : Concept)
| Failed.

(** [crud r] is the outcome of [fetch] and [response.json()]; [storeItem
    cs] the exception [localStorage.setItem] raises when writing [cs], if
    any. *)
Class Api : Type := {
  crud : CrudRequest -> Completion CrudResult;
  storeItem : list Concept -> option Thrown
}.

(** The [concepts] prop, the cache, the component state and the log of
    [fetch] calls. *)
Record ListState : Type := mkList {
  l_concepts : list Concept;
  l_localStorage : option (list Concept);
  showForm : bool;
  editingConcept : option Concept;
  viewingConcept : option Concept;
  l_isLoading : bool;
  l_requests : list CrudRequest
}.

(** [editingConcept?._id] when it is truthy. *)
Definition editingId (st : ListState) : option string :=
  match editingConcept st with
  | Some c =>
      match _id c with
      | Some id => if String.eqb id EmptyString then None else Some id
      | None => None
      end
  | None => None
  end.

(** [c._id === id]. *)
Definition hasId (id : string) (c : Concept) : bool :=
  match _id c with
  | Some i => String.eqb i id
  | None => false
  end.

Section WithApi.

Context {api : Api}.

(** [handleSave]. *)
Definition handleSave (conceptData : FormData) (st : ListState) : ListState :=
  let request := match editingId st with
                 | Some id => PutConcept id conceptData
                 | None => PostConcept conceptData
                 end in
  let requests' := l_requests st ++ [request] in
  match crud request with
  | Normal (Succeeded data) =>
      let updatedConcepts :=
        match editingId st with
        | Some id => map (fun c => if hasId id c then data else c) (l_concepts st)
        | None => data :: l_concepts st
        end in
      match storeItem updatedConcepts with
      | None =>
          mkList updatedConcepts (Some updatedConcepts) false None
                 (viewingConcept st) false requests'
      | Some _ =>
          mkList updatedConcepts (l_localStorage st) (showForm st)
                 (editingConcept st) (viewingConcept st) false requests'
      end
  | _ =>
      mkList (l_concepts st) (l_localStorage st) (showForm st) (editingConcept st)
             (viewingConcept st) false requests'
  end.

(** [handleDelete]; [confirmed] is the answer to [confirm]. *)
Definition handleDelete (confirmed : bool) (id : string) (st : ListState) : ListState :=
  if negb confirmed then st
  else
    let requests' := l_requests st ++ [DeleteConcept id] in
    match crud (DeleteConcept id) with
    | Normal (Succeeded _) =>
        let updatedConcepts := filter (fun c => negb (hasId id c)) (l_concepts st) in
        mkList updatedConcepts
               match storeItem updatedConcepts with
               | None => Some updatedConcepts
               | Some _ => l_localStorage st
               end
               (showForm st) (editingConcept st) (viewingConcept st)
               (l_isLoading st) requests'
    | _ =>
        mkList (l_concepts st) (l_localStorage st) (showForm st) (editingConcept st)
               (viewingConcept st) (l_isLoading st) requests'
    end.

(** [handleDelete] of [ConceptCard], wired to the [handleDelete] above. *)
Definition cardDelete (confirmed : bool) (concept : Concept) (st : ListState)
  : ListState :=
  match _id concept with
  | Some id => if String.eqb id EmptyString then st else handleDelete confirmed id st
  | None => st
  end.

(** [handleEdit]. *)
Definition handleEdit (concept : Concept) (st : ListState) : ListState :=
  mkList (l_concepts st) (l_localStorage st) true (Some concept) None
         (l_isLoading st) (l_requests st).

End WithApi.

End Listing.

(* ================================================================== *)
(** ** The body of the push request *)

Module Wire.

Section WithDates.

(** [Date.prototype.toISOString] on a time value. *)
Variable toISOString : Z -> string.

(** [JSON.stringify] of a [Date]: the ISO string, [null] for the invalid
    date. *)
Definition dateJSON (d : Date) : json :=
  match d with
  | ValidDate ms => JStr (toISOString ms)
  | InvalidDate => JNull
  end.

Definition entry {A : Type} (key : string) (to : A -> json) (v : option A)
  : list (string * json) :=
  match v with
  | Some a => [(key, to a)]
  | None => []
  end.

(** What [JSON.parse] gives back for the [JSON.stringify] of a concept:
    properties that are [undefined] are left out.  The properties are
    listed in the order of the object literal of the validator. *)
Definition conceptJSON (c : Concept) : json :=
  JObj (entry "_id" JStr (_id c)
        ++ [("topicID", JNum (topicID c)); ("topic", JStr (topic c));
            ("title", JStr (title c)); ("definition", JStr (definition c));
            ("detailedExplanation", JStr (detailedExplanation c));
            ("whenToUse", JStr (whenToUse c)); ("whyNeed", JStr (whyNeed c));
            ("codeExample", JStr (codeExample c)); ("keyword", JStr (keyword c));
            ("differences", JStr (differences c))]
        ++ entry "createdAt" dateJSON (createdAt c)
        ++ entry "updatedAt" dateJSON (updatedAt c)).

(** The body of the request of [handleSyncToDatabase],
    [JSON.stringify({ concepts })], as [request.json()] reads it. *)
Definition syncBody (cs : list Concept) : json :=
  JObj [("concepts", JArr (map conceptJSON cs))].

End WithDates.

End Wire.

(* ================================================================== *)
(** ** Notions used to state further properties *)

Module Notions.

Import JSString JS Validator.

Definition isInfoType (t : DiagnosticType) : bool :=
  match t with t_info => true | _ => false end.

Definition infoCount (l : list ValidationError) : nat :=
  List.length (filter (fun e => isInfoType (type e)) l).

(** A diagnostic tagged with record index [i]. *)
Definition atIndex (i : nat) (e : ValidationError) : bool :=
  indexEqb (conceptIndex e) i.

(** An accepted record as the validator leaves it: the four required
    texts are trimmed and not empty, the optional texts are trimmed, there
    is no identifier and both timestamps are set. *)
Definition trimmed (s : string) : Prop := trim s = s.

Definition normalized (k : Concept) : Prop :=
  (title k <> EmptyString /\ trimmed (title k))
  /\ (topic k <> EmptyString /\ trimmed (topic k))
  /\ (definition k <> EmptyString /\ trimmed (definition k))
  /\ (keyword k <> EmptyString /\ trimmed (keyword k))
  /\ trimmed (detailedExplanation k)
  /\ trimmed (whenToUse k)
  /\ trimmed (whyNeed k)
  /\ trimmed (codeExample k)
  /\ trimmed (differences k)
  /\ _id k = None
  /\ createdAt k <> None
  /\ updatedAt k <> None.

(** What the loop pushes for the entry at index [i], given the titles
    seen so far. *)
Definition ownDiagnostics (i : nat) (c : json) (seen : list string)
  : list ValidationError :=
  if isRecord c then fst (conceptErrorsOf i c seen) else [notAnObject i].

(** The titles seen when the loop arrives at index [i] of [items]. *)
Definition seenBefore {engine : Engine} (clock : Clock) (items : list json) (i : nat)
  : list string :=
  p_seenTitles (fst (forEach clock 0 (firstn i items) start)).

(** The loop arrives at index [i] of [items]: no earlier entry raised. *)
Definition reaches {engine : Engine} (clock : Clock) (items : list json) (i : nat)
  : Prop :=
  snd (forEach clock 0 (firstn i items) start) = None.

(** The four required texts of a concept are not empty. *)
Definition complete (k : Concept) : Prop :=
  title k <> EmptyString /\ topic k <> EmptyString
  /\ definition k <> EmptyString /\ keyword k <> EmptyString.

(** [sub] occurs in [s]. *)
Definition occursIn (sub s : string) : Prop :=
  exists before after, s = (before ++ sub ++ after)%string.

(** The records of [cs] whose topic is [t], in their order; the group a
    topic should have: those records, if there are any. *)
Definition membersOf (t : string) (cs : list Concept) : list Concept :=
  filter (fun c => String.eqb (topic c) t) cs.

Definition groupOf (t : string) (cs : list Concept) : option (list Concept) :=
  match membersOf t cs with
  | [] => None
  | members => Some members
  end.

End Notions.

(* ================================================================== *)
(** ** Further sample hosts *)

Module MoreSamples.

Import Samples Listing.

(** An object prototype with the members of the language standard. *)
#[export] Instance samplePrototype : Prototype := {
  inherited := fun t =>
    existsb (String.eqb t)
            ["constructor"; "hasOwnProperty"; "isPrototypeOf";
             "propertyIsEnumerable"; "toLocaleString"; "toString"; "valueOf";
             "__proto__"];
  pushNotAFunction := fun t => "groups[topic].push is not a function"
}.

Definition savedAs (id t : string) : Concept :=
  mkConcept (Some id) 0%Q "T" t "D" EmptyString EmptyString EmptyString EmptyString
            "K" EmptyString None None.

(** Endpoints that accept everything: a created or updated record comes
    back with the identifier "n1" or the one addressed. *)
#[export] Instance sampleApi : Api := {
  crud := fun r =>
    match r with
    | PutConcept id data => Normal (Succeeded (savedAs id (f_title data)))
    | PostConcept data => Normal (Succeeded (savedAs "n1" (f_title data)))
    | DeleteConcept id => Normal (Succeeded (savedAs id "gone"))
    end;
  storeItem := fun _ => None
}.

(** A browser whose store holds one record. *)
Definition remoteSet : list Concept := [savedAs "r1" "Remote"].

Definition remoteBrowser : Settings.Browser := {|
  Settings.fetch := fun r =>
    match r with
    | Settings.SyncGET =>
        Normal (Settings.mkSyncResult true None (Some 1) (Some remoteSet) None None)
    | Settings.SyncPOST body =>
        Normal (Settings.mkSyncResult true None (Some (List.length body)) None
                  None None)
    end;
  Settings.setItem := fun _ => None
|}.

(** An engine that also parses the text of one record that stands alone. *)
Definition recordEngine : Engine := {|
  JSON_parse := fun s =>
    if String.eqb s (textOf "A" "T" "D" "K") then Normal wholesome
    else @JSON_parse sampleEngine s;
  newDate := @newDate sampleEngine;
  notAFunction := @notAFunction sampleEngine
|}.

(** Endpoints that refuse every update and accept the rest. *)
Definition updatesRefused : Api := {|
  crud := fun r =>
    match r with
    | PutConcept _ _ => Normal Failed
    | PostConcept data => Normal (Succeeded (savedAs "n1" (f_title data)))
    | DeleteConcept id => Normal (Succeeded (savedAs id "gone"))
    end;
  storeItem := fun _ => None
|}.

Definition listOf (cs : list Concept) : ListState :=
  mkList cs (Some cs) false None None false [].

Definition jsonFile (text : string) : FileImport.File :=
  FileImport.mkFile "concepts.json" 120%N (Some text).

Definition isoStub : Z -> string := fun _ => "1970-01-01T00:00:00.000Z".

(** A file one byte over the limit, and two bodies for the sync route. *)
Definition tooLarge : FileImport.File :=
  FileImport.mkFile "concepts.json" 10485761%N (Some singleText).

Definition goodPush : json := JObj [("concepts", JArr [wholesome])].

(** A record with a field the validator does not know. *)
Definition withColor : json :=
  JObj [("title", JStr "A"); ("topic", JStr "T"); ("definition", JStr "D");
        ("keyword", JStr "K"); ("color", JStr "red")].

Definition topicOf (t : string) : Concept :=
  mkConcept None 0%Q t "A" "D" EmptyString EmptyString EmptyString EmptyString
            "K" EmptyString None None.

Definition formOf (t : string) : FormData :=
  mkForm 1%Q "T" t "D" EmptyString EmptyString EmptyString EmptyString "K"
         EmptyString.

End MoreSamples.

(* ================================================================== *)
(** ** Facts about the validator *)

Module ValidatorFacts.

Import JSString JS Validator.

Lemma includesString_In (l : list string) (s : string) :
  includesString l s = true <-> In s l.
Proof.
  unfold includesString. rewrite existsb_exists. split.
  - intros [x [Hin Heq]]. apply String.eqb_eq in Heq. now subst.
  - intros Hin. exists s. split; [assumption | apply String.eqb_refl].
Qed.

Lemma errorCount_app (l1 l2 : list ValidationError) :
  errorCount (l1 ++ l2) = errorCount l1 + errorCount l2.
Proof. unfold errorCount. now rewrite filter_app, length_app. Qed.

Lemma hasCriticalErrors_app (l1 l2 : list ValidationError) :
  hasCriticalErrors (l1 ++ l2) = hasCriticalErrors l1 || hasCriticalErrors l2.
Proof. unfold hasCriticalErrors. apply existsb_app. Qed.

Lemma hasCriticalErrors_count (l : list ValidationError) :
  hasCriticalErrors l = false <-> errorCount l = 0.
Proof.
  unfold hasCriticalErrors, errorCount. induction l as [|e l IH]; simpl.
  - tauto.
  - destruct (isErrorType (type e)); simpl.
    + split; discriminate.
    + exact IH.
Qed.

Lemma hasCriticalErrors_true_count (l : list ValidationError) :
  hasCriticalErrors l = true -> 0 < errorCount l.
Proof.
  intros H. destruct (errorCount l) eqn:E; [|lia].
  apply hasCriticalErrors_count in E. congruence.
Qed.

Lemma checkRequiredField_index (i : nat) (c : json) (f : string) :
  Forall (at_index i) (checkRequiredField i c f).
Proof.
  unfold checkRequiredField.
  destruct (negb (truthy (get f c))); [repeat constructor|].
  destruct (get f c) as [[| | |s| |]|]; try (repeat constructor).
  destruct (String.eqb (trim s) EmptyString); repeat constructor.
Qed.

Lemma checkRequiredFields_index (i : nat) (c : json) :
  Forall (at_index i) (checkRequiredFields i c).
Proof.
  unfold checkRequiredFields. apply Forall_flat_map, Forall_forall.
  intros f _. apply checkRequiredField_index.
Qed.

Lemma checkUnknownFields_index (i : nat) (c : json) :
  Forall (at_index i) (checkUnknownFields i c).
Proof.
  unfold checkUnknownFields. apply Forall_flat_map, Forall_forall.
  intros key _. destruct (negb _); repeat constructor.
Qed.

Lemma checkUnknownFields_warnings (i : nat) (c : json) :
  Forall (fun e => type e = t_warning) (checkUnknownFields i c).
Proof.
  unfold checkUnknownFields. apply Forall_flat_map, Forall_forall.
  intros key _. destruct (negb _); repeat constructor.
Qed.

Lemma checkDuplicateTitle_index (i : nat) (c : json) (seen : list string) :
  Forall (at_index i) (fst (checkDuplicateTitle i c seen)).
Proof.
  unfold checkDuplicateTitle.
  destruct (get "title" c) as [[| | |t| |]|]; simpl; try constructor.
  destruct (negb _); simpl; [|constructor].
  destruct (includesString _ _); simpl; repeat constructor.
Qed.

Lemma checkDuplicateTitle_warnings (i : nat) (c : json) (seen : list string) :
  Forall (fun e => type e = t_warning) (fst (checkDuplicateTitle i c seen)).
Proof.
  unfold checkDuplicateTitle.
  destruct (get "title" c) as [[| | |t| |]|]; simpl; try constructor.
  destruct (negb _); simpl; [|constructor].
  destruct (includesString _ _); simpl; repeat constructor.
Qed.

Lemma checkTopicID_index (i : nat) (c : json) :
  Forall (at_index i) (checkTopicID i c).
Proof.
  unfold checkTopicID.
  destruct (get "topicID" c) as [[| | | | |]|]; repeat constructor.
Qed.

Lemma warnings_not_critical (l : list ValidationError) :
  Forall (fun e => type e = t_warning) l -> hasCriticalErrors l = false.
Proof.
  unfold hasCriticalErrors. induction 1 as [|e l He _ IH]; simpl.
  - reflexivity.
  - now rewrite He, IH.
Qed.

Lemma conceptErrorsOf_index (i : nat) (c : json) (seen : list string) :
  Forall (at_index i) (fst (conceptErrorsOf i c seen)).
Proof.
  unfold conceptErrorsOf.
  pose proof (checkDuplicateTitle_index i c seen) as Hd.
  destruct (checkDuplicateTitle i c seen) as [dup seen']. simpl in *.
  rewrite !Forall_app.
  repeat split;
    auto using checkRequiredFields_index, checkUnknownFields_index,
               checkTopicID_index.
Qed.

(** Whether a record is accepted does not depend on the titles seen. *)
Lemma conceptErrorsOf_critical (i : nat) (c : json) (seen : list string) :
  hasCriticalErrors (fst (conceptErrorsOf i c seen))
  = hasCriticalErrors (criticalChecks i c).
Proof.
  unfold conceptErrorsOf, criticalChecks.
  pose proof (checkDuplicateTitle_warnings i c seen) as Hd.
  destruct (checkDuplicateTitle i c seen) as [dup seen']. simpl in *.
  rewrite !hasCriticalErrors_app.
  rewrite (warnings_not_critical _ (checkUnknownFields_warnings i c)).
  rewrite (warnings_not_critical _ Hd). simpl. reflexivity.
Qed.

Lemma object_test (c : json) :
  negb (truthy (Some c)) || negb (isType t_object (Some c)) = negb (isRecord c).
Proof.
  destruct c as [|b|q|s|l|l]; simpl; try reflexivity.
  - destruct b; reflexivity.
  - destruct (isZero q); reflexivity.
  - destruct (String.eqb s EmptyString); reflexivity.
Qed.

Section Loop.

Context {engine : Engine}.
Variable clock : Clock.

Lemma validateConcept_not_record (i : nat) (c : json) (p : Progress) :
  isRecord c = false ->
  validateConcept clock i c p
  = (mkProgress (p_errors p ++ [notAnObject i]) (p_validConcepts p) (p_seenTitles p),
     None).
Proof.
  intros H. unfold validateConcept. now rewrite object_test, H.
Qed.

Lemma validateConcept_record (i : nat) (c : json) (p : Progress) :
  isRecord c = true ->
  validateConcept clock i c p
  = let conceptErrors := fst (conceptErrorsOf i c (p_seenTitles p)) in
    let seen' := snd (conceptErrorsOf i c (p_seenTitles p)) in
    let errors' := p_errors p ++ conceptErrors in
    if negb (hasCriticalErrors conceptErrors) then
      match buildConcept clock i c with
      | Normal k => (mkProgress errors' (p_validConcepts p ++ [k]) seen', None)
      | Throw e => (mkProgress errors' (p_validConcepts p) seen', Some e)
      end
    else (mkProgress errors' (p_validConcepts p) seen', None).
Proof.
  intros H. unfold validateConcept. rewrite object_test, H. simpl.
  destruct (conceptErrorsOf i c (p_seenTitles p)) as [ce seen']. reflexivity.
Qed.

(** One round of the loop only appends diagnostics, all of them tagged
    with the index of the record. *)
Lemma validateConcept_errors (i : nat) (c : json) (p : Progress) :
  exists added,
    p_errors (fst (validateConcept clock i c p)) = p_errors p ++ added
    /\ Forall (at_index i) added.
Proof.
  destruct (isRecord c) eqn:Hrec.
  - rewrite validateConcept_record by assumption. cbv zeta.
    exists (fst (conceptErrorsOf i c (p_seenTitles p))).
    split; [|apply conceptErrorsOf_index].
    destruct (negb _); [destruct (buildConcept clock i c)|]; reflexivity.
  - rewrite validateConcept_not_record by assumption.
    exists [notAnObject i]. split; [reflexivity | repeat constructor].
Qed.

Lemma forEach_errors (l : list json) :
  forall (i : nat) (p : Progress),
  exists added,
    p_errors (fst (forEach clock i l p)) = p_errors p ++ added
    /\ Forall (in_range i (List.length l)) added.
Proof.
  induction l as [|c rest IH]; intros i p; simpl.
  - exists []. split; [now rewrite app_nil_r | constructor].
  - destruct (validateConcept_errors i c p) as [a1 [E1 F1]].
    destruct (validateConcept clock i c p) as [p1 [e|]] eqn:Hv; simpl in *.
    + exists a1. split; [assumption|].
      eapply Forall_impl; [|exact F1]. intros e0 He0. exists i. split; [exact He0 | lia].
    + destruct (IH (S i) p1) as [a2 [E2 F2]].
      exists (a1 ++ a2). split.
      * now rewrite E2, E1, app_assoc.
      * apply Forall_app. split.
        -- eapply Forall_impl; [|exact F1]. intros e0 He0. exists i. split; [exact He0 | lia].
        -- eapply Forall_impl; [|exact F2]. intros e0 [j [Hj Hr]]. exists j. split; [exact Hj | lia].
Qed.

Lemma forEach_app (l1 l2 : list json) :
  forall (i : nat) (p : Progress),
    forEach clock i (l1 ++ l2) p
    = match forEach clock i l1 p with
      | (p', None) => forEach clock (i + List.length l1) l2 p'
      | (p', Some e) => (p', Some e)
      end.
Proof.
  induction l1 as [|c rest IH]; intros i p; simpl.
  - now rewrite Nat.add_0_r.
  - destruct (validateConcept clock i c p) as [p1 [e|]]; [reflexivity|].
    rewrite IH. now rewrite Nat.add_succ_r.
Qed.

End Loop.

Section Acceptance.

Context {engine : Engine}.
Variable clock : Clock.

Lemma trimmed_required (c : json) (f : string) :
  requiredOk c f = true -> exists s, trimmedOrEmpty f c = Normal s.
Proof.
  unfold requiredOk, trimmedOrEmpty.
  destruct (get f c) as [[| | |s| |]|]; try discriminate. eauto.
Qed.

Lemma trimmed_optional (c : json) (f : string) :
  optionalOk c f = true -> exists s, trimmedOrEmpty f c = Normal s.
Proof.
  unfold optionalOk, trimmedOrEmpty.
  destruct (get f c) as [[| | |s| |]|]; try discriminate; eauto.
Qed.

Lemma date_ok (c : json) (f : string) (i : nat) (st : Stamp) :
  dateOk c f = true -> exists d, dateOrNow clock f i st c = Normal d.
Proof.
  unfold dateOk, dateOrNow.
  destruct (get f c) as [v|]; [|eauto].
  destruct (truthy (Some v)); [|eauto].
  destruct (newDate v); [eauto | discriminate].
Qed.

Lemma required_no_error (c : json) (f : string) (i : nat) :
  requiredOk c f = true -> checkRequiredField i c f = [].
Proof.
  unfold requiredOk, checkRequiredField.
  destruct (get f c) as [[| | |s| |]|]; try discriminate.
  intros H. simpl.
  destruct (String.eqb s EmptyString) eqn:Es.
  - apply String.eqb_eq in Es. subst s. discriminate H.
  - simpl. destruct (String.eqb (trim s) EmptyString); [discriminate | reflexivity].
Qed.

Lemma topicID_no_error (c : json) (i : nat) :
  topicIDOk c = true -> checkTopicID i c = [].
Proof.
  unfold topicIDOk, checkTopicID.
  destruct (get "topicID" c) as [[| | | | |]|]; try discriminate; reflexivity.
Qed.

Lemma wellFormed_critical (c : json) (i : nat) :
  wellFormed c = true -> criticalChecks i c = [].
Proof.
  unfold wellFormed, criticalChecks, checkRequiredFields, requiredFields.
  intros H. repeat (apply andb_prop in H; destruct H as [H ?]).
  simpl in *.
  repeat match goal with
         | Hc : _ && _ = true |- _ => apply andb_prop in Hc; destruct Hc
         end.
  rewrite !required_no_error, topicID_no_error by assumption. reflexivity.
Qed.

Lemma wellFormed_builds (c : json) (i : nat) :
  wellFormed c = true -> exists k, buildConcept clock i c = Normal k.
Proof.
  unfold wellFormed, requiredFields, optionalStrings, timestamps.
  intros H. repeat (apply andb_prop in H; destruct H as [H ?]).
  simpl in *.
  repeat match goal with
         | Hc : _ && _ = true |- _ => apply andb_prop in Hc; destruct Hc
         end.
  unfold buildConcept.
  repeat match goal with
         | Hr : requiredOk c ?f = true |- _ =>
             let s := fresh "s" in let E := fresh "E" in
             destruct (trimmed_required c f Hr) as [s E]; rewrite E; clear Hr
         | Ho : optionalOk c ?f = true |- _ =>
             let s := fresh "s" in let E := fresh "E" in
             destruct (trimmed_optional c f Ho) as [s E]; rewrite E; clear Ho
         end.
  match goal with
  | Hd : dateOk c "createdAt" = true |- _ =>
      destruct (date_ok c "createdAt" i CreatedAt Hd) as [d1 D1]; rewrite D1
  end.
  match goal with
  | Hd : dateOk c "updatedAt" = true |- _ =>
      destruct (date_ok c "updatedAt" i UpdatedAt Hd) as [d2 D2]; rewrite D2
  end.
  simpl. eauto.
Qed.

Lemma wellFormed_record (c : json) : wellFormed c = true -> isRecord c = true.
Proof.
  unfold wellFormed. intros H.
  repeat (apply andb_prop in H; destruct H as [H ?]). assumption.
Qed.

(** A well-formed record is accepted, and draws no error. *)
Lemma validateConcept_wellFormed (i : nat) (c : json) (p : Progress) :
  wellFormed c = true ->
  exists p',
    validateConcept clock i c p = (p', None)
    /\ List.length (p_validConcepts p') = S (List.length (p_validConcepts p))
    /\ errorCount (p_errors p') = errorCount (p_errors p).
Proof.
  intros Hwf.
  rewrite validateConcept_record by (now apply wellFormed_record). cbv zeta.
  assert (Hc : hasCriticalErrors (fst (conceptErrorsOf i c (p_seenTitles p))) = false).
  { rewrite conceptErrorsOf_critical, wellFormed_critical by assumption. reflexivity. }
  rewrite Hc. simpl.
  destruct (wellFormed_builds c i Hwf) as [k Hk]. rewrite Hk.
  eexists. split; [reflexivity|]. simpl. split.
  - rewrite length_app. simpl. lia.
  - rewrite errorCount_app. apply hasCriticalErrors_count in Hc. lia.
Qed.

Lemma forEach_wellFormed (l : list json) :
  forall (i : nat) (p : Progress),
    Forall (fun c => wellFormed c = true) l ->
    exists p',
      forEach clock i l p = (p', None)
      /\ List.length (p_validConcepts p')
         = List.length (p_validConcepts p) + List.length l
      /\ errorCount (p_errors p') = errorCount (p_errors p).
Proof.
  induction l as [|c rest IH]; intros i p Hall; simpl.
  - exists p. repeat split; lia.
  - inversion Hall as [|? ? Hc Hrest]; subst.
    destruct (validateConcept_wellFormed i c p Hc) as [p1 [E1 [L1 C1]]].
    rewrite E1.
    destruct (IH (S i) p1 Hrest) as [p2 [E2 [L2 C2]]].
    exists p2. repeat split; [assumption | lia | lia].
Qed.

Lemma forEach_errorCount_le (l : list json) (i : nat) (p : Progress) :
  errorCount (p_errors p) <= errorCount (p_errors (fst (forEach clock i l p))).
Proof.
  destruct (forEach_errors clock l i p) as [added [E _]].
  rewrite E, errorCount_app. lia.
Qed.

Lemma validateConcept_rejected (i : nat) (c : json) (p : Progress) :
  rejected i c = true ->
  0 < errorCount (p_errors (fst (validateConcept clock i c p))).
Proof.
  unfold rejected. intros H.
  destruct (isRecord c) eqn:Hrec; simpl in H.
  - rewrite validateConcept_record by assumption. cbv zeta.
    rewrite <- (conceptErrorsOf_critical i c (p_seenTitles p)) in H.
    rewrite H. simpl. rewrite errorCount_app.
    apply hasCriticalErrors_true_count in H. lia.
  - rewrite validateConcept_not_record by assumption. simpl.
    rewrite errorCount_app.
    change (errorCount [notAnObject i]) with 1. lia.
Qed.

(** A rejected record leaves an error in the diagnostics of a loop
    that runs to its end. *)
Lemma forEach_rejected (l : list json) :
  forall (i : nat) (p p' : Progress) (k : nat) (c : json),
    forEach clock i l p = (p', None) ->
    nth_error l k = Some c ->
    rejected (i + k) c = true ->
    0 < errorCount (p_errors p').
Proof.
  induction l as [|c0 rest IH]; intros i p p' k c Hrun Hnth Hrej.
  - destruct k; discriminate.
  - simpl in Hrun.
    destruct (validateConcept clock i c0 p) as [p1 [e|]] eqn:Hv; [discriminate|].
    destruct k as [|k]; simpl in Hnth.
    + injection Hnth as ->. rewrite Nat.add_0_r in Hrej.
      pose proof (validateConcept_rejected i c p Hrej) as H1. rewrite Hv in H1.
      pose proof (forEach_errorCount_le rest (S i) p1) as H2.
      rewrite Hrun in H2. simpl in *. lia.
    + apply (IH (S i) p1 p' k c Hrun Hnth).
      now rewrite Nat.add_succ_l, <- Nat.add_succ_r.
Qed.

End Acceptance.

Lemma hasCritical_required (i : nat) (c : json) (f : string) :
  hasCriticalErrors (checkRequiredField i c f) = negb (requiredOk c f).
Proof.
  unfold checkRequiredField, requiredOk.
  destruct (get f c) as [[|b|q|s|l|l]|]; simpl; try reflexivity.
  - now destruct b.
  - now destruct (isZero q).
  - destruct (String.eqb_spec s EmptyString) as [->|_]; simpl; [reflexivity|].
    now destruct (String.eqb (trim s) EmptyString).
Qed.

Lemma hasCritical_topicID (i : nat) (c : json) :
  hasCriticalErrors (checkTopicID i c) = negb (topicIDOk c).
Proof.
  unfold checkTopicID, topicIDOk.
  now destruct (get "topicID" c) as [[| | | | |]|].
Qed.

(** A record draws an error-level diagnostic exactly when it is not an
    object, or some required field is not a string that is not blank, or
    its [topicID] is there and is not a number. *)
Lemma rejected_spec (i : nat) (c : json) :
  rejected i c
  = negb (isRecord c && forallb (requiredOk c) requiredFields && topicIDOk c).
Proof.
  unfold rejected, criticalChecks, checkRequiredFields, requiredFields.
  simpl flat_map. simpl forallb.
  rewrite !hasCriticalErrors_app, !hasCritical_required, hasCritical_topicID.
  change (hasCriticalErrors []) with false.
  destruct (isRecord c), (requiredOk c "title"), (requiredOk c "topic"),
    (requiredOk c "definition"), (requiredOk c "keyword"), (topicIDOk c);
    reflexivity.
Qed.

Section Results.

Context {engine : Engine}.
Variable clock : Clock.

Lemma validateParsed_records (c : json) (rest : list json) :
  validateParsed clock (JArr (c :: rest))
  = resultOf (List.length (c :: rest)) (forEach clock 0 (c :: rest) start).
Proof. reflexivity. Qed.

Lemma validateParsed_array (items : list json) :
  items <> [] ->
  validateParsed clock (JArr items)
  = resultOf (List.length items) (forEach clock 0 items start).
Proof.
  destruct items as [|c rest]; [congruence|]. intros _.
  apply validateParsed_records.
Qed.

Lemma resultOf_flag (n : nat) (run : Progress * option Thrown) :
  let r := resultOf n run in
  isValid r
  = Nat.ltb 0 (List.length (validConcepts r)) && Nat.eqb (errorCount (errors r)) 0.
Proof.
  destruct run as [p [e|]]; simpl; [reflexivity|].
  destruct (Nat.ltb 0 (List.length (p_validConcepts p))
            && Nat.eqb (errorCount (p_errors p)) 0) eqn:Hv.
  - rewrite errorCount_app.
    change (errorCount [summary (List.length (p_validConcepts p))]) with 0.
    rewrite Nat.add_0_r. symmetry. exact Hv.
  - symmetry. exact Hv.
Qed.

Lemma validateParsed_flag (parsedData : json) :
  let r := validateParsed clock parsedData in
  isValid r
  = Nat.ltb 0 (List.length (validConcepts r)) && Nat.eqb (errorCount (errors r)) 0.
Proof.
  destruct parsedData as [|b|q|s|items|fields]; try reflexivity.
  destruct items as [|c rest]; [reflexivity|].
  rewrite validateParsed_records. apply resultOf_flag.
Qed.

(** C1.  The validity flag of every result is the conjunction "some
    record was accepted and no diagnostic has level error", on a text
    and on a parsed value alike.  Hence a non-empty batch of
    well-formed records is valid with as many accepted records as it
    has entries, and a batch in which some record draws an error-level
    diagnostic is invalid whatever the other records are.  A record draws
    such a diagnostic exactly when it is not an object, or a required
    field is not a string that is not blank, or its [topicID] is there and
    is not a number. *)
Theorem C1_validity_gate :
  (forall content : string,
      let r := validateJsonContent clock content in
      isValid r
      = Nat.ltb 0 (List.length (validConcepts r))
        && Nat.eqb (errorCount (errors r)) 0)
  /\ (forall parsedData : json,
      let r := validateParsed clock parsedData in
      isValid r
      = Nat.ltb 0 (List.length (validConcepts r))
        && Nat.eqb (errorCount (errors r)) 0)
  /\ (forall items : list json,
      items <> [] ->
      Forall (fun c => wellFormed c = true) items ->
      let r := validateParsed clock (JArr items) in
      isValid r = true /\ List.length (validConcepts r) = List.length items)
  /\ (forall (items : list json) (i : nat) (c : json),
      nth_error items i = Some c ->
      rejected i c = true ->
      isValid (validateParsed clock (JArr items)) = false)
  /\ (forall (i : nat) (c : json),
      rejected i c
      = negb (isRecord c && forallb (requiredOk c) requiredFields && topicIDOk c)).
Proof.
  split; [|split; [|split; [|split; [|exact rejected_spec]]]].
  - intros content. unfold validateJsonContent.
    destruct (JSON_parse content) as [v|e]; [apply validateParsed_flag | reflexivity].
  - apply validateParsed_flag.
  - intros items Hne Hall.
    rewrite validateParsed_array by assumption.
    destruct (forEach_wellFormed clock items 0 start Hall) as [p [Hrun [Hlen Herr]]].
    rewrite Hrun. simpl in Hlen, Herr. simpl.
    assert (Hpos : 0 < List.length items).
    { destruct items; [congruence | simpl; lia]. }
    rewrite Hlen, Herr.
    change (errorCount []) with 0. simpl.
    split; [|reflexivity].
    apply andb_true_iff. split; [apply Nat.ltb_lt; lia | reflexivity].
  - intros items i c Hnth Hrej.
    assert (Hne : items <> []) by (intros ->; destruct i; discriminate).
    rewrite validateParsed_array by assumption.
    destruct (forEach clock 0 items start) as [p [e|]] eqn:Hrun; [reflexivity|].
    pose proof (forEach_rejected clock items 0 start p i c Hrun Hnth Hrej) as Hpos.
    simpl.
    destruct (errorCount (p_errors p)) eqn:Hc; [lia|].
    simpl. apply andb_false_r.
Qed.

(** C5.  When [JSON.parse] raises, the validator returns instead of
    raising: the result holds one diagnostic, of level error, whose
    message ends with the message of the parse failure; no record is
    counted or accepted and the result is invalid.  Nothing else is
    evaluated: the result is this one whatever the clock reads.  The
    twin [validateJson] returns the same result and hands it to its
    callback once. *)
Theorem C5_unparseable_input (content : string) (e : Thrown) :
  JSON_parse content = Throw e ->
  let r := validateJsonContent clock content in
  let detail := match e with
                | ErrorObject m => m
                | OtherValue => "Unknown parsing error"
                end in
  (exists d, errors r = [d] /\ type d = t_error
             /\ message d = ("JSON parsing failed: " ++ detail)%string)
  /\ totalConcepts r = 0
  /\ validConcepts r = []
  /\ isValid r = false
  /\ validateJson clock content = (r, [r]).
Proof.
  intros Hparse. unfold validateJson, validateJsonContent. rewrite Hparse. simpl.
  repeat split.
  exists (parsingFailed e). repeat split.
Qed.

(** C6.  On the empty array the validator returns an invalid result
    with no accepted record and a count of 0, whose only diagnostic has
    level warning. *)
Theorem C6_empty_batch :
  let r := validateParsed clock (JArr []) in
  isValid r = false
  /\ validConcepts r = []
  /\ totalConcepts r = 0
  /\ (exists d, errors r = [d] /\ type d = t_warning
                /\ message d = "The file contains no concepts to import")
  /\ forall content : string,
      JSON_parse content = Normal (JArr []) ->
      validateJsonContent clock content = r.
Proof.
  simpl. repeat split.
  - exists noConcepts. repeat split.
  - intros content Hparse. unfold validateJsonContent. now rewrite Hparse.
Qed.

End Results.

Section RequiredFields.

Context {engine : Engine}.
Variable clock : Clock.

Lemma filter_elsewhere (i : nat) (f : string) (l : list ValidationError) :
  Forall (elsewhere i) l -> filter (aboutField i f) l = [].
Proof.
  induction 1 as [|e l He _ IH]; simpl; [reflexivity|].
  rewrite IH. unfold aboutField, elsewhere in *.
  destruct (conceptIndex e) as [j|]; simpl.
  - destruct (Nat.eqb_spec j i) as [->|_]; [congruence|].
    now rewrite andb_false_r.
  - now rewrite andb_false_r.
Qed.

Lemma filter_warnings (i : nat) (f : string) (l : list ValidationError) :
  Forall (fun e => type e = t_warning) l -> filter (aboutField i f) l = [].
Proof.
  induction 1 as [|e l He _ IH]; simpl; [reflexivity|].
  rewrite IH. unfold aboutField. now rewrite He.
Qed.

Lemma filter_required (i : nat) (c : json) (f f' : string) :
  filter (aboutField i f) (checkRequiredField i c f')
  = if String.eqb f' f then checkRequiredField i c f' else [].
Proof.
  unfold checkRequiredField.
  assert (Hone : forall e, type e = t_error -> field e = Some f' ->
                           conceptIndex e = Some i ->
                           filter (aboutField i f) [e]
                           = if String.eqb f' f then [e] else []).
  { intros e Ht Hf Hi. simpl. unfold aboutField. rewrite Ht, Hf, Hi. simpl.
    rewrite Nat.eqb_refl, andb_true_r. now destruct (String.eqb f' f). }
  destruct (negb (truthy (get f' c))); [now apply Hone|].
  destruct (get f' c) as [[| | |s| |]|]; try (now apply Hone).
  destruct (String.eqb (trim s) EmptyString); [now apply Hone|].
  now destruct (String.eqb f' f).
Qed.

Lemma filter_requiredFields (i : nat) (c : json) (f : string) :
  In f requiredFields ->
  filter (aboutField i f) (checkRequiredFields i c) = checkRequiredField i c f.
Proof.
  unfold checkRequiredFields, requiredFields. intros Hin. simpl flat_map.
  rewrite !filter_app, !filter_required. simpl filter.
  simpl in Hin.
  destruct Hin as [<-|[<-|[<-|[<-|[]]]]]; simpl; now rewrite ?app_nil_r.
Qed.

Lemma filter_topicID (i : nat) (c : json) (f : string) :
  In f requiredFields -> filter (aboutField i f) (checkTopicID i c) = [].
Proof.
  intros Hin. unfold checkTopicID.
  assert (He : aboutField i f (topicIDNotNumber i) = false).
  { simpl in Hin. destruct Hin as [<-|[<-|[<-|[<-|[]]]]]; reflexivity. }
  destruct (get "topicID" c) as [[| | | | |]|]; simpl; now rewrite ?He.
Qed.

Lemma filter_conceptErrors (i : nat) (c : json) (f : string) (seen : list string) :
  In f requiredFields ->
  filter (aboutField i f) (fst (conceptErrorsOf i c seen))
  = checkRequiredField i c f.
Proof.
  intros Hin. unfold conceptErrorsOf.
  pose proof (checkDuplicateTitle_warnings i c seen) as Hd.
  destruct (checkDuplicateTitle i c seen) as [dup seen']. simpl in *.
  rewrite !filter_app.
  rewrite filter_requiredFields, filter_topicID by assumption.
  rewrite (filter_warnings i f _ (checkUnknownFields_warnings i c)).
  rewrite (filter_warnings i f _ Hd).
  now rewrite !app_nil_r.
Qed.

Lemma in_range_elsewhere (lo n i : nat) (l : list ValidationError) :
  i < lo \/ lo + n <= i ->
  Forall (in_range lo n) l -> Forall (elsewhere i) l.
Proof.
  intros Hout. apply Forall_impl. intros e [j [Hj Hr]].
  unfold elsewhere. rewrite Hj. intros [= ->]. lia.
Qed.

(** The diagnostics of a batch, around those of the record the loop
    reaches at the end of [l1]. *)
Lemma forEach_at (l1 : list json) (c : json) (l2 : list json) :
  let i := List.length l1 in
  let run1 := forEach clock 0 l1 start in
  snd run1 = None ->
  isRecord c = true ->
  exists before after,
    p_errors (fst (forEach clock 0 (l1 ++ c :: l2) start))
    = before ++ fst (conceptErrorsOf i c (p_seenTitles (fst run1))) ++ after
    /\ Forall (elsewhere i) before
    /\ Forall (elsewhere i) after.
Proof.
  intros i run1 Hrun Hrec. subst run1.
  rewrite forEach_app.
  destruct (forEach_errors clock l1 0 start) as [a1 [E1 F1]].
  destruct (forEach clock 0 l1 start) as [p1 [e|]]; simpl in *; [discriminate|].
  fold i.
  rewrite validateConcept_record by assumption. cbv zeta.
  set (ce := fst (conceptErrorsOf i c (p_seenTitles p1))).
  set (seen' := snd (conceptErrorsOf i c (p_seenTitles p1))).
  assert (Hbefore : Forall (elsewhere i) a1).
  { apply (in_range_elsewhere 0 i); [right; lia | exact F1]. }
  assert (Hgo : forall valid,
             exists after,
               p_errors (fst (forEach clock (S i) l2
                                      (mkProgress (p_errors p1 ++ ce) valid seen')))
               = a1 ++ ce ++ after
               /\ Forall (elsewhere i) after).
  { intros valid.
    destruct (forEach_errors clock l2 (S i) (mkProgress (p_errors p1 ++ ce) valid seen'))
      as [a3 [E3 F3]].
    exists a3. split.
    - rewrite E3. simpl. rewrite E1. now rewrite app_assoc.
    - apply (in_range_elsewhere (S i) (List.length l2)); [left; lia | exact F3]. }
  exists a1.
  destruct (negb (hasCriticalErrors ce)).
  - destruct (buildConcept clock i c) as [k|e].
    + destruct (Hgo (p_validConcepts p1 ++ [k])) as [after [Ea Fa]].
      exists after. auto.
    + exists []. simpl. rewrite E1, app_nil_r. auto.
  - destruct (Hgo (p_validConcepts p1)) as [after [Ea Fa]].
    exists after. auto.
Qed.

Lemma resultOf_errors (n : nat) (run : Progress * option Thrown) :
  exists tail,
    errors (resultOf n run) = p_errors (fst run) ++ tail
    /\ Forall (fun e => conceptIndex e = None) tail.
Proof.
  destruct run as [p [e|]]; simpl.
  - exists [unexpected e]. split; [reflexivity | repeat constructor].
  - destruct (_ && _).
    + eexists. split; [reflexivity | repeat constructor].
    + exists []. split; [now rewrite app_nil_r | constructor].
Qed.

Lemma split_at (items : list json) (i : nat) (c : json) :
  nth_error items i = Some c ->
  exists l1 l2,
    items = l1 ++ c :: l2 /\ List.length l1 = i /\ firstn i items = l1.
Proof.
  intros Hnth. destruct (nth_error_split items i Hnth) as [l1 [l2 [E L]]].
  exists l1, l2. repeat split; try assumption.
  subst i. rewrite E.
  rewrite firstn_app, Nat.sub_diag, firstn_all. simpl. now rewrite app_nil_r.
Qed.

(** C2, as amended.  Take a batch, a record of it that the loop reaches
    (an object or an array entry) and a required field.  The
    error-level diagnostics of the result that name this field and this
    record are exactly what the field check pushed, and that is: the
    'missing' diagnostic when the value of the field is falsy (absent,
    [null], [false], zero or the empty string); the 'must be a string'
    diagnostic when it is truthy and not a string; the 'cannot be
    empty' diagnostic when it is a non-empty string that trims to the
    empty string; nothing when it is a string that is not blank. *)
Theorem C2_required_field_diagnostic
  (items : list json) (i : nat) (c : json) (f : string) :
  In f requiredFields ->
  nth_error items i = Some c ->
  isRecord c = true ->
  snd (forEach clock 0 (firstn i items) start) = None ->
  filter (aboutField i f) (errors (validateParsed clock (JArr items)))
  = checkRequiredField i c f
  /\ (truthy (get f c) = false ->
      checkRequiredField i c f = [missingField i f])
  /\ (truthy (get f c) = true -> isType t_string (get f c) = false ->
      checkRequiredField i c f = [notAString i f])
  /\ (forall s, get f c = Some (JStr s) -> s <> EmptyString ->
                trim s = EmptyString ->
                checkRequiredField i c f = [emptyField i f])
  /\ (forall s, get f c = Some (JStr s) -> trim s <> EmptyString ->
                checkRequiredField i c f = []).
Proof.
  intros Hin Hnth Hrec Hreach. split; [|repeat split].
  - destruct (split_at items i c Hnth) as [l1 [l2 [E [L Hfirst]]]].
    assert (Hne : items <> []) by (intros ->; destruct i; discriminate).
    rewrite validateParsed_array by assumption.
    destruct (resultOf_errors (List.length items) (forEach clock 0 items start))
      as [tail [Et Ft]].
    rewrite Et. rewrite Hfirst in Hreach. clear Hfirst Et Hne Hnth.
    subst items i.
    destruct (forEach_at l1 c l2 Hreach Hrec) as [before [after [Eb [Fb Fa]]]].
    rewrite Eb. rewrite !filter_app.
    rewrite filter_conceptErrors by assumption.
    rewrite (filter_elsewhere _ f before Fb), (filter_elsewhere _ f after Fa).
    rewrite (filter_elsewhere (List.length l1) f tail).
    + simpl. now rewrite !app_nil_r.
    + eapply Forall_impl; [|exact Ft]. unfold elsewhere. intros e ->. discriminate.
  - intros Hfalsy. unfold checkRequiredField. now rewrite Hfalsy.
  - intros Htruthy Hnot. unfold checkRequiredField. rewrite Htruthy. simpl.
    destruct (get f c) as [[| | |s| |]|]; try reflexivity. discriminate Hnot.
  - intros s Hget Hs Htrim. unfold checkRequiredField. rewrite Hget. simpl.
    destruct (String.eqb_spec s EmptyString) as [->|_]; [congruence|]. simpl.
    now rewrite Htrim.
  - intros s Hget Htrim. unfold checkRequiredField. rewrite Hget. simpl.
    destruct (String.eqb_spec s EmptyString) as [->|_].
    + exfalso. apply Htrim. reflexivity.
    + simpl. destruct (String.eqb_spec (trim s) EmptyString); [contradiction | reflexivity].
Qed.

End RequiredFields.

Section Duplicates.

Context {engine : Engine}.
Variable clock : Clock.

Lemma titleKey_record (c : json) (key : string) :
  titleKey c = Some key -> isRecord c = true.
Proof. destruct c; try discriminate; reflexivity. Qed.

Lemma checkDuplicateTitle_keeps (i : nat) (c : json) (seen : list string) (key : string) :
  In key seen -> In key (snd (checkDuplicateTitle i c seen)).
Proof.
  intros Hin. unfold checkDuplicateTitle.
  destruct (get "title" c) as [[| | |t| |]|]; simpl; try assumption.
  destruct (negb _); simpl; [|assumption].
  destruct (includesString _ _); simpl; [assumption|].
  apply in_or_app. now left.
Qed.

Lemma checkDuplicateTitle_adds (i : nat) (c : json) (seen : list string) (key : string) :
  titleKey c = Some key -> In key (snd (checkDuplicateTitle i c seen)).
Proof.
  unfold titleKey, checkDuplicateTitle.
  destruct (get "title" c) as [[| | |t| |]|]; try discriminate.
  simpl. destruct (String.eqb t EmptyString); [discriminate|].
  intros [= <-]. simpl.
  destruct (includesString seen (trim (toLowerCase t))) eqn:Hs; simpl.
  - now apply includesString_In.
  - apply in_or_app. right. now left.
Qed.


Lemma conceptErrorsOf_seen (i : nat) (c : json) (seen : list string) :
  snd (conceptErrorsOf i c seen) = snd (checkDuplicateTitle i c seen).
Proof.
  unfold conceptErrorsOf. now destruct (checkDuplicateTitle i c seen).
Qed.


Lemma validateConcept_seen (i : nat) (c : json) (p : Progress) :
  p_seenTitles (fst (validateConcept clock i c p))
  = if isRecord c then snd (checkDuplicateTitle i c (p_seenTitles p))
    else p_seenTitles p.
Proof.
  destruct (isRecord c) eqn:Hrec.
  - rewrite validateConcept_record by assumption. cbv zeta.
    rewrite conceptErrorsOf_seen.
    destruct (negb _); [destruct (buildConcept clock i c)|]; reflexivity.
  - now rewrite validateConcept_not_record by assumption.
Qed.

Lemma validateConcept_keeps (i : nat) (c : json) (p : Progress) (key : string) :
  In key (p_seenTitles p) ->
  In key (p_seenTitles (fst (validateConcept clock i c p))).
Proof.
  intros Hin. rewrite validateConcept_seen.
  destruct (isRecord c); [now apply checkDuplicateTitle_keeps | assumption].
Qed.

Lemma forEach_keeps (l : list json) :
  forall (i : nat) (p : Progress) (key : string),
    In key (p_seenTitles p) ->
    In key (p_seenTitles (fst (forEach clock i l p))).
Proof.
  induction l as [|c rest IH]; intros i p key Hin; simpl; [assumption|].
  pose proof (validateConcept_keeps i c p key Hin) as H1.
  destruct (validateConcept clock i c p) as [p1 [e|]]; simpl in *; [assumption|].
  now apply IH.
Qed.

(** Once the loop has passed a record, the key of its title is in
    [seenTitles]. *)
Lemma forEach_seen (l : list json) :
  forall (i : nat) (p : Progress) (k : nat) (c : json) (key : string),
    snd (forEach clock i l p) = None ->
    nth_error l k = Some c ->
    titleKey c = Some key ->
    In key (p_seenTitles (fst (forEach clock i l p))).
Proof.
  induction l as [|c0 rest IH]; intros i p k c key Hrun Hnth Hkey.
  - destruct k; discriminate.
  - simpl in *.
    pose proof (validateConcept_seen i c0 p) as Hs.
    destruct (validateConcept clock i c0 p) as [p1 [e|]]; simpl in *; [discriminate|].
    destruct k as [|k]; simpl in Hnth.
    + injection Hnth as ->. apply forEach_keeps. rewrite Hs.
      rewrite (titleKey_record c key Hkey).
      now apply checkDuplicateTitle_adds.
    + now apply (IH (S i) p1 k c key).
Qed.




End Duplicates.

Section Clocks.

Context {engine : Engine}.
Variables clock1 clock2 : Clock.
Variable v : Concept -> Concept.

Lemma validateConcept_view (i : nat) (c : json) (p1 p2 : Progress) :
  agree clock1 clock2 v c ->
  viewProgress v p1 = viewProgress v p2 ->
  viewProgress v (fst (validateConcept clock1 i c p1))
  = viewProgress v (fst (validateConcept clock2 i c p2))
  /\ snd (validateConcept clock1 i c p1) = snd (validateConcept clock2 i c p2).
Proof.
  intros Hagree Hp. specialize (Hagree i).
  unfold viewProgress in Hp. injection Hp as He Hv Hs.
  destruct (isRecord c) eqn:Hrec.
  - rewrite !validateConcept_record by assumption. cbv zeta.
    rewrite <- He, <- Hs.
    destruct (negb (hasCriticalErrors _)).
    + destruct (buildConcept clock1 i c) as [k1|e1],
               (buildConcept clock2 i c) as [k2|e2];
        simpl in Hagree; try discriminate; injection Hagree as Hk;
        unfold viewProgress; simpl; rewrite ?map_app; simpl;
        rewrite ?Hv, ?Hk; split; reflexivity.
    + unfold viewProgress. simpl. rewrite Hv. split; reflexivity.
  - rewrite !validateConcept_not_record by assumption.
    unfold viewProgress. simpl. rewrite He, Hv, Hs. split; reflexivity.
Qed.

Lemma forEach_view (l : list json) :
  forall (i : nat) (p1 p2 : Progress),
    Forall (agree clock1 clock2 v) l ->
    viewProgress v p1 = viewProgress v p2 ->
    viewProgress v (fst (forEach clock1 i l p1))
    = viewProgress v (fst (forEach clock2 i l p2))
    /\ snd (forEach clock1 i l p1) = snd (forEach clock2 i l p2).
Proof.
  induction l as [|c rest IH]; intros i p1 p2 Hall Hp; simpl.
  - split; [assumption | reflexivity].
  - inversion Hall as [|? ? Hc Hrest]; subst.
    destruct (validateConcept_view i c p1 p2 Hc Hp) as [Hq Hr].
    destruct (validateConcept clock1 i c p1) as [q1 [e1|]],
             (validateConcept clock2 i c p2) as [q2 [e2|]];
      simpl in *; try discriminate.
    + split; assumption.
    + now apply IH.
Qed.

Lemma resultOf_view (n : nat) (p1 p2 : Progress) (r : option Thrown) :
  viewProgress v p1 = viewProgress v p2 ->
  viewResult v (resultOf n (p1, r)) = viewResult v (resultOf n (p2, r)).
Proof.
  intros Hp. unfold viewProgress in Hp. injection Hp as He Hv Hs.
  assert (Hl : List.length (p_validConcepts p1) = List.length (p_validConcepts p2)).
  { rewrite <- (length_map v (p_validConcepts p1)), Hv. apply length_map. }
  destruct r as [e|]; unfold viewResult; simpl.
  - now rewrite He.
  - now rewrite He, Hv, Hl.
Qed.

Lemma validateParsed_view (parsedData : json) :
  (forall items, parsedData = JArr items -> Forall (agree clock1 clock2 v) items) ->
  viewResult v (validateParsed clock1 parsedData)
  = viewResult v (validateParsed clock2 parsedData).
Proof.
  intros Hall.
  destruct parsedData as [|b|q|s|items|fields]; try reflexivity.
  destruct items as [|c rest]; [reflexivity|].
  rewrite !validateParsed_records.
  destruct (forEach_view (c :: rest) 0 start start (Hall _ eq_refl) eq_refl)
    as [Hq Hr].
  destruct (forEach clock1 0 (c :: rest) start) as [q1 r1],
           (forEach clock2 0 (c :: rest) start) as [q2 r2].
  simpl in Hq, Hr. subst r2. now apply resultOf_view.
Qed.

End Clocks.

Section Determinism.

Context {engine : Engine}.

Lemma viewResult_id (r : ValidationResult) : viewResult (fun c => c) r = r.
Proof. destruct r. unfold viewResult. simpl. now rewrite map_id. Qed.

Lemma dateOrNow_cases (f : string) (i : nat) (st : Stamp) (c : json) :
  (truthy (get f c) = true
   /\ exists d, forall clock, dateOrNow clock f i st c = d)
  \/ (truthy (get f c) = false
      /\ forall clock, dateOrNow clock f i st c = Normal (ValidDate (clock i st))).
Proof.
  unfold dateOrNow. destruct (get f c) as [x|].
  - destruct (truthy (Some x)); [left | right]; split; eauto.
  - right. split; [reflexivity | auto].
Qed.

Ltac step_trimmed :=
  match goal with
  | |- context [bind (trimmedOrEmpty ?f ?c) _] =>
      destruct (trimmedOrEmpty f c); simpl; [|reflexivity]
  end.

(** Up to the timestamps, the record built does not depend on the
    clock. *)
Lemma agree_withoutDates (clock1 clock2 : Clock) (c : json) :
  agree clock1 clock2 eraseDates c.
Proof.
  intros i. unfold buildConcept.
  repeat step_trimmed.
  destruct (dateOrNow_cases "createdAt" i CreatedAt c) as [[_ [d1 H1]]|[_ H1]];
    rewrite (H1 clock1), (H1 clock2);
    try (destruct d1; simpl; [|reflexivity]);
    (destruct (dateOrNow_cases "updatedAt" i UpdatedAt c) as [[_ [d2 H2]]|[_ H2]];
     rewrite (H2 clock1), (H2 clock2);
     try (destruct d2; simpl; [|reflexivity]); reflexivity).
Qed.

(** A record that carries both timestamps is built without reading the
    clock. *)
Lemma agree_stamped (clock1 clock2 : Clock) (c : json) :
  stamped c = true -> agree clock1 clock2 (fun k => k) c.
Proof.
  unfold stamped. intros H i. apply andb_prop in H. destruct H as [Hc Hu].
  unfold buildConcept.
  destruct (dateOrNow_cases "createdAt" i CreatedAt c) as [[_ [d1 H1]]|[H1 _]];
    [|congruence].
  destruct (dateOrNow_cases "updatedAt" i UpdatedAt c) as [[_ [d2 H2]]|[H2 _]];
    [|congruence].
  now rewrite (H1 clock1), (H1 clock2), (H2 clock1), (H2 clock2).
Qed.

Lemma agree_same_readings (clock1 clock2 : Clock) (c : json) :
  (forall i st, clock1 i st = clock2 i st) -> agree clock1 clock2 (fun k => k) c.
Proof.
  intros Hsame i. unfold buildConcept.
  assert (Hd : forall f st, dateOrNow clock1 f i st c = dateOrNow clock2 f i st c).
  { intros f st. unfold dateOrNow. now rewrite Hsame. }
  now rewrite !Hd.
Qed.

(** C4, as amended.  Two runs of the validator on the same text give
    results that are identical once the timestamps of the accepted
    records are left out: same flag, same diagnostics, same count, same
    records field by field.  They are identical, timestamps included,
    when the clock gives the same readings to both runs, and when every
    record of the batch carries its own [createdAt] and [updatedAt]. *)
Theorem C4_deterministic_up_to_clock (clock1 clock2 : Clock) (content : string) :
  withoutDates (validateJsonContent clock1 content)
  = withoutDates (validateJsonContent clock2 content)
  /\ ((forall i st, clock1 i st = clock2 i st) ->
      validateJsonContent clock1 content = validateJsonContent clock2 content)
  /\ (forall items,
         JSON_parse content = Normal (JArr items) ->
         Forall (fun c => stamped c = true) items ->
         validateJsonContent clock1 content = validateJsonContent clock2 content).
Proof.
  unfold validateJsonContent, withoutDates.
  destruct (JSON_parse content) as [parsedData|e].
  - split; [|split].
    + apply validateParsed_view. intros items _.
      apply Forall_forall. intros c _. apply agree_withoutDates.
    + intros Hsame.
      rewrite <- (viewResult_id (validateParsed clock1 parsedData)),
              <- (viewResult_id (validateParsed clock2 parsedData)).
      apply validateParsed_view. intros items _.
      apply Forall_forall. intros c _. now apply agree_same_readings.
    + intros items [= ->] Hall.
      rewrite <- (viewResult_id (validateParsed clock1 (JArr items))),
              <- (viewResult_id (validateParsed clock2 (JArr items))).
      apply validateParsed_view. intros items' [= <-].
      eapply Forall_impl; [|exact Hall]. intros c Hc. now apply agree_stamped.
  - split; [reflexivity | split; [reflexivity | discriminate]].
Qed.

End Determinism.

End ValidatorFacts.

(* ================================================================== *)
(** ** Facts about the settings panel *)

Module SettingsFacts.

Import JSString Settings.

Lemma has_titleSet (existing : list Concept) (c : Concept) :
  has (titleSet existing) (toLowerCase (title c)) = matchesExisting existing c.
Proof.
  unfold has, titleSet, matchesExisting.
  induction existing as [|e rest IH]; simpl; [reflexivity|].
  rewrite IH. f_equal. apply String.eqb_sym.
Qed.

Lemma has_app (s1 s2 : list string) (x : string) :
  has (s1 ++ s2) x = has s1 x || has s2 x.
Proof. unfold has. apply existsb_app. Qed.

Lemma has_own_title (cs : list Concept) (c : Concept) :
  In c cs -> has (titleSet cs) (toLowerCase (title c)) = true.
Proof.
  intros Hin. unfold has, titleSet. apply existsb_exists.
  exists (toLowerCase (title c)). split; [|apply String.eqb_refl].
  apply in_map_iff. now exists c.
Qed.

Lemma filter_none {A : Type} (f : A -> bool) (l : list A) :
  (forall x, In x l -> f x = false) -> filter f l = [].
Proof.
  induction l as [|x l IH]; intros H; simpl; [reflexivity|].
  rewrite (H x (or_introl eq_refl)). apply IH. intros y Hy. apply H. now right.
Qed.

(** Nothing of [incoming] is new once it has been merged. *)
Lemma newConceptsOf_merged (existing incoming : list Concept) :
  newConceptsOf (mergeConcepts existing incoming) incoming = [].
Proof.
  unfold newConceptsOf at 1. apply filter_none. intros c Hin.
  unfold mergeConcepts, titleSet. rewrite map_app. fold (titleSet existing).
  fold (titleSet (newConceptsOf existing incoming)). rewrite has_app.
  destruct (has (titleSet existing) (toLowerCase (title c))) eqn:He; [reflexivity|].
  simpl. rewrite has_own_title; [reflexivity|].
  unfold newConceptsOf. apply filter_In. split; [assumption|]. now rewrite He.
Qed.

Section Handlers.

Context {browser : Browser}.

(** C3.  The merge of an import into the existing records has the
    length of the existing set plus the number of incoming records
    whose title matches, up to case, no existing title; it starts with
    the existing records, unchanged and in place, followed by exactly
    those incoming records; merging the same incoming set again changes
    nothing.  This merge is what [handleValidatedImport] hands to
    [onConceptsChange] when the staged validation result is valid. *)
Theorem C3_additive_merge (existing incoming : list Concept) :
  let merged := mergeConcepts existing incoming in
  let fresh := filter (fun c => negb (matchesExisting existing c)) incoming in
  List.length merged = List.length existing + List.length fresh
  /\ merged = existing ++ fresh
  /\ firstn (List.length existing) merged = existing
  /\ mergeConcepts merged incoming = merged
  /\ (forall (st : AppState) (vr : ValidationResult),
         concepts st = existing ->
         validationResult st = Some vr ->
         isValid vr = true ->
         validConcepts vr = incoming ->
         incoming <> [] ->
         concepts (handleValidatedImport st) = merged).
Proof.
  cbv zeta.
  assert (Hfresh : newConceptsOf existing incoming
                   = filter (fun c => negb (matchesExisting existing c)) incoming).
  { unfold newConceptsOf. apply filter_ext. intros c. now rewrite has_titleSet. }
  repeat split.
  - unfold mergeConcepts. now rewrite length_app, Hfresh.
  - unfold mergeConcepts. now rewrite Hfresh.
  - unfold mergeConcepts.
    rewrite firstn_app, Nat.sub_diag, firstn_all. simpl. apply app_nil_r.
  - unfold mergeConcepts at 1. rewrite newConceptsOf_merged. apply app_nil_r.
  - intros st vr Hc Hv Hvalid Hin Hne. unfold handleValidatedImport.
    rewrite Hv, Hvalid, Hin, Hc.
    assert (Hg : negb true || Nat.eqb (List.length incoming) 0 = false).
    { destruct incoming; [congruence | reflexivity]. }
    rewrite Hg. cbv zeta. unfold mergeConcepts.
    destruct (setItem (existing ++ newConceptsOf existing incoming));
      reflexivity.
Qed.

(** C8.  With no local record, the push reports "Nothing to sync" as a
    destructive toast and returns: no request is sent, and the records,
    the cache and the rest of the state are as before. *)
Theorem C8_push_nothing (st : AppState) :
  concepts st = [] ->
  let st' := handleSyncToDatabase st in
  st' = toast nothingToSync st
  /\ toast_title nothingToSync = "Nothing to sync"
  /\ toast_variant nothingToSync = v_destructive
  /\ requests st' = requests st
  /\ concepts st' = concepts st
  /\ localStorage st' = localStorage st
  /\ isLoading st' = isLoading st.
Proof.
  intros Hempty.
  assert (Hrun : handleSyncToDatabase st = toast nothingToSync st).
  { unfold handleSyncToDatabase. now rewrite Hempty. }
  cbv zeta. rewrite Hrun. repeat split.
Qed.

Lemma handleSyncFromDatabase_local (st : AppState) :
  let st' := handleSyncFromDatabase st in
  (concepts st' = concepts st /\ localStorage st' = localStorage st)
  \/ (exists result cs,
         fetch SyncGET = Normal result
         /\ res_success result = true
         /\ res_concepts result = Some cs
         /\ cs <> []
         /\ concepts st' = cs
         /\ (localStorage st' = Some cs \/ localStorage st' = localStorage st)).
Proof.
  unfold handleSyncFromDatabase.
  destruct (fetch SyncGET) as [result|e] eqn:Hf; simpl; [|now left].
  unfold applyRemote.
  destruct (res_success result) eqn:Hs; [|now left].
  destruct (res_concepts result) as [[|c cs]|] eqn:Hc; simpl; try (now left).
  right. exists result, (c :: cs).
  repeat split; try assumption; try discriminate.
  - destruct (setItem (c :: cs)); reflexivity.
  - destruct (setItem (c :: cs)); simpl; auto.
Qed.

(** C9.  When the fetch succeeds and the remote set is empty, the pull
    leaves the records and the cache as they were and reports "No data
    found" as a plain toast, which no failure produces: failures are
    reported as destructive "Sync failed" toasts.  In every run of the
    pull, the records and the cache are unchanged unless the remote set
    is non-empty, in which case it becomes the local records. *)
Theorem C9_pull_empty_remote (st : AppState) (result : SyncResult) :
  fetch SyncGET = Normal result ->
  res_success result = true ->
  res_concepts result = None \/ res_concepts result = Some [] ->
  let st' := handleSyncFromDatabase st in
  concepts st' = concepts st
  /\ localStorage st' = localStorage st
  /\ toasts st' = toasts st ++ [noDataFound]
  /\ toast_variant noDataFound = v_default
  /\ (forall fallback e, syncFailed fallback e <> noDataFound
                         /\ toast_variant (syncFailed fallback e) = v_destructive)
  /\ (forall st0 : AppState,
         let st1 := handleSyncFromDatabase st0 in
         (concepts st1 = concepts st0 /\ localStorage st1 = localStorage st0)
         \/ (exists r cs,
                fetch SyncGET = Normal r
                /\ res_success r = true
                /\ res_concepts r = Some cs
                /\ cs <> []
                /\ concepts st1 = cs
                /\ (localStorage st1 = Some cs
                    \/ localStorage st1 = localStorage st0))).
Proof.
  intros Hf Hs Hc. cbv zeta.
  assert (Hrun : handleSyncFromDatabase st
                 = setLoading syncFromDone (toast noDataFound (logRequest SyncGET st))).
  { unfold handleSyncFromDatabase. rewrite Hf. simpl. unfold applyRemote.
    rewrite Hs. destruct Hc as [-> | ->]; reflexivity. }
  rewrite Hrun. simpl. repeat split.
  - discriminate.
  - apply handleSyncFromDatabase_local.
Qed.

End Handlers.

End SettingsFacts.

(* ================================================================== *)
(** ** Facts about the sync route *)

Module SyncRouteFacts.

Import JSString JS SyncRoute.

Section Route.

Context {server : Server}.

Lemma checkFields_present (i : nat) (c : json) (fields : list string) :
  existsb (fun f => negb (truthy (get f c))) fields = false ->
  checkFields i c fields = None.
Proof.
  induction fields as [|f rest IH]; simpl; [reflexivity|].
  destruct (negb (truthy (get f c))); simpl; [discriminate | exact IH].
Qed.

Lemma checkFields_missing (i : nat) (c : json) (fields : list string) :
  existsb (fun f => negb (truthy (get f c))) fields = true ->
  exists f, checkFields i c fields = Some (missingRequired i f).
Proof.
  induction fields as [|f rest IH]; simpl; [discriminate|].
  destruct (negb (truthy (get f c))); simpl; [eauto | exact IH].
Qed.

Lemma checkConcepts_step (i : nat) (c : json) (rest : list json) :
  isNull c = false ->
  checkConcepts i (c :: rest)
  = match checkFields i c requiredFields with
    | Some r => Rejected r
    | None => checkConcepts (S i) rest
    end.
Proof. destruct c; [discriminate | reflexivity ..]. Qed.






End Route.

End SyncRouteFacts.

(* ================================================================== *)
(** ** The properties on concrete inputs *)

Module Examples.

Import JSString JS Validator Samples.

Lemma C1_witness :
  let good := [wholesome] in
  let bad := [wholesome; onlyTitle] in
  (good <> []
   /\ Forall (fun c => wellFormed c = true) good
   /\ isValid (validateParsed (clockAt 0) (JArr good)) = true
   /\ List.length (validConcepts (validateParsed (clockAt 0) (JArr good)))
      = List.length good)
  /\ (nth_error bad 1 = Some onlyTitle
      /\ rejected 1 onlyTitle = true
      /\ isValid (validateParsed (clockAt 0) (JArr bad)) = false).
Proof.
  cbv zeta.
  destruct (ValidatorFacts.C1_validity_gate (clockAt 0)) as [_ [_ [Hgood [Hbad _]]]].
  assert (H1 : [wholesome] <> []) by discriminate.
  assert (H2 : Forall (fun c => wellFormed c = true) [wholesome])
    by (repeat constructor).
  assert (H3 : nth_error [wholesome; onlyTitle] 1 = Some onlyTitle) by reflexivity.
  assert (H4 : rejected 1 onlyTitle = true) by reflexivity.
  split.
  - destruct (Hgood [wholesome] H1 H2) as [Hv Hl].
    exact (conj H1 (conj H2 (conj Hv Hl))).
  - exact (conj H3 (conj H4 (Hbad [wholesome; onlyTitle] 1 onlyTitle H3 H4))).
Defined.

(** An empty title is reported as missing, not as empty, and a title
    that is the number 0 is reported as missing, not as having the wrong
    type.  A record that follows one on which the loop raised draws no
    diagnostic at all. *)
Lemma C2_counterexample :
  let r := validateParsed (clockAt 0) (JArr [emptyTitle; zeroTitle]) in
  let cut := validateParsed (clockAt 0) (JArr [numericOptional; onlyTitle]) in
  errors r = [missingField 0 "title"; missingField 1 "title"]
  /\ ~ In (emptyField 0 "title") (errors r)
  /\ ~ In (notAString 1 "title") (errors r)
  /\ errors cut
     = [unexpected (ErrorObject "concept.whyNeed?.trim is not a function")]
  /\ filter (aboutField 1 "topic") (errors cut) = [].
Proof.
  cbv zeta. split; [reflexivity|].
  split; [|split; [|split; reflexivity]];
    intros H; vm_compute in H; destruct H as [H|[H|[]]]; discriminate H.
Qed.

Lemma C2_witness :
  In "title" requiredFields
  /\ nth_error [blankTitle] 0 = Some blankTitle
  /\ isRecord blankTitle = true
  /\ snd (forEach (clockAt 0) 0 (firstn 0 [blankTitle]) start) = None
  /\ filter (aboutField 0 "title")
            (errors (validateParsed (clockAt 0) (JArr [blankTitle])))
     = [emptyField 0 "title"].
Proof.
  assert (H1 : In "title" requiredFields) by (left; reflexivity).
  assert (H2 : nth_error [blankTitle] 0 = Some blankTitle) by reflexivity.
  assert (H3 : isRecord blankTitle = true) by reflexivity.
  assert (H4 : snd (forEach (clockAt 0) 0 (firstn 0 [blankTitle]) start) = None)
    by reflexivity.
  destruct (ValidatorFacts.C2_required_field_diagnostic
              (clockAt 0) [blankTitle] 0 blankTitle "title" H1 H2 H3 H4)
    as [Hfilter [_ [_ [Hblank _]]]].
  assert (H5 : get "title" blankTitle = Some (JStr "  ")) by reflexivity.
  assert (H6 : "  " <> EmptyString) by discriminate.
  assert (H7 : trim "  " = EmptyString) by reflexivity.
  exact (conj H1 (conj H2 (conj H3 (conj H4
           (eq_trans Hfilter (Hblank "  " H5 H6 H7)))))).
Defined.

(** Two runs on the same text, a millisecond apart, give records with
    different timestamps. *)
Lemma C4_counterexample :
  validateJsonContent (clockAt 0) singleText
  <> validateJsonContent (clockAt 1) singleText.
Proof. vm_compute. intros H. discriminate H. Qed.

Lemma C4_witness :
  withoutDates (validateJsonContent (clockAt 0) singleText)
  = withoutDates (validateJsonContent (clockAt 1) singleText)
  /\ (forall i st, clockAt 5 i st = clockAt 5 i st)
  /\ validateJsonContent (clockAt 5) singleText
     = validateJsonContent (clockAt 5) singleText
  /\ JSON_parse "[]" = Normal (JArr [])
  /\ Forall (fun c => stamped c = true) []
  /\ validateJsonContent (clockAt 0) "[]" = validateJsonContent (clockAt 1) "[]".
Proof.
  assert (H1 : forall i st, clockAt 5 i st = clockAt 5 i st) by reflexivity.
  assert (H2 : JSON_parse "[]" = Normal (JArr [])) by reflexivity.
  assert (H3 : Forall (fun c => stamped c = true) []) by constructor.
  destruct (ValidatorFacts.C4_deterministic_up_to_clock
              (clockAt 0) (clockAt 1) singleText) as [Ha _].
  destruct (ValidatorFacts.C4_deterministic_up_to_clock
              (clockAt 5) (clockAt 5) singleText) as [_ [Hb _]].
  destruct (ValidatorFacts.C4_deterministic_up_to_clock
              (clockAt 0) (clockAt 1) "[]") as [_ [_ Hc]].
  exact (conj Ha (conj H1 (conj (Hb H1) (conj H2 (conj H3 (Hc [] H2 H3)))))).
Defined.

Lemma C5_witness :
  JSON_parse "{" = Throw (ErrorObject "Unexpected end of JSON input")
  /\ errors (validateJsonContent (clockAt 0) "{")
     = [mkError t_error "JSON parsing failed: Unexpected end of JSON input"
                None None None]
  /\ totalConcepts (validateJsonContent (clockAt 0) "{") = 0
  /\ isValid (validateJsonContent (clockAt 0) "{") = false.
Proof.
  assert (H : JSON_parse "{" = Throw (ErrorObject "Unexpected end of JSON input"))
    by reflexivity.
  destruct (ValidatorFacts.C5_unparseable_input (clockAt 0) "{" _ H)
    as [_ [Ht [_ [Hv _]]]].
  exact (conj H (conj eq_refl (conj Ht Hv))).
Defined.

Lemma C6_witness :
  JSON_parse "[]" = Normal (JArr [])
  /\ validateJsonContent (clockAt 0) "[]" = mkResult false [noConcepts] [] 0.
Proof.
  assert (H : JSON_parse "[]" = Normal (JArr [])) by reflexivity.
  split; [exact H|].
  exact (proj2 (proj2 (proj2 (proj2 (ValidatorFacts.C6_empty_batch (clockAt 0)))))
           "[]" H).
Defined.


Import Settings.

Lemma C3_witness :
  concepts importing = [conceptOf "A"]
  /\ validationResult importing = Some staged
  /\ isValid staged = true
  /\ validConcepts staged = [conceptOf "a"; conceptOf "B"]
  /\ [conceptOf "a"; conceptOf "B"] <> []
  /\ concepts (handleValidatedImport importing) = [conceptOf "A"; conceptOf "B"].
Proof.
  assert (H1 : concepts importing = [conceptOf "A"]) by reflexivity.
  assert (H2 : validationResult importing = Some staged) by reflexivity.
  assert (H3 : isValid staged = true) by reflexivity.
  assert (H4 : validConcepts staged = [conceptOf "a"; conceptOf "B"]) by reflexivity.
  assert (H5 : [conceptOf "a"; conceptOf "B"] <> []) by discriminate.
  destruct (SettingsFacts.C3_additive_merge
              [conceptOf "A"] [conceptOf "a"; conceptOf "B"])
    as [_ [_ [_ [_ Hhandler]]]].
  exact (conj H1 (conj H2 (conj H3 (conj H4 (conj H5
           (Hhandler importing staged H1 H2 H3 H4 H5)))))).
Defined.

Lemma C8_witness :
  concepts (sampleState []) = []
  /\ handleSyncToDatabase (sampleState []) = toast nothingToSync (sampleState [])
  /\ requests (handleSyncToDatabase (sampleState [])) = [].
Proof.
  assert (H : concepts (sampleState []) = []) by reflexivity.
  destruct (SettingsFacts.C8_push_nothing (sampleState []) H)
    as [Hrun [_ [_ [Hreq _]]]].
  exact (conj H (conj Hrun Hreq)).
Defined.

Lemma C9_witness :
  fetch SyncGET = Normal emptyRemote
  /\ res_success emptyRemote = true
  /\ (res_concepts emptyRemote = None \/ res_concepts emptyRemote = Some [])
  /\ concepts (handleSyncFromDatabase (sampleState [conceptOf "A"])) = [conceptOf "A"]
  /\ localStorage (handleSyncFromDatabase (sampleState [conceptOf "A"]))
     = Some [conceptOf "A"]
  /\ toasts (handleSyncFromDatabase (sampleState [conceptOf "A"])) = [noDataFound].
Proof.
  assert (H1 : fetch SyncGET = Normal emptyRemote) by reflexivity.
  assert (H2 : res_success emptyRemote = true) by reflexivity.
  assert (H3 : res_concepts emptyRemote = None \/ res_concepts emptyRemote = Some [])
    by (right; reflexivity).
  destruct (SettingsFacts.C9_pull_empty_remote
              (sampleState [conceptOf "A"]) emptyRemote H1 H2 H3)
    as [Hc [Hl [Ht _]]].
  exact (conj H1 (conj H2 (conj H3 (conj Hc (conj Hl Ht))))).
Defined.

Import SyncRoute.



End Examples.

(* ================================================================== *)
(** ** Facts about strings *)

Module StringFacts.

Import JSString Notions.

Lemma trimStart_head (s : string) :
  match trimStart s with
  | EmptyString => True
  | String c _ => isWhiteSpace c = false
  end.
Proof.
  induction s as [|c rest IH]; simpl; [exact I|].
  destruct (isWhiteSpace c) eqn:Hc; [exact IH | exact Hc].
Qed.

Lemma trimEnd_idem (s : string) : trimEnd (trimEnd s) = trimEnd s.
Proof.
  induction s as [|c rest IH]; simpl; [reflexivity|].
  destruct (trimEnd rest) as [|c' rest'] eqn:Hr.
  - destruct (isWhiteSpace c) eqn:Hc; simpl; [reflexivity | now rewrite Hc].
  - change (trimEnd (String c (String c' rest'))) with
      (match trimEnd (String c' rest') with
       | EmptyString => if isWhiteSpace c then EmptyString else String c EmptyString
       | r => String c r
       end).
    now rewrite IH.
Qed.

Lemma trimEnd_head (c : ascii) (rest : string) :
  isWhiteSpace c = false -> exists rest', trimEnd (String c rest) = String c rest'.
Proof.
  intros Hc. simpl. destruct (trimEnd rest); [rewrite Hc|]; eauto.
Qed.

(** Trimming twice is trimming once. *)
Lemma trim_idem (s : string) : trim (trim s) = trim s.
Proof.
  unfold trim. pose proof (trimStart_head s) as Hh.
  destruct (trimStart s) as [|c rest]; [reflexivity|].
  destruct (trimEnd_head c rest Hh) as [rest' Hr].
  rewrite Hr. simpl trimStart. rewrite Hh. rewrite <- Hr. apply trimEnd_idem.
Qed.

Lemma isWhiteSpace_lowerChar (c : ascii) :
  isWhiteSpace (lowerChar c) = isWhiteSpace c.
Proof. destruct c as [[] [] [] [] [] [] [] []]; reflexivity. Qed.

Lemma lowerChar_idem (c : ascii) : lowerChar (lowerChar c) = lowerChar c.
Proof. destruct c as [[] [] [] [] [] [] [] []]; reflexivity. Qed.

Lemma toLowerCase_idem (s : string) : toLowerCase (toLowerCase s) = toLowerCase s.
Proof.
  induction s as [|c rest IH]; simpl; [reflexivity|].
  now rewrite lowerChar_idem, IH.
Qed.

Lemma trimStart_lower (s : string) :
  trimStart (toLowerCase s) = toLowerCase (trimStart s).
Proof.
  induction s as [|c rest IH]; simpl; [reflexivity|].
  rewrite isWhiteSpace_lowerChar. now destruct (isWhiteSpace c).
Qed.

Lemma trimEnd_lower (s : string) :
  trimEnd (toLowerCase s) = toLowerCase (trimEnd s).
Proof.
  induction s as [|c rest IH]; simpl; [reflexivity|].
  rewrite IH, isWhiteSpace_lowerChar.
  destruct (trimEnd rest) as [|c' rest']; simpl; [|reflexivity].
  now destruct (isWhiteSpace c).
Qed.

(** Lower-casing and trimming commute. *)
Lemma trim_lower (s : string) : trim (toLowerCase s) = toLowerCase (trim s).
Proof. unfold trim. now rewrite trimStart_lower, trimEnd_lower. Qed.

Lemma toLowerCase_empty (s : string) :
  toLowerCase s = EmptyString <-> s = EmptyString.
Proof. destruct s; simpl; split; intros H; try reflexivity; discriminate. Qed.

Lemma prefix_occurs (a s : string) :
  String.prefix a s = true <-> exists after, s = (a ++ after)%string.
Proof.
  revert s. induction a as [|c a IH]; intros s.
  - split; [intros _; now exists s | intros _; now destruct s].
  - destruct s as [|d s]; simpl.
    + split; [discriminate | intros [after H]; discriminate].
    + destruct (Ascii.ascii_dec c d) as [->|Hne].
      * rewrite IH. split; intros [after H]; exists after.
        -- now rewrite H.
        -- now injection H.
      * split; [discriminate|]. intros [after H]. injection H as H1 _. congruence.
Qed.

(** [includes] decides occurrence. *)
Lemma includes_occurs (s sub : string) :
  includes s sub = true <-> occursIn sub s.
Proof.
  unfold occursIn. induction s as [|c rest IH].
  - change (includes EmptyString sub) with (String.prefix sub EmptyString || false).
    rewrite orb_false_r, prefix_occurs. split.
    + intros [after H]. now exists EmptyString, after.
    + intros [before [after H]]. destruct before; [now exists after | discriminate].
  - change (includes (String c rest) sub)
      with (String.prefix sub (String c rest) || includes rest sub).
    rewrite orb_true_iff, prefix_occurs, IH. split.
    + intros [[after H] | [before [after H]]].
      * now exists EmptyString, after.
      * exists (String c before), after. simpl. now rewrite H.
    + intros [before [after H]]. destruct before as [|d before].
      * left. now exists after.
      * right. simpl in H. injection H as _ H. now exists before, after.
Qed.

Lemma append_assoc (a b c : string) : ((a ++ b) ++ c = a ++ (b ++ c))%string.
Proof. induction a as [|x a IH]; simpl; [reflexivity | now rewrite IH]. Qed.

(** Occurrence is transitive. *)
Lemma includes_trans (s mid sub : string) :
  includes s mid = true -> includes mid sub = true -> includes s sub = true.
Proof.
  rewrite !includes_occurs. intros [b1 [a1 H1]] [b2 [a2 H2]].
  exists (b1 ++ b2)%string, (a2 ++ a1)%string. subst.
  now rewrite !append_assoc.
Qed.

Lemma includes_empty (sub : string) :
  includes EmptyString sub = true -> sub = EmptyString.
Proof.
  rewrite includes_occurs. intros [before [after H]].
  destruct before; [|discriminate]. destruct sub; [reflexivity | discriminate].
Qed.

End StringFacts.

(* ================================================================== *)
(** ** Further facts about the validator *)

Module ValidatorMore.

Import JSString JS Validator Notions ValidatorFacts StringFacts.

Lemma filter_atIndex_elsewhere (i : nat) (l : list ValidationError) :
  Forall (elsewhere i) l -> filter (atIndex i) l = [].
Proof.
  induction 1 as [|e l He _ IH]; simpl; [reflexivity|].
  rewrite IH. unfold atIndex, elsewhere, indexEqb in *.
  destruct (conceptIndex e) as [j|]; [|reflexivity].
  destruct (Nat.eqb_spec j i) as [->|_]; [congruence | reflexivity].
Qed.

Lemma filter_atIndex_own (i : nat) (l : list ValidationError) :
  Forall (at_index i) l -> filter (atIndex i) l = l.
Proof.
  induction 1 as [|e l He _ IH]; simpl; [reflexivity|].
  rewrite IH. unfold atIndex, at_index in *. rewrite He. simpl.
  now rewrite Nat.eqb_refl.
Qed.

Lemma ownDiagnostics_index (i : nat) (c : json) (seen : list string) :
  Forall (at_index i) (ownDiagnostics i c seen).
Proof.
  unfold ownDiagnostics. destruct (isRecord c).
  - apply conceptErrorsOf_index.
  - repeat constructor.
Qed.

Lemma checkRequiredFields_errors (i : nat) (c : json) :
  Forall (fun e => type e = t_error) (checkRequiredFields i c).
Proof.
  unfold checkRequiredFields. apply Forall_flat_map, Forall_forall.
  intros f _. unfold checkRequiredField.
  destruct (negb (truthy (get f c))); [repeat constructor|].
  destruct (get f c) as [[| | |s| |]|]; try (repeat constructor).
  destruct (String.eqb (trim s) EmptyString); repeat constructor.
Qed.

Lemma checkTopicID_errors (i : nat) (c : json) :
  Forall (fun e => type e = t_error) (checkTopicID i c).
Proof.
  unfold checkTopicID.
  destruct (get "topicID" c) as [[| | | | |]|]; repeat constructor.
Qed.

Lemma conceptErrorsOf_parts (i : nat) (c : json) (seen : list string) :
  fst (conceptErrorsOf i c seen)
  = checkRequiredFields i c ++ checkUnknownFields i c
    ++ fst (checkDuplicateTitle i c seen) ++ checkTopicID i c.
Proof.
  unfold conceptErrorsOf. now destruct (checkDuplicateTitle i c seen).
Qed.

Lemma ownDiagnostics_no_info (i : nat) (c : json) (seen : list string) :
  Forall (fun e => isInfoType (type e) = false) (ownDiagnostics i c seen).
Proof.
  unfold ownDiagnostics. destruct (isRecord c); [|repeat constructor].
  rewrite conceptErrorsOf_parts. rewrite !Forall_app. repeat split.
  - eapply Forall_impl; [|apply checkRequiredFields_errors]. now intros e ->.
  - eapply Forall_impl; [|apply checkUnknownFields_warnings]. now intros e ->.
  - eapply Forall_impl; [|apply checkDuplicateTitle_warnings]. now intros e ->.
  - eapply Forall_impl; [|apply checkTopicID_errors]. now intros e ->.
Qed.

Section Loop.

Context {engine : Engine}.
Variable clock : Clock.

(** One round of the loop appends the diagnostics of its entry. *)
Lemma validateConcept_own (i : nat) (c : json) (p : Progress) :
  p_errors (fst (validateConcept clock i c p))
  = p_errors p ++ ownDiagnostics i c (p_seenTitles p).
Proof.
  unfold ownDiagnostics. destruct (isRecord c) eqn:Hrec.
  - rewrite validateConcept_record by assumption. cbv zeta.
    destruct (negb _); [destruct (buildConcept clock i c)|]; reflexivity.
  - now rewrite validateConcept_not_record by assumption.
Qed.

(** The diagnostics of a batch, around those of the entry the loop
    reaches at the end of [l1]. *)
Lemma forEach_around (l1 : list json) (c : json) (l2 : list json) :
  let i := List.length l1 in
  let run1 := forEach clock 0 l1 start in
  snd run1 = None ->
  exists before after,
    p_errors (fst (forEach clock 0 (l1 ++ c :: l2) start))
    = before ++ ownDiagnostics i c (p_seenTitles (fst run1)) ++ after
    /\ Forall (elsewhere i) before
    /\ Forall (elsewhere i) after.
Proof.
  intros i run1 Hrun. subst run1.
  rewrite forEach_app.
  destruct (forEach_errors clock l1 0 start) as [a1 [E1 F1]].
  destruct (forEach clock 0 l1 start) as [p1 [e|]]; simpl in *; [discriminate|].
  fold i.
  pose proof (validateConcept_own i c p1) as Hown.
  assert (Hbefore : Forall (elsewhere i) a1).
  { apply (in_range_elsewhere 0 i); [right; lia | exact F1]. }
  exists a1.
  destruct (validateConcept clock i c p1) as [p2 [e|]]; simpl in *.
  - exists []. rewrite Hown, E1, app_nil_r. auto.
  - destruct (forEach_errors clock l2 (S i) p2) as [a3 [E3 F3]].
    exists a3. split; [|split; [assumption|]].
    + rewrite E3, Hown, E1. now rewrite app_assoc.
    + apply (in_range_elsewhere (S i) (List.length l2)); [left; lia | exact F3].
Qed.

(** Among the diagnostics of a result, those tagged with the index of an
    entry the loop reaches are the ones the loop pushed for that entry. *)
Lemma diagnostics_at (items : list json) (i : nat) (c : json) :
  nth_error items i = Some c ->
  reaches clock items i ->
  filter (atIndex i) (errors (validateParsed clock (JArr items)))
  = ownDiagnostics i c (seenBefore clock items i).
Proof.
  unfold reaches, seenBefore. intros Hnth Hreach.
  destruct (split_at items i c Hnth) as [l1 [l2 [E [L Hfirst]]]].
  assert (Hne : items <> []) by (intros ->; destruct i; discriminate).
  rewrite validateParsed_array by assumption.
  destruct (resultOf_errors (List.length items) (forEach clock 0 items start))
    as [tail [Et Ft]].
  rewrite Et. rewrite Hfirst in *. clear Hfirst Et Hne Hnth.
  subst items i.
  destruct (forEach_around l1 c l2 Hreach) as [before [after [Eb [Fb Fa]]]].
  rewrite Eb, !filter_app.
  rewrite (filter_atIndex_elsewhere _ before Fb), (filter_atIndex_elsewhere _ after Fa).
  rewrite (filter_atIndex_own _ _ (ownDiagnostics_index _ c _)).
  rewrite (filter_atIndex_elsewhere (List.length l1) tail).
  - simpl. now rewrite !app_nil_r.
  - eapply Forall_impl; [|exact Ft]. unfold elsewhere. intros e ->. discriminate.
Qed.

Lemma tagged_in_filter (i : nat) (d : ValidationError) (l : list ValidationError) :
  conceptIndex d = Some i -> (In d l <-> In d (filter (atIndex i) l)).
Proof.
  intros Hd. rewrite filter_In. unfold atIndex. rewrite Hd. simpl.
  rewrite Nat.eqb_refl. tauto.
Qed.

(** A diagnostic tagged with the index of a reached entry is in the result
    exactly when the loop pushed it for that entry. *)
Lemma diagnostic_in_result (items : list json) (i : nat) (c : json)
      (d : ValidationError) :
  nth_error items i = Some c ->
  reaches clock items i ->
  conceptIndex d = Some i ->
  (In d (errors (validateParsed clock (JArr items)))
   <-> In d (ownDiagnostics i c (seenBefore clock items i))).
Proof.
  intros Hnth Hreach Hd.
  rewrite (tagged_in_filter i d _ Hd). now rewrite (diagnostics_at items i c Hnth Hreach).
Qed.

Lemma rejected_invalid (items : list json) (i : nat) (c : json) :
  nth_error items i = Some c ->
  rejected i c = true ->
  isValid (validateParsed clock (JArr items)) = false.
Proof.
  intros Hnth Hrej.
  assert (Hne : items <> []) by (intros ->; destruct i; discriminate).
  rewrite validateParsed_array by assumption.
  destruct (forEach clock 0 items start) as [p [e|]] eqn:Hrun; [reflexivity|].
  pose proof (forEach_rejected clock items 0 start p i c Hrun Hnth Hrej) as Hpos.
  simpl. destruct (errorCount (p_errors p)) eqn:Hc; [lia|].
  simpl. apply andb_false_r.
Qed.

(** X1.  An entry that is not an object (null, a boolean, a number, a string)
    and that the loop reaches draws exactly one diagnostic, the error "not
    a valid object" with its position counted from 1, and the batch is
    invalid. *)
Theorem non_object_entry (items : list json) (i : nat) (c : json) :
  nth_error items i = Some c ->
  isRecord c = false ->
  reaches clock items i ->
  let r := validateParsed clock (JArr items) in
  filter (atIndex i) (errors r)
  = [mkError t_error
             ("Concept at position " ++ ofNat (i + 1) ++ " is not a valid object")
             None None (Some i)]
  /\ isValid r = false.
Proof.
  intros Hnth Hrec Hreach. cbv zeta. split.
  - rewrite (diagnostics_at items i c Hnth Hreach). unfold ownDiagnostics.
    now rewrite Hrec.
  - apply (rejected_invalid items i c Hnth). unfold rejected. now rewrite Hrec.
Qed.

Lemma duplicate_not_unknown (i j : nat) (t key : string) :
  duplicateTitle i t <> unknownField j key.
Proof. unfold duplicateTitle, unknownField. intros H. discriminate H. Qed.

Lemma In_checkUnknownFields (i : nat) (c : json) (d : ValidationError) :
  In d (checkUnknownFields i c)
  <-> exists key, In key (keys c) /\ includesString allValidFields key = false
                  /\ d = unknownField i key.
Proof.
  unfold checkUnknownFields. rewrite in_flat_map. split.
  - intros [key [Hk Hd]]. exists key.
    destruct (includesString allValidFields key); simpl in Hd; [contradiction|].
    destruct Hd as [<-|[]]. auto.
  - intros [key [Hk [Hv ->]]]. exists key. split; [assumption|].
    rewrite Hv. now left.
Qed.

Lemma checkDuplicateTitle_fst (i : nat) (c : json) (seen : list string) (key : string) :
  titleKey c = Some key ->
  fst (checkDuplicateTitle i c seen)
  = if includesString seen key then [duplicateTitle i (titleOf c)] else [].
Proof.
  unfold titleKey, titleOf, checkDuplicateTitle.
  destruct (get "title" c) as [[| | |t| |]|]; try discriminate.
  simpl. destruct (String.eqb t EmptyString); [discriminate|].
  intros [= <-]. simpl. now destruct (includesString seen (trim (toLowerCase t))).
Qed.

Lemma checkDuplicateTitle_shape (i : nat) (c : json) (seen : list string) :
  fst (checkDuplicateTitle i c seen) = []
  \/ fst (checkDuplicateTitle i c seen) = [duplicateTitle i (titleOf c)].
Proof.
  unfold titleOf, checkDuplicateTitle.
  destruct (get "title" c) as [[| | |t| |]|]; simpl; auto.
  destruct (negb _); simpl; auto.
  destruct (includesString _ _); simpl; auto.
Qed.

(** X2.  A record the loop reaches gets the warning "unknown field" for a key
    exactly when the key is one of its own and is not among the twelve
    known field names; the keys of an array entry are its indices. *)
Theorem unknown_field_warning (items : list json) (i : nat) (c : json) (key : string) :
  nth_error items i = Some c ->
  isRecord c = true ->
  reaches clock items i ->
  (In (unknownField i key) (errors (validateParsed clock (JArr items)))
   <-> In key (keys c) /\ includesString allValidFields key = false).
Proof.
  intros Hnth Hrec Hreach.
  rewrite (diagnostic_in_result items i c (unknownField i key) Hnth Hreach eq_refl).
  unfold ownDiagnostics. rewrite Hrec, conceptErrorsOf_parts, !in_app_iff.
  split.
  - intros [H | [H | [H | H]]].
    + pose proof (checkRequiredFields_errors i c) as F.
      rewrite Forall_forall in F. specialize (F _ H). discriminate F.
    + apply In_checkUnknownFields in H. destruct H as [k [Hk [Hv He]]].
      injection He as He. now subst k.
    + destruct (checkDuplicateTitle_shape i c (seenBefore clock items i)) as [E|E];
        rewrite E in H; simpl in H; [contradiction|].
      destruct H as [H|[]]. exfalso. exact (duplicate_not_unknown _ _ _ _ H).
    + pose proof (checkTopicID_errors i c) as F.
      rewrite Forall_forall in F. specialize (F _ H). discriminate F.
  - intros [Hk Hv]. right. left. apply In_checkUnknownFields. now exists key.
Qed.

Lemma checkDuplicateTitle_origin (i : nat) (c : json) (seen : list string) (key : string) :
  In key (snd (checkDuplicateTitle i c seen)) -> In key seen \/ titleKey c = Some key.
Proof.
  unfold titleKey, checkDuplicateTitle.
  destruct (get "title" c) as [[| | |t| |]|]; simpl; auto.
  destruct (String.eqb t EmptyString); simpl; auto.
  destruct (includesString seen (trim (toLowerCase t))); simpl; auto.
  rewrite in_app_iff. simpl. intros [H | [<- | []]]; auto.
Qed.

(** A title key is in [seenTitles] only if it was there or is the key of
    an entry the loop has passed. *)
Lemma forEach_seen_origin (l : list json) :
  forall (i : nat) (p : Progress) (key : string),
    In key (p_seenTitles (fst (forEach clock i l p))) ->
    In key (p_seenTitles p)
    \/ exists k c, nth_error l k = Some c /\ titleKey c = Some key.
Proof.
  induction l as [|c0 rest IH]; intros i p key Hin; simpl in Hin; [now left|].
  pose proof (validateConcept_seen clock i c0 p) as Hs.
  assert (Hstep : In key (p_seenTitles (fst (validateConcept clock i c0 p))) ->
                  In key (p_seenTitles p)
                  \/ exists k c, nth_error (c0 :: rest) k = Some c /\ titleKey c = Some key).
  { rewrite Hs. destruct (isRecord c0); [|now left].
    intros H. apply checkDuplicateTitle_origin in H. destruct H as [H|H]; [now left|].
    right. now exists 0, c0. }
  destruct (validateConcept clock i c0 p) as [p1 [e|]]; simpl in *.
  - now apply Hstep.
  - destruct (IH (S i) p1 key Hin) as [H | [k [c [Hk Hc]]]].
    + now apply Hstep.
    + right. now exists (S k), c.
Qed.

(** X3.  A record the loop reaches gets the duplicate-title warning exactly when
    an earlier entry of the batch has the same title key, that is the same
    title up to letter case and surrounding white space; whether that
    earlier entry was accepted plays no part. *)
Theorem duplicate_warning_iff (items : list json) (j : nat) (cj : json) (key : string) :
  nth_error items j = Some cj ->
  titleKey cj = Some key ->
  reaches clock items j ->
  (In (duplicateTitle j (titleOf cj)) (errors (validateParsed clock (JArr items)))
   <-> exists i ci, i < j /\ nth_error items i = Some ci /\ titleKey ci = Some key).
Proof.
  intros Hnth Hkey Hreach.
  rewrite (diagnostic_in_result items j cj (duplicateTitle j (titleOf cj)) Hnth Hreach eq_refl).
  unfold ownDiagnostics. rewrite (titleKey_record cj key Hkey).
  rewrite conceptErrorsOf_parts, !in_app_iff.
  rewrite (checkDuplicateTitle_fst j cj _ key Hkey).
  assert (Hseen : includesString (seenBefore clock items j) key = true
                  <-> exists i ci, i < j /\ nth_error items i = Some ci
                                   /\ titleKey ci = Some key).
  { rewrite includesString_In. unfold seenBefore. unfold reaches in Hreach. split.
    - intros Hin. apply forEach_seen_origin in Hin.
      destruct Hin as [[] | [k [c [Hk Hc]]]].
      assert (Hlt : k < j).
      { assert (Hk' : nth_error (firstn j items) k <> None) by congruence.
        apply nth_error_Some in Hk'. rewrite length_firstn in Hk'. lia. }
      exists k, c. repeat split; try assumption.
      rewrite nth_error_firstn in Hk.
      destruct (Nat.ltb_spec k j); [assumption | lia].
    - intros [i [ci [Hlt [Hi Hc]]]].
      apply (forEach_seen clock (firstn j items) 0 start i ci key Hreach); [|assumption].
      rewrite nth_error_firstn. destruct (Nat.ltb_spec i j); [assumption | lia]. }
  rewrite <- Hseen. split.
  - intros [H | [H | [H | H]]].
    + pose proof (checkRequiredFields_errors j cj) as F.
      rewrite Forall_forall in F. specialize (F _ H). discriminate F.
    + apply In_checkUnknownFields in H. destruct H as [k [_ [_ He]]].
      exfalso. exact (duplicate_not_unknown _ _ _ _ He).
    + destruct (includesString (seenBefore clock items j) key); [reflexivity|].
      destruct H.
    + pose proof (checkTopicID_errors j cj) as F.
      rewrite Forall_forall in F. specialize (F _ H). discriminate F.
  - intros ->. right. right. left. now left.
Qed.

Lemma trimmedOrEmpty_trimmed (f : string) (c : json) (s : string) :
  trimmedOrEmpty f c = Normal s -> trimmed s.
Proof.
  unfold trimmedOrEmpty, trimmed.
  destruct (get f c) as [[| | |t| |]|]; try discriminate;
    intros [= <-]; try reflexivity.
  apply trim_idem.
Qed.

Lemma trimmedOrEmpty_required (f : string) (c : json) (s : string) :
  requiredOk c f = true -> trimmedOrEmpty f c = Normal s -> s <> EmptyString.
Proof.
  unfold requiredOk, trimmedOrEmpty.
  destruct (get f c) as [[| | |t| |]|]; try discriminate.
  intros Hok [= <-] He. rewrite He in Hok. discriminate Hok.
Qed.

Lemma trimmedOrEmpty_optional (f : string) (c : json) (s : string) :
  trimmedOrEmpty f c = Normal s -> optionalOk c f = true.
Proof.
  unfold optionalOk, trimmedOrEmpty.
  destruct (get f c) as [[| | |t| |]|]; try discriminate; reflexivity.
Qed.

Ltac split_trimmed :=
  match goal with
  | H : bind (trimmedOrEmpty ?f ?c) _ = Normal _ |- _ =>
      let s := fresh "s" in
      let E := fresh "E" in
      destruct (trimmedOrEmpty f c) as [s|] eqn:E; simpl in H; [|discriminate H]
  end.

(** The fields of a record the builder returns. *)
Lemma buildConcept_fields (i : nat) (c : json) (k : Concept) :
  buildConcept clock i c = Normal k ->
  trimmedOrEmpty "topic" c = Normal (topic k)
  /\ trimmedOrEmpty "title" c = Normal (title k)
  /\ trimmedOrEmpty "definition" c = Normal (definition k)
  /\ trimmedOrEmpty "detailedExplanation" c = Normal (detailedExplanation k)
  /\ trimmedOrEmpty "whenToUse" c = Normal (whenToUse k)
  /\ trimmedOrEmpty "whyNeed" c = Normal (whyNeed k)
  /\ trimmedOrEmpty "codeExample" c = Normal (codeExample k)
  /\ trimmedOrEmpty "keyword" c = Normal (keyword k)
  /\ trimmedOrEmpty "differences" c = Normal (differences k)
  /\ topicID k = topicIDOrZero c
  /\ _id k = None
  /\ createdAt k <> None
  /\ updatedAt k <> None.
Proof.
  unfold buildConcept. intros H.
  repeat split_trimmed.
  destruct (dateOrNow clock "createdAt" i CreatedAt c) as [d1|]; simpl in H;
    [|discriminate H].
  destruct (dateOrNow clock "updatedAt" i UpdatedAt c) as [d2|]; simpl in H;
    [|discriminate H].
  injection H as <-. simpl. repeat split; try reflexivity; discriminate.
Qed.

Lemma accepted_required (i : nat) (c : json) (seen : list string) (f : string) :
  isRecord c = true ->
  hasCriticalErrors (fst (conceptErrorsOf i c seen)) = false ->
  In f requiredFields ->
  requiredOk c f = true.
Proof.
  intros Hrec Hc Hin. rewrite conceptErrorsOf_critical in Hc.
  assert (Hrej : rejected i c = false) by (unfold rejected; now rewrite Hrec, Hc).
  rewrite rejected_spec, Hrec in Hrej.
  apply negb_false_iff in Hrej. apply andb_prop in Hrej. destruct Hrej as [Hall _].
  apply andb_prop in Hall. destruct Hall as [_ Hall].
  rewrite forallb_forall in Hall. now apply Hall.
Qed.

Lemma built_normalized (i : nat) (c : json) (seen : list string) (k : Concept) :
  isRecord c = true ->
  hasCriticalErrors (fst (conceptErrorsOf i c seen)) = false ->
  buildConcept clock i c = Normal k ->
  normalized k.
Proof.
  intros Hrec Hc Hb.
  destruct (buildConcept_fields i c k Hb)
    as [Htopic [Htitle [Hdef [Hde [Hwu [Hwn [Hce [Hkw [Hdi [_ [Hid [Hca Hua]]]]]]]]]]]].
  assert (Hreq : forall f, In f requiredFields -> requiredOk c f = true).
  { intros f. now apply (accepted_required i c seen f). }
  unfold normalized. repeat split;
    try (eapply trimmedOrEmpty_trimmed; eassumption);
    try assumption.
  - apply (trimmedOrEmpty_required "title" c); [apply Hreq; simpl; tauto | assumption].
  - apply (trimmedOrEmpty_required "topic" c); [apply Hreq; simpl; tauto | assumption].
  - apply (trimmedOrEmpty_required "definition" c); [apply Hreq; simpl; tauto | assumption].
  - apply (trimmedOrEmpty_required "keyword" c); [apply Hreq; simpl; tauto | assumption].
Qed.

Lemma validateConcept_normalized (i : nat) (c : json) (p : Progress) :
  Forall normalized (p_validConcepts p) ->
  Forall normalized (p_validConcepts (fst (validateConcept clock i c p))).
Proof.
  intros Hall. destruct (isRecord c) eqn:Hrec.
  - rewrite validateConcept_record by assumption. cbv zeta.
    destruct (hasCriticalErrors (fst (conceptErrorsOf i c (p_seenTitles p)))) eqn:Hc;
      simpl; [assumption|].
    destruct (buildConcept clock i c) as [k|e] eqn:Hb; simpl; [|assumption].
    apply Forall_app. split; [assumption|]. constructor; [|constructor].
    now apply (built_normalized i c (p_seenTitles p) k).
  - now rewrite validateConcept_not_record by assumption.
Qed.

Lemma forEach_normalized (l : list json) :
  forall (i : nat) (p : Progress),
    Forall normalized (p_validConcepts p) ->
    Forall normalized (p_validConcepts (fst (forEach clock i l p))).
Proof.
  induction l as [|c rest IH]; intros i p Hall; simpl; [assumption|].
  pose proof (validateConcept_normalized i c p Hall) as H1.
  destruct (validateConcept clock i c p) as [p1 [e|]]; simpl in *; [assumption|].
  now apply IH.
Qed.

Lemma resultOf_validConcepts (n : nat) (run : Progress * option Thrown) :
  validConcepts (resultOf n run) = p_validConcepts (fst run)
  \/ validConcepts (resultOf n run) = [].
Proof. destruct run as [p [e|]]; simpl; auto. Qed.

Lemma validated_normalized (content : string) :
  Forall normalized (validConcepts (validateJsonContent clock content)).
Proof.
  unfold validateJsonContent.
  destruct (JSON_parse content) as [parsedData|e]; [|constructor].
  destruct parsedData as [|b|q|s|items|fields]; try constructor.
  destruct items as [|c rest]; [constructor|].
  rewrite validateParsed_records.
  destruct (resultOf_validConcepts (List.length (c :: rest))
                                   (forEach clock 0 (c :: rest) start)) as [E|E];
    rewrite E; [|constructor].
  apply forEach_normalized. constructor.
Qed.

(** X4.  Every record the validator accepts, from any text, is normalised:
    title, topic, definition and keyword are not empty and carry no
    surrounding white space, the five optional texts carry none either,
    the record has no identifier, and both timestamps are set. *)
Theorem accepted_records_normalized (content : string) :
  Forall normalized (validConcepts (validateJsonContent clock content)).
Proof. exact (validated_normalized content). Qed.

Lemma validateConcept_length (i : nat) (c : json) (p : Progress) :
  List.length (p_validConcepts (fst (validateConcept clock i c p)))
  <= S (List.length (p_validConcepts p)).
Proof.
  destruct (isRecord c) eqn:Hrec.
  - rewrite validateConcept_record by assumption. cbv zeta.
    destruct (negb _); [destruct (buildConcept clock i c)|]; simpl;
      rewrite ?length_app; simpl; lia.
  - rewrite validateConcept_not_record by assumption. simpl. lia.
Qed.

Lemma forEach_length (l : list json) :
  forall (i : nat) (p : Progress),
    List.length (p_validConcepts (fst (forEach clock i l p)))
    <= List.length (p_validConcepts p) + List.length l.
Proof.
  induction l as [|c rest IH]; intros i p; simpl; [lia|].
  pose proof (validateConcept_length i c p) as H1.
  destruct (validateConcept clock i c p) as [p1 [e|]]; simpl in *; [lia|].
  specialize (IH (S i) p1). lia.
Qed.

(** X5.  The count of a result is the number of entries of the array, whatever
    happens to them, and 0 when there is no array; the accepted records
    are never more than the count. *)
Theorem accepted_within_total (parsedData : json) :
  let r := validateParsed clock parsedData in
  List.length (validConcepts r) <= totalConcepts r
  /\ totalConcepts r = match parsedData with
                       | JArr items => List.length items
                       | _ => 0
                       end.
Proof.
  destruct parsedData as [|b|q|s|items|fields]; try (simpl; split; [lia | reflexivity]).
  destruct items as [|c rest]; [simpl; split; [lia | reflexivity]|].
  cbv zeta. rewrite validateParsed_records.
  pose proof (forEach_length (c :: rest) 0 start) as Hlen.
  destruct (forEach clock 0 (c :: rest) start) as [p [e|]]; simpl in *;
    split; try reflexivity; lia.
Qed.

Lemma infoCount_app (l1 l2 : list ValidationError) :
  infoCount (l1 ++ l2) = infoCount l1 + infoCount l2.
Proof. unfold infoCount. now rewrite filter_app, length_app. Qed.

Lemma infoCount_none (l : list ValidationError) :
  Forall (fun e => isInfoType (type e) = false) l -> infoCount l = 0.
Proof.
  unfold infoCount. induction 1 as [|e l He _ IH]; simpl; [reflexivity|].
  now rewrite He.
Qed.

Lemma forEach_no_info (l : list json) :
  forall (i : nat) (p : Progress),
    infoCount (p_errors p) = 0 ->
    infoCount (p_errors (fst (forEach clock i l p))) = 0.
Proof.
  induction l as [|c rest IH]; intros i p Hp; simpl; [assumption|].
  pose proof (validateConcept_own i c p) as Hown.
  assert (H1 : infoCount (p_errors (fst (validateConcept clock i c p))) = 0).
  { rewrite Hown, infoCount_app, Hp.
    now rewrite (infoCount_none _ (ownDiagnostics_no_info i c (p_seenTitles p))). }
  destruct (validateConcept clock i c p) as [p1 [e|]]; simpl in *; [assumption|].
  now apply IH.
Qed.

Lemma counts_partition (l : list ValidationError) :
  errorCount l + warningCount l + infoCount l = List.length l.
Proof.
  unfold errorCount, warningCount, infoCount.
  induction l as [|e l IH]; simpl; [reflexivity|].
  destruct (type e); simpl; lia.
Qed.

(** X6.  The diagnostics of a result hold one info entry when the result is
    valid and none otherwise; when there is one it comes last and states
    the number of accepted records.  Errors, warnings and that entry make
    up all the diagnostics. *)
Theorem summary_iff_valid (content : string) :
  let r := validateJsonContent clock content in
  infoCount (errors r) = (if isValid r then 1 else 0)
  /\ (isValid r = true ->
      exists before,
        errors r
        = before
          ++ [mkError t_info
                      ("Validation successful! "
                       ++ ofNat (List.length (validConcepts r))
                       ++ " concepts ready for import")
                      None None None])
  /\ errorCount (errors r) + warningCount (errors r) + infoCount (errors r)
     = List.length (errors r).
Proof.
  cbv zeta. split; [|split; [|apply counts_partition]].
  - unfold validateJsonContent.
    destruct (JSON_parse content) as [parsedData|e]; [|reflexivity].
    destruct parsedData as [|b|q|s|items|fields]; try reflexivity.
    destruct items as [|c rest]; [reflexivity|].
    rewrite validateParsed_records.
    pose proof (forEach_no_info (c :: rest) 0 start eq_refl) as Hni.
    destruct (forEach clock 0 (c :: rest) start) as [p [e|]]; simpl in *.
    + rewrite infoCount_app, Hni. reflexivity.
    + destruct (_ && _); [|assumption].
      rewrite infoCount_app, Hni. reflexivity.
  - unfold validateJsonContent.
    destruct (JSON_parse content) as [parsedData|e]; [|discriminate].
    destruct parsedData as [|b|q|s|items|fields]; try discriminate.
    destruct items as [|c rest]; [discriminate|].
    rewrite validateParsed_records.
    destruct (forEach clock 0 (c :: rest) start) as [p [e|]]; simpl; [discriminate|].
    destruct (_ && _); [|discriminate].
    intros _. now exists (p_errors p).
Qed.

(** No diagnostic of an entry carries the message of the root error. *)
Lemma ownDiagnostics_not_root (i : nat) (c : json) (seen : list string) :
  Forall (fun e => message e <> message rootNotArray) (ownDiagnostics i c seen).
Proof.
  unfold ownDiagnostics. destruct (isRecord c).
  - rewrite conceptErrorsOf_parts. rewrite !Forall_app. repeat split.
    + unfold checkRequiredFields. apply Forall_flat_map, Forall_forall.
      intros f _. unfold checkRequiredField.
      destruct (negb (truthy (get f c)));
        [repeat constructor; intros H; discriminate H|].
      destruct (get f c) as [[| | |s| |]|];
        try (repeat constructor; intros H; discriminate H).
      destruct (String.eqb (trim s) EmptyString);
        repeat constructor; intros H; discriminate H.
    + unfold checkUnknownFields. apply Forall_flat_map, Forall_forall.
      intros key _. destruct (negb _); repeat constructor.
      intros H; discriminate H.
    + unfold checkDuplicateTitle.
      destruct (get "title" c) as [[| | |t| |]|]; simpl; try constructor.
      destruct (negb _); simpl; [|constructor].
      destruct (includesString _ _); simpl; repeat constructor.
      intros H; discriminate H.
    + unfold checkTopicID.
      destruct (get "topicID" c) as [[| | | | |]|];
        repeat constructor; intros H; discriminate H.
  - repeat constructor. intros H; discriminate H.
Qed.

Lemma forEach_not_root (l : list json) :
  forall (i : nat) (p : Progress),
    Forall (fun e => message e <> message rootNotArray) (p_errors p) ->
    Forall (fun e => message e <> message rootNotArray)
           (p_errors (fst (forEach clock i l p))).
Proof.
  induction l as [|c rest IH]; intros i p Hp; simpl; [assumption|].
  pose proof (validateConcept_own i c p) as Hown.
  assert (H1 : Forall (fun e => message e <> message rootNotArray)
                      (p_errors (fst (validateConcept clock i c p)))).
  { rewrite Hown, Forall_app. split; [assumption | apply ownDiagnostics_not_root]. }
  destruct (validateConcept clock i c p) as [p1 [e|]]; simpl in *; [assumption|].
  now apply IH.
Qed.

(** A result computed from a run of the loop carries no root error. *)
Lemma resultOf_not_root (n : nat) (l : list json) :
  Forall (fun e => message e <> message rootNotArray)
         (errors (resultOf n (forEach clock 0 l start))).
Proof.
  pose proof (forEach_not_root l 0 start (Forall_nil _)) as Hrun.
  destruct (forEach clock 0 l start) as [p [e|]]; simpl in *.
  - rewrite Forall_app. split; [assumption|].
    repeat constructor. intros H; discriminate H.
  - destruct (_ && _); [|assumption].
    rewrite Forall_app. split; [assumption|].
    repeat constructor. intros H; discriminate H.
Qed.

(** A well-formed record is an object, not an array. *)
Lemma wellFormed_not_array (c : json) :
  wellFormed c = true -> isArray (Some c) = false.
Proof.
  destruct c; try reflexivity.
  unfold wellFormed. simpl. intros H; discriminate H.
Qed.

(** X7.  The root of the input must be an array.  The error "Root element must
    be an array of concepts" is reported exactly for the inputs that parse
    to a value that is not an array (an object, a string, a number, a
    boolean, null): no entry of an array, whatever it holds, and no
    failure of the parser draws it.  It is then the only diagnostic, with
    a count of 0 and no accepted record.  So a well-formed record that is
    not wrapped in an array is not imported, while the same record as the
    single entry of an array is. *)
Theorem root_must_be_array (content : string) :
  let r := validateJsonContent clock content in
  let rootError :=
    mkError t_error "Root element must be an array of concepts" None None None in
  ((exists d, In d (errors r)
              /\ message d = "Root element must be an array of concepts"%string)
   <-> exists parsedData,
         JSON_parse content = Normal parsedData
         /\ isArray (Some parsedData) = false)
  /\ (forall parsedData,
         JSON_parse content = Normal parsedData ->
         isArray (Some parsedData) = false ->
         r = mkResult false [rootError] [] 0)
  /\ (forall record wrapped,
         JSON_parse content = Normal record ->
         wellFormed record = true ->
         JSON_parse wrapped = Normal (JArr [record]) ->
         r = mkResult false [rootError] [] 0
         /\ isValid (validateJsonContent clock wrapped) = true
         /\ List.length (validConcepts (validateJsonContent clock wrapped)) = 1
         /\ totalConcepts (validateJsonContent clock wrapped) = 1).
Proof.
  cbv zeta.
  assert (Hroot : forall v, JSON_parse content = Normal v ->
                            isArray (Some v) = false ->
                            validateJsonContent clock content
                            = mkResult false [rootNotArray] [] 0).
  { intros v Hv Harr. unfold validateJsonContent. rewrite Hv.
    destruct v; try reflexivity. discriminate Harr. }
  split; [|split].
  - split.
    + intros [d [Hin Hmsg]]. unfold validateJsonContent in Hin.
      destruct (JSON_parse content) as [v|e] eqn:Hparse.
      * exists v. split; [reflexivity|].
        destruct v as [|b|q|s|items|fields]; try reflexivity.
        exfalso. destruct items as [|c rest].
        -- simpl in Hin. destruct Hin as [<-|[]]. discriminate Hmsg.
        -- rewrite validateParsed_records in Hin.
           pose proof (resultOf_not_root (List.length (c :: rest)) (c :: rest)) as Hall.
           rewrite Forall_forall in Hall. exact (Hall d Hin Hmsg).
      * exfalso. simpl in Hin. destruct Hin as [<-|[]].
        destruct e; discriminate Hmsg.
    + intros [v [Hv Harr]]. rewrite (Hroot v Hv Harr).
      exists rootNotArray. split; [now left | reflexivity].
  - exact Hroot.
  - intros record wrapped Hrec Hwf Hwrap.
    split; [exact (Hroot record Hrec (wellFormed_not_array record Hwf))|].
    unfold validateJsonContent. rewrite Hwrap, validateParsed_records.
    destruct (forEach_wellFormed clock [record] 0 start
                (Forall_cons _ Hwf (Forall_nil _))) as [p [Hrun [Hlen Herr]]].
    rewrite Hrun. simpl in *. rewrite Hlen, Herr. simpl. repeat split.
Qed.

Lemma buildConcept_throws (i : nat) (c : json) (f : string) :
  In f optionalStrings ->
  optionalOk c f = false ->
  exists e, buildConcept clock i c = Throw e.
Proof.
  intros Hin Hbad.
  destruct (buildConcept clock i c) as [k|e] eqn:Hb; [|eauto].
  exfalso.
  destruct (buildConcept_fields i c k Hb)
    as [_ [_ [_ [Hde [Hwu [Hwn [Hce [_ [Hdi _]]]]]]]]].
  simpl in Hin.
  destruct Hin as [<-|[<-|[<-|[<-|[<-|[]]]]]];
    match goal with
    | H : trimmedOrEmpty ?g c = Normal _ |- _ =>
        match type of Hbad with
        | optionalOk c g = false =>
            apply trimmedOrEmpty_optional in H; congruence
        end
    end.
Qed.

(** X8.  One record that passes every check but holds an optional text that is
    neither a string nor null (a number, say) voids the batch: the loop
    stops at that record, the result is invalid, holds no accepted record,
    not even those accepted before, and its last diagnostic is the error
    "Unexpected validation error". *)
Theorem optional_text_not_a_string (items : list json) (i : nat) (c : json) (f : string) :
  nth_error items i = Some c ->
  reaches clock items i ->
  rejected i c = false ->
  In f optionalStrings ->
  optionalOk c f = false ->
  let r := validateParsed clock (JArr items) in
  validConcepts r = []
  /\ isValid r = false
  /\ totalConcepts r = List.length items
  /\ exists before e, errors r = before ++ [unexpected e].
Proof.
  unfold reaches. intros Hnth Hreach Hrej Hin Hbad. cbv zeta.
  destruct (split_at items i c Hnth) as [l1 [l2 [E [L Hfirst]]]].
  assert (Hne : items <> []) by (intros ->; destruct i; discriminate).
  rewrite validateParsed_array by assumption.
  rewrite Hfirst in Hreach.
  assert (Hrun : exists p e, forEach clock 0 items start = (p, Some e)).
  { rewrite E, forEach_app.
    destruct (forEach clock 0 l1 start) as [p1 [e|]]; simpl in Hreach; [discriminate|].
    simpl. rewrite L.
    unfold rejected in Hrej. apply orb_false_iff in Hrej. destruct Hrej as [Hrec Hc].
    apply negb_false_iff in Hrec.
    rewrite validateConcept_record by assumption. cbv zeta.
    rewrite conceptErrorsOf_critical, Hc. simpl.
    destruct (buildConcept_throws i c f Hin Hbad) as [e He]. rewrite He. eauto. }
  destruct Hrun as [p [e Hrun]]. rewrite Hrun. simpl.
  repeat split. now exists (p_errors p), e.
Qed.

End Loop.

End ValidatorMore.

(* ================================================================== *)
(** ** Further facts about the settings panel *)

Module SettingsMore.

Import JSString Settings FileImport SettingsFacts Notions.

(** X9.  Merging nothing changes nothing; merging into an empty set keeps the
    whole incoming set, repeated titles included; every incoming title is
    matched in the merged set; and the merged set holds nothing that was
    in neither set. *)
Theorem merge_laws (existing incoming : list Concept) :
  mergeConcepts existing [] = existing
  /\ mergeConcepts [] incoming = incoming
  /\ (forall c, In c incoming ->
                matchesExisting (mergeConcepts existing incoming) c = true)
  /\ (forall c, In c (mergeConcepts existing incoming) ->
                In c existing \/ In c incoming).
Proof.
  repeat split.
  - unfold mergeConcepts. simpl. apply app_nil_r.
  - unfold mergeConcepts, newConceptsOf. simpl.
    induction incoming as [|c rest IH]; simpl; [reflexivity | now rewrite IH].
  - intros c Hin. rewrite <- has_titleSet.
    unfold mergeConcepts, titleSet. rewrite map_app. fold (titleSet existing).
    fold (titleSet (newConceptsOf existing incoming)). rewrite has_app.
    destruct (has (titleSet existing) (toLowerCase (title c))) eqn:He; [reflexivity|].
    simpl. apply has_own_title. unfold newConceptsOf. apply filter_In.
    split; [assumption | now rewrite He].
  - intros c Hin. unfold mergeConcepts in Hin. apply in_app_or in Hin.
    destruct Hin as [H|H]; [now left|]. right.
    unfold newConceptsOf in H. now apply filter_In in H.
Qed.

Section Handlers.

Context {browser : Browser}.

(** X10.  The import commit only ever adds: the records held before stay in
    front, unchanged; what is added comes from the staged validation
    result; no request is sent; and the cache is left as it was or holds
    the new record set. *)
Theorem import_is_additive (st : AppState) :
  let st' := handleValidatedImport st in
  (exists added,
      concepts st' = concepts st ++ added
      /\ forall c, In c added ->
                   exists vr, validationResult st = Some vr /\ In c (validConcepts vr))
  /\ requests st' = requests st
  /\ (localStorage st' = localStorage st \/ localStorage st' = Some (concepts st')).
Proof.
  cbv zeta. unfold handleValidatedImport.
  destruct (validationResult st) as [vr|] eqn:Hv.
  - destruct (negb (isValid vr) || Nat.eqb (List.length (validConcepts vr)) 0).
    + simpl. split; [|auto]. exists []. split; [now rewrite app_nil_r | intros c []].
    + cbv zeta.
      assert (Hfrom : forall c, In c (newConceptsOf (concepts st) (validConcepts vr)) ->
                                exists vr0, Some vr = Some vr0 /\ In c (validConcepts vr0)).
      { intros c Hc. exists vr. split; [reflexivity|].
        unfold newConceptsOf in Hc. now apply filter_In in Hc. }
      destruct (setItem (concepts st ++ newConceptsOf (concepts st) (validConcepts vr)));
        simpl; (split; [eexists; split; [reflexivity | exact Hfrom] | auto]).
  - simpl. split; [|auto]. exists []. split; [now rewrite app_nil_r | intros c []].
Qed.

(** X11.  Committing twice in a row gives the records of committing once,
    whether the first commit went through, was refused, or failed to
    write the cache. *)
Theorem import_twice (st : AppState) :
  concepts (handleValidatedImport (handleValidatedImport st))
  = concepts (handleValidatedImport st).
Proof.
  destruct (validationResult st) as [vr|] eqn:Hv.
  - destruct (negb (isValid vr) || Nat.eqb (List.length (validConcepts vr)) 0) eqn:Hg.
    + assert (Hrun : handleValidatedImport st = toast cannotImport st).
      { unfold handleValidatedImport. now rewrite Hv, Hg. }
      rewrite Hrun. unfold handleValidatedImport. simpl. now rewrite Hv, Hg.
    + destruct (setItem (mergeConcepts (concepts st) (validConcepts vr)))
        as [e|] eqn:Hs.
      * assert (Hrun : handleValidatedImport st
                       = setLoading importDone
                           (toast (importFailed e)
                              (onConceptsChange
                                 (mergeConcepts (concepts st) (validConcepts vr)) st))).
        { unfold handleValidatedImport. rewrite Hv, Hg. cbv zeta.
          fold (mergeConcepts (concepts st) (validConcepts vr)). now rewrite Hs. }
        rewrite Hrun. unfold handleValidatedImport. simpl. rewrite Hv, Hg. cbv zeta.
        rewrite newConceptsOf_merged, app_nil_r, Hs. reflexivity.
      * assert (Hrun : validationResult (handleValidatedImport st) = None).
        { unfold handleValidatedImport. rewrite Hv, Hg. cbv zeta.
          fold (mergeConcepts (concepts st) (validConcepts vr)). now rewrite Hs. }
        unfold handleValidatedImport at 1. now rewrite Hrun.
  - assert (Hrun : handleValidatedImport st = toast cannotImport st).
    { unfold handleValidatedImport. now rewrite Hv. }
    rewrite Hrun. unfold handleValidatedImport. simpl. now rewrite Hv.
Qed.

Lemma push_frame (st : AppState) :
  concepts (handleSyncToDatabase st) = concepts st
  /\ localStorage (handleSyncToDatabase st) = localStorage st
  /\ validationResult (handleSyncToDatabase st) = validationResult st.
Proof.
  unfold handleSyncToDatabase.
  destruct (Nat.eqb (List.length (concepts st)) 0); [repeat split; reflexivity|].
  cbv zeta.
  destruct (fetch (SyncPOST (concepts st))) as [result|e]; simpl;
    [destruct (res_success result)|]; repeat split; reflexivity.
Qed.

(** X12.  The push never touches the local side: records, cache and staged
    import are as before in every outcome.  It sends one request, carrying
    the whole local record set, unless that set is empty; and it raises
    one toast, which is the plain "Sync successful" exactly when the
    request was sent and answered with success. *)
Theorem push_leaves_local_state (st : AppState) :
  let st' := handleSyncToDatabase st in
  concepts st' = concepts st
  /\ localStorage st' = localStorage st
  /\ validationResult st' = validationResult st
  /\ requests st'
     = requests st ++ (if Nat.eqb (List.length (concepts st)) 0 then []
                       else [SyncPOST (concepts st)])
  /\ exists t,
      toasts st' = toasts st ++ [t]
      /\ (toast_variant t = v_default
          <-> concepts st <> []
              /\ exists result, fetch (SyncPOST (concepts st)) = Normal result
                                /\ res_success result = true).
Proof.
  cbv zeta. unfold handleSyncToDatabase.
  destruct (concepts st) as [|c cs] eqn:Hc; simpl.
  - rewrite Hc, app_nil_r. repeat split; try reflexivity; try exact Hc.
    exists nothingToSync. split; [reflexivity|]. simpl. split; [discriminate|].
    intros [H _]. congruence.
  - destruct (fetch (SyncPOST (c :: cs))) as [result|e] eqn:Hf; simpl.
    + destruct (res_success result) eqn:Hs; simpl.
      * repeat split; try reflexivity; try exact Hc. eexists. split; [reflexivity|]. simpl.
        split; [|reflexivity]. intros _. split; [discriminate|]. now exists result.
      * repeat split; try reflexivity; try exact Hc. eexists. split; [reflexivity|]. simpl.
        split; [discriminate|]. intros [_ [r [[= <-] Hr]]]. congruence.
    + repeat split; try reflexivity; try exact Hc. eexists. split; [reflexivity|]. simpl.
      split; [discriminate|]. intros [_ [r [Hr _]]]. discriminate Hr.
Qed.

Lemma pull_records (st : AppState) :
  concepts (handleSyncFromDatabase st)
  = match fetch SyncGET with
    | Normal result =>
        if res_success result then
          match res_concepts result with
          | Some (c :: cs) => c :: cs
          | _ => concepts st
          end
        else concepts st
    | Throw _ => concepts st
    end.
Proof.
  unfold handleSyncFromDatabase, applyRemote.
  destruct (fetch SyncGET) as [result|e]; simpl; [|reflexivity].
  destruct (res_success result); simpl; [|reflexivity].
  destruct (res_concepts result) as [[|c cs]|]; simpl; try reflexivity.
  destruct (setItem (c :: cs)); reflexivity.
Qed.

Lemma pull_cache (st : AppState) :
  localStorage (handleSyncFromDatabase st)
  = match fetch SyncGET with
    | Normal result =>
        if res_success result then
          match res_concepts result with
          | Some (c :: cs) =>
              match setItem (c :: cs) with
              | None => Some (c :: cs)
              | Some _ => localStorage st
              end
          | _ => localStorage st
          end
        else localStorage st
    | Throw _ => localStorage st
    end.
Proof.
  unfold handleSyncFromDatabase, applyRemote.
  destruct (fetch SyncGET) as [result|e]; simpl; [|reflexivity].
  destruct (res_success result); simpl; [|reflexivity].
  destruct (res_concepts result) as [[|c cs]|]; simpl; try reflexivity.
  destruct (setItem (c :: cs)); reflexivity.
Qed.

Lemma pull_log (st : AppState) :
  requests (handleSyncFromDatabase st) = requests st ++ [SyncGET]
  /\ ld_syncFrom (isLoading (handleSyncFromDatabase st)) = false.
Proof.
  unfold handleSyncFromDatabase, applyRemote.
  destruct (fetch SyncGET) as [result|e]; simpl; [|now split].
  destruct (res_success result); simpl; [|now split].
  destruct (res_concepts result) as [[|c cs]|]; simpl; try (now split).
  destruct (setItem (c :: cs)); now split.
Qed.

(** X13.  The pull sends one request in every run.  A non-empty remote set that
    the cache accepts becomes both the records and the cache, and the
    toast states its size.  Pulling twice from an unchanged store leaves
    the records and the cache as pulling once. *)
Theorem pull_replaces_and_repeats (st : AppState) :
  let st' := handleSyncFromDatabase st in
  requests st' = requests st ++ [SyncGET]
  /\ ld_syncFrom (isLoading st') = false
  /\ (forall result cs,
         fetch SyncGET = Normal result ->
         res_success result = true ->
         res_concepts result = Some cs ->
         cs <> [] ->
         setItem cs = None ->
         concepts st' = cs
         /\ localStorage st' = Some cs
         /\ toasts st' = toasts st ++ [syncFromSuccessful (List.length cs)])
  /\ concepts (handleSyncFromDatabase st') = concepts st'
  /\ localStorage (handleSyncFromDatabase st') = localStorage st'.
Proof.
  cbv zeta.
  split; [apply pull_log|]. split; [apply pull_log|]. split; [|split].
  - intros result cs Hf Hs Hc Hne Hset.
    unfold handleSyncFromDatabase, applyRemote. rewrite Hf. simpl. rewrite Hs, Hc.
    destruct cs as [|c cs]; [congruence|]. simpl. rewrite Hset. simpl.
    split; [reflexivity | split; reflexivity].
  - rewrite (pull_records (handleSyncFromDatabase st)), (pull_records st).
    destruct (fetch SyncGET) as [result|e]; [|reflexivity].
    destruct (res_success result); [|reflexivity].
    destruct (res_concepts result) as [[|c cs]|]; reflexivity.
  - rewrite (pull_cache (handleSyncFromDatabase st)), (pull_cache st).
    destruct (fetch SyncGET) as [result|e]; [|reflexivity].
    destruct (res_success result); [|reflexivity].
    destruct (res_concepts result) as [[|c cs]|]; try reflexivity.
    destruct (setItem (c :: cs)); reflexivity.
Qed.

Section Staging.

Context {engine : Engine}.
Variable clock : Clock.

Lemma stage_frame (file : option File) (st : AppState) :
  concepts (handleImport clock file st) = concepts st
  /\ localStorage (handleImport clock file st) = localStorage st
  /\ requests (handleImport clock file st) = requests st.
Proof.
  unfold handleImport. destruct file as [f|]; [|repeat split; reflexivity].
  destruct (negb (endsWith (file_name f) ".json")); [repeat split; reflexivity|].
  destruct (N.ltb (10 * 1024 * 1024) (file_size f)); [repeat split; reflexivity|].
  destruct (file_text f) as [content|]; [|repeat split; reflexivity].
  destruct (String.eqb content EmptyString || String.eqb (trim content) EmptyString);
    repeat split; reflexivity.
Qed.

(** X14.  Picking a file stages an import and nothing else: records and cache
    are as before and no request is sent.  A file whose name does not end
    in ".json", or that is larger than 10 MB, is refused with a
    destructive toast before it is read.  The staged result changes only
    for a file that passed both tests and was read to a text that is not
    blank; it is then what the validator returns on that text. *)
Theorem file_import_gate (file : option File) (st : AppState) :
  let st' := handleImport clock file st in
  concepts st' = concepts st
  /\ localStorage st' = localStorage st
  /\ requests st' = requests st
  /\ (forall f,
         file = Some f ->
         endsWith (file_name f) ".json" = false \/ (10485760 < file_size f)%N ->
         validationResult st' = validationResult st
         /\ jsonPreview st' = jsonPreview st
         /\ exists t, toasts st' = toasts st ++ [t] /\ toast_variant t = v_destructive)
  /\ (validationResult st' <> validationResult st ->
      exists f content,
        file = Some f
        /\ endsWith (file_name f) ".json" = true
        /\ (file_size f <= 10485760)%N
        /\ file_text f = Some content
        /\ trim content <> EmptyString
        /\ validationResult st' = Some (Validator.validateJsonContent clock content)
        /\ jsonPreview st' = content).
Proof.
  cbv zeta.
  pose proof (stage_frame file st) as Hframe.
  destruct Hframe as [H1 [H2 H3]].
  split; [exact H1|]. split; [exact H2|]. split; [exact H3|]. split.
  - intros f -> Hbad. unfold handleImport.
    destruct (endsWith (file_name f) ".json") eqn:Hname; simpl.
    + destruct Hbad as [H|H]; [discriminate|].
      change (10 * 1024 * 1024)%N with 10485760%N.
      destruct (N.ltb_spec 10485760 (file_size f)) as [_|Hsmall]; [|lia].
      split; [reflexivity|]. split; [reflexivity|].
      exists fileTooLarge. split; reflexivity.
    + split; [reflexivity|]. split; [reflexivity|].
      exists invalidFileType. split; reflexivity.
  - unfold handleImport. destruct file as [f|]; [|congruence].
    destruct (endsWith (file_name f) ".json") eqn:Hname; simpl; [|congruence].
    change (10 * 1024 * 1024)%N with 10485760%N.
    destruct (N.ltb_spec 10485760 (file_size f)) as [_|Hsmall]; [simpl; congruence|].
    destruct (file_text f) as [content|] eqn:Htext; [|simpl; congruence].
    destruct (String.eqb content EmptyString
              || String.eqb (trim content) EmptyString) eqn:Hblank;
      [simpl; congruence|].
    simpl. intros _. exists f, content.
    apply orb_false_iff in Hblank. destruct Hblank as [_ Ht].
    apply String.eqb_neq in Ht.
    split; [reflexivity|]. split; [exact Hname|]. split; [exact Hsmall|].
    split; [exact Htext|]. split; [exact Ht|]. split; reflexivity.
Qed.

Lemma valid_has_records (content : string) :
  isValid (Validator.validateJsonContent clock content) = true ->
  Nat.eqb (List.length (validConcepts (Validator.validateJsonContent clock content))) 0
  = false.
Proof.
  unfold Validator.validateJsonContent.
  destruct (JSON_parse content) as [parsedData|e]; [|discriminate].
  rewrite (ValidatorFacts.validateParsed_flag clock parsedData).
  intros H. apply andb_prop in H. destruct H as [H _].
  apply Nat.ltb_lt in H.
  destruct (List.length (validConcepts (Validator.validateParsed clock parsedData)));
    [lia | reflexivity].
Qed.

(** X15.  Picking a readable ".json" file of at most 10 MB whose text is not
    blank and then committing: if the validator finds the text valid, the
    records become the merge of the records held with the accepted ones;
    otherwise they stay as they are. *)
Theorem pick_then_commit (f : File) (content : string) (st : AppState) :
  endsWith (file_name f) ".json" = true ->
  (file_size f <= 10485760)%N ->
  file_text f = Some content ->
  trim content <> EmptyString ->
  let r := Validator.validateJsonContent clock content in
  concepts (handleValidatedImport (handleImport clock (Some f) st))
  = if isValid r then mergeConcepts (concepts st) (validConcepts r) else concepts st.
Proof.
  intros Hname Hsize Htext Htrim. cbv zeta.
  assert (Hstaged : handleImport clock (Some f) st
                    = setLoading importDone
                        (stage content (Validator.validateJsonContent clock content) st)).
  { unfold handleImport. rewrite Hname. simpl.
    change (10 * 1024 * 1024)%N with 10485760%N.
    destruct (N.ltb_spec 10485760 (file_size f)) as [Hbig|_]; [lia|].
    rewrite Htext.
    destruct (String.eqb_spec content EmptyString) as [->|_].
    - exfalso. apply Htrim. reflexivity.
    - destruct (String.eqb_spec (trim content) EmptyString); [contradiction|].
      reflexivity. }
  rewrite Hstaged. unfold handleValidatedImport. simpl.
  destruct (isValid (Validator.validateJsonContent clock content)) eqn:Hv; simpl.
  - rewrite (valid_has_records content Hv). cbv zeta. unfold mergeConcepts.
    destruct (setItem _); reflexivity.
  - reflexivity.
Qed.

(** X16.  When writes to the cache go through, "the cache holds the records
    shown" is kept by every handler of the panel: picking a file,
    cancelling, committing an import, pushing and pulling. *)
Theorem cache_follows_records (st : AppState) :
  (forall cs, setItem cs = None) ->
  coherent st ->
  coherent (handleValidatedImport st)
  /\ coherent (handleSyncToDatabase st)
  /\ coherent (handleSyncFromDatabase st)
  /\ coherent (handleCancelImport st)
  /\ forall file, coherent (handleImport clock file st).
Proof.
  unfold coherent. intros Hset Hco. repeat split.
  - unfold handleValidatedImport.
    destruct (validationResult st) as [vr|]; [|exact Hco].
    destruct (negb (isValid vr) || Nat.eqb (List.length (validConcepts vr)) 0);
      [exact Hco|].
    cbv zeta. now rewrite Hset.
  - destruct (push_frame st) as [Hc [Hl _]]. now rewrite Hc, Hl.
  - unfold handleSyncFromDatabase.
    destruct (fetch SyncGET) as [result|e]; simpl; [|exact Hco].
    unfold applyRemote. destruct (res_success result); simpl; [|exact Hco].
    destruct (res_concepts result) as [[|c cs]|]; simpl; try exact Hco.
    now rewrite Hset.
  - exact Hco.
  - intros file. destruct (stage_frame file st) as [Hc [Hl _]].
    now rewrite Hc, Hl.
Qed.

End Staging.

End Handlers.

End SettingsMore.

(* ================================================================== *)
(** ** Further facts about the sync route *)

Module RouteMore.

Import JSString JS SyncRoute SyncRouteFacts Notions.

Lemma onError_failure (e : Thrown) :
  success (onError e) = false
  /\ In (status (onError e)) [400; 500; 503]
  /\ error (onError e) <> None
  /\ details (onError e) <> None
  /\ count (onError e) = None.
Proof.
  unfold onError. destruct e as [m|].
  - destruct (includes m "ENOTFOUND" || includes m "ECONNREFUSED");
      [|destruct (includes m "ValidationError")];
      simpl; repeat split; try discriminate; tauto.
  - simpl. repeat split; try discriminate; tauto.
Qed.

Section Route.

Context {server : Server}.

(** The loops run to the end exactly when no entry is [null] and every
    entry has a truthy value for each of the four required fields. *)
Lemma checkConcepts_all_present (cs : list json) :
  forall i : nat,
    checkConcepts i cs = AllPresent
    <-> Forall (fun c => isNull c = false /\ lacksRequired c = false) cs.
Proof.
  induction cs as [|c rest IH]; intros i.
  - split; [constructor | reflexivity].
  - destruct (isNull c) eqn:Hn.
    + destruct c; try discriminate. simpl. split; [discriminate|].
      intros H. inversion H as [|? ? [Hc _] _]. discriminate Hc.
    + rewrite checkConcepts_step by assumption.
      destruct (lacksRequired c) eqn:Hl.
      * destruct (checkFields_missing i c requiredFields Hl) as [f Hf].
        rewrite Hf. split; [discriminate|].
        intros H. inversion H as [|? ? [_ Hc] _]. congruence.
      * rewrite (checkFields_present i c requiredFields Hl), IH.
        split; intros H.
        -- constructor; [now split | assumption].
        -- now inversion H.
Qed.

Lemma checkConcepts_outcome (cs : list json) :
  forall i : nat,
    checkConcepts i cs = AllPresent
    \/ (exists j f, checkConcepts i cs = Rejected (missingRequired j f))
    \/ (exists e, checkConcepts i cs = Raised e).
Proof.
  induction cs as [|c rest IH]; intros i; [now left|].
  destruct (isNull c) eqn:Hn.
  - destruct c; try discriminate. right. right. simpl. eauto.
  - rewrite checkConcepts_step by assumption.
    destruct (lacksRequired c) eqn:Hl.
    + destruct (checkFields_missing i c requiredFields Hl) as [f Hf].
      rewrite Hf. right. left. eauto.
    + rewrite (checkFields_present i c requiredFields Hl). apply IH.
Qed.


(** X18.  A non-empty array that passes the checks replaces the collection
    whatever it held: the answer and the collection afterwards do not
    depend on the records stored before.  When the insert succeeds the
    answer is success with the number of records sent; when it fails the
    answer is a failure and the collection is what the failed insert left,
    the records deleted are not put back. *)
Theorem replace_ignores_old_records (b : json) (cs : list json) (db : list json) :
  dbConnect = None ->
  deleteMany = None ->
  get "concepts" b = Some (JArr cs) ->
  Forall (fun c => isNull c = false /\ lacksRequired c = false) cs ->
  cs <> [] ->
  POST (Normal b) db = POST (Normal b) []
  /\ (forall docs, insertMany cs = Inserted docs ->
                   POST (Normal b) db = (synced (List.length cs), docs)
                   /\ count (synced (List.length cs)) = Some (List.length cs))
  /\ (forall e remaining, insertMany cs = InsertFailed e remaining ->
                          snd (POST (Normal b) db) = remaining
                          /\ success (fst (POST (Normal b) db)) = false).
Proof.
  intros Hconn Hdel Hget Hall Hne.
  assert (Hrun : forall d, POST (Normal b) d
                           = match insertMany cs with
                             | Inserted docs => (synced (List.length cs), docs)
                             | InsertFailed e remaining => (onError e, remaining)
                             end).
  { intros d. unfold POST. rewrite Hconn. unfold readConcepts. simpl.
    destruct b; try discriminate. rewrite Hget.
    unfold replaceAll.
    rewrite (proj2 (checkConcepts_all_present cs 0) Hall), Hdel.
    destruct cs; [congruence | reflexivity]. }
  split; [now rewrite !Hrun|]. split.
  - intros docs Hins. rewrite Hrun, Hins. split; reflexivity.
  - intros e remaining Hins. rewrite Hrun, Hins. simpl.
    split; [reflexivity | apply onError_failure].
Qed.

(** X19.  Every answer of the route is one of two shapes.  A success has status
    200, a message and the count; a failure has status 400, 500 or 503, an
    error and its details, and no count. *)
Theorem answer_shapes (body : Completion json) (db : list json) :
  let r := fst (POST body db) in
  (success r = true /\ status r = 200 /\ message r <> None
   /\ exists n, count r = Some n)
  \/ (success r = false /\ In (status r) [400; 500; 503]
      /\ error r <> None /\ details r <> None /\ count r = None).
Proof.
  cbv zeta.
  assert (Hfail : forall e, (success (onError e) = true /\ status (onError e) = 200
                             /\ message (onError e) <> None
                             /\ exists n, count (onError e) = Some n)
                            \/ (success (onError e) = false
                                /\ In (status (onError e)) [400; 500; 503]
                                /\ error (onError e) <> None
                                /\ details (onError e) <> None
                                /\ count (onError e) = None)).
  { intros e. right. apply onError_failure. }
  assert (Hok : forall n, (success (synced n) = true /\ status (synced n) = 200
                           /\ message (synced n) <> None
                           /\ exists k, count (synced n) = Some k)
                          \/ (success (synced n) = false
                              /\ In (status (synced n)) [400; 500; 503]
                              /\ error (synced n) <> None
                              /\ details (synced n) <> None
                              /\ count (synced n) = None)).
  { intros n. left. simpl. repeat split; try discriminate. now exists n. }
  assert (Hbad : forall code err det,
             code = 400 ->
             (success (failure code err det) = true /\ status (failure code err det) = 200
              /\ message (failure code err det) <> None
              /\ exists k, count (failure code err det) = Some k)
             \/ (success (failure code err det) = false
                 /\ In (status (failure code err det)) [400; 500; 503]
                 /\ error (failure code err det) <> None
                 /\ details (failure code err det) <> None
                 /\ count (failure code err det) = None)).
  { intros code err det ->. right. simpl. repeat split; try discriminate. tauto. }
  unfold POST. destruct dbConnect as [e|]; [apply Hfail|].
  destruct (readConcepts body) as [[v|]|e]; simpl;
    [| apply (Hbad 400 _ _ eq_refl) | apply Hfail].
  destruct v as [|x|q|s|cs|l]; simpl; try apply (Hbad 400 _ _ eq_refl).
  unfold replaceAll.
  destruct (checkConcepts_outcome cs 0) as [H | [[j [f H]] | [e H]]]; rewrite H; simpl.
  - destruct deleteMany as [e|]; simpl; [apply Hfail|].
    destruct (Nat.ltb 0 (List.length cs)); simpl; [|apply Hok].
    destruct (insertMany cs) as [docs|e remaining]; simpl; [apply Hok | apply Hfail].
  - apply (Hbad 400 _ _ eq_refl).
  - apply Hfail.
Qed.

Section Wire.

Context {engine : Engine}.
Variable clock : Clock.
Variable toISOString : Z -> string.

Lemma get_entry_skip (key other : string) (v : option string)
      (rest : list (string * json)) :
  String.eqb other key = false ->
  assoc key (Wire.entry other JStr v ++ rest) = assoc key rest.
Proof.
  intros Hne. destruct v as [a|]; simpl; [now rewrite Hne | reflexivity].
Qed.

Lemma conceptJSON_complete (k : Concept) :
  complete k ->
  isNull (Wire.conceptJSON toISOString k) = false
  /\ lacksRequired (Wire.conceptJSON toISOString k) = false.
Proof.
  intros [Htitle [Htopic [Hdef Hkw]]]. split; [reflexivity|].
  unfold lacksRequired, requiredFields, Wire.conceptJSON, get. simpl existsb.
  rewrite !get_entry_skip by reflexivity. simpl.
  apply String.eqb_neq in Htitle, Htopic, Hdef, Hkw.
  now rewrite Htitle, Htopic, Hdef, Hkw.
Qed.

Lemma normalized_complete (k : Concept) : normalized k -> complete k.
Proof.
  unfold normalized, complete.
  intros [[H1 _] [[H2 _] [[H3 _] [[H4 _] _]]]]. auto.
Qed.

(** X20.  Whatever the validator accepts, the route accepts: the records of a
    validation result, sent as the push sends them, pass the required-field
    loops of the route.  With the database reachable, their push is
    answered with success unless the insert itself fails. *)
Theorem validated_records_pass_route (content : string) (db : list json) :
  let cs := validConcepts (Validator.validateJsonContent clock content) in
  let sent := map (Wire.conceptJSON toISOString) cs in
  checkConcepts 0 sent = AllPresent
  /\ (dbConnect = None ->
      deleteMany = None ->
      success (fst (POST (Normal (Wire.syncBody toISOString cs)) db)) = true
      \/ exists e remaining, insertMany sent = InsertFailed e remaining).
Proof.
  cbv zeta.
  assert (Hall : Forall (fun c => isNull c = false /\ lacksRequired c = false)
                        (map (Wire.conceptJSON toISOString)
                             (validConcepts (Validator.validateJsonContent clock content)))).
  { apply Forall_map.
    eapply Forall_impl; [|apply (ValidatorMore.validated_normalized clock content)].
    intros k Hk. apply conceptJSON_complete. now apply normalized_complete. }
  split; [now apply (checkConcepts_all_present _ 0)|].
  intros Hconn Hdel. unfold POST. rewrite Hconn.
  unfold readConcepts, Wire.syncBody. simpl. unfold replaceAll.
  rewrite (proj2 (checkConcepts_all_present _ 0) Hall), Hdel.
  destruct (Nat.ltb 0 _); [|now left].
  destruct (insertMany _) as [docs|e remaining]; [now left | right; eauto].
Qed.

End Wire.

End Route.

End RouteMore.

(* ================================================================== *)
(** ** Facts about the list and search components *)

Module ListingFacts.

Import JSString JS Listing Notions StringFacts.

Lemma eqb_lower_empty (s : string) :
  String.eqb (toLowerCase s) EmptyString = String.eqb s EmptyString.
Proof. destruct s; reflexivity. Qed.

Lemma matchesQuery_mono (a b : string) (c : Concept) :
  (forall s, includes s a = true -> includes s b = true) ->
  matchesQuery a c = true -> matchesQuery b c = true.
Proof.
  intros Hmono. unfold matchesQuery. rewrite !orb_true_iff.
  intros H. repeat (destruct H as [H|H]; [|now auto 10]). auto 10.
Qed.

Lemma filteredConcepts_sub (cs : list Concept) (q : string) (c : Concept) :
  In c (filteredConcepts cs q) -> In c cs.
Proof.
  unfold filteredConcepts. destruct (String.eqb (trim q) EmptyString); [auto|].
  intros H. now apply filter_In in H.
Qed.

(** X21.  The search ignores the letter case of the query and the white space
    around it, and never shows a record that is not in the list.  A record
    whose title contains the query, letter case and surrounding white
    space aside, is shown. *)
Theorem search_ignores_case_and_padding (cs : list Concept) (q : string) :
  filteredConcepts cs (toLowerCase q) = filteredConcepts cs q
  /\ filteredConcepts cs (trim q) = filteredConcepts cs q
  /\ (forall c, In c (filteredConcepts cs q) -> In c cs)
  /\ (forall c, In c cs ->
                occursIn (toLowerCase (trim q)) (toLowerCase (title c)) ->
                In c (filteredConcepts cs q)).
Proof.
  split; [|split; [|split]].
  - unfold filteredConcepts.
    now rewrite toLowerCase_idem, (trim_lower q), eqb_lower_empty.
  - unfold filteredConcepts.
    now rewrite trim_idem, <- (trim_lower q), trim_idem.
  - intros c. apply filteredConcepts_sub.
  - intros c Hin Hocc. unfold filteredConcepts.
    destruct (String.eqb (trim q) EmptyString); [assumption|].
    cbv zeta. apply filter_In. split; [assumption|].
    rewrite trim_lower. unfold matchesQuery.
    apply includes_occurs in Hocc. now rewrite Hocc.
Qed.

(** X22.  Extending the query only narrows the result: when the query [q1],
    lower-cased and trimmed, occurs in [q2], lower-cased and trimmed, every
    record shown for [q2] is shown for [q1]. *)
Theorem search_narrows (cs : list Concept) (q1 q2 : string) :
  includes (trim (toLowerCase q2)) (trim (toLowerCase q1)) = true ->
  forall c, In c (filteredConcepts cs q2) -> In c (filteredConcepts cs q1).
Proof.
  intros Hsub c Hin. pose proof (filteredConcepts_sub cs q2 c Hin) as Hc.
  unfold filteredConcepts in *.
  destruct (String.eqb_spec (trim q1) EmptyString) as [E1|N1]; [assumption|].
  destruct (String.eqb_spec (trim q2) EmptyString) as [E2|N2].
  - exfalso. rewrite (trim_lower q2), E2 in Hsub. simpl toLowerCase in Hsub.
    apply includes_empty in Hsub. rewrite trim_lower in Hsub.
    apply (proj1 (toLowerCase_empty (trim q1))) in Hsub. contradiction.
  - cbv zeta in *. apply filter_In in Hin. destruct Hin as [_ Hm].
    apply filter_In. split; [assumption|].
    apply (matchesQuery_mono (trim (toLowerCase q2))); [|assumption].
    intros s Hs. now apply (includes_trans s (trim (toLowerCase q2))).
Qed.

Lemma membersOf_snoc (t : string) (done : list Concept) (c : Concept) :
  membersOf t (done ++ [c])
  = membersOf t done ++ (if String.eqb (topic c) t then [c] else []).
Proof. unfold membersOf. rewrite filter_app. reflexivity. Qed.

Lemma group_pushTo (t0 t : string) (c : Concept) (g : Groups) (m : list Concept) :
  group t0 g = Some m ->
  group t (pushTo t0 c g) = if String.eqb t0 t then Some (m ++ [c]) else group t g.
Proof.
  induction g as [|[k ms] rest IH]; simpl; [discriminate|].
  destruct (String.eqb_spec k t0) as [->|Hk].
  - intros [= ->]. simpl. now destruct (String.eqb t0 t).
  - intros Hg. simpl. destruct (String.eqb_spec k t) as [->|Hkt].
    + destruct (String.eqb_spec t0 t) as [->|_]; [congruence | reflexivity].
    + now apply IH.
Qed.

Lemma group_new (t0 t : string) (m : list Concept) (g : Groups) :
  group t (g ++ [(t0, m)])
  = match group t g with
    | Some x => Some x
    | None => if String.eqb t0 t then Some m else None
    end.
Proof.
  induction g as [|[k ms] rest IH]; simpl; [reflexivity|].
  destruct (String.eqb k t); [reflexivity | exact IH].
Qed.

Section Grouping.

Context {prototype : Prototype}.

Lemma addToGroup_groups (g : Groups) (done : list Concept) (c : Concept) :
  (forall t, group t g = groupOf t done) ->
  inherited (topic c) = false ->
  exists g', addToGroup g c = Normal g'
             /\ forall t, group t g' = groupOf t (done ++ [c]).
Proof.
  intros Hinv Hni. unfold addToGroup.
  destruct (group (topic c) g) as [m|] eqn:Hg.
  - eexists. split; [reflexivity|]. intros t.
    rewrite (group_pushTo (topic c) t c g m Hg).
    unfold groupOf. rewrite membersOf_snoc.
    destruct (String.eqb_spec (topic c) t) as [<-|Hne].
    + rewrite Hinv in Hg. unfold groupOf in Hg.
      destruct (membersOf (topic c) done) as [|x xs]; [discriminate|].
      injection Hg as <-. reflexivity.
    + rewrite app_nil_r. apply Hinv.
  - rewrite Hni. eexists. split; [reflexivity|]. intros t.
    rewrite group_new. unfold groupOf. rewrite membersOf_snoc.
    destruct (String.eqb_spec (topic c) t) as [<-|Hne].
    + rewrite Hg. rewrite Hinv in Hg. unfold groupOf in Hg.
      destruct (membersOf (topic c) done) as [|x xs]; [reflexivity | discriminate].
    + rewrite app_nil_r. rewrite Hinv. unfold groupOf.
      now destruct (membersOf t done).
Qed.

Lemma reduce_groups (rest : list Concept) :
  forall (g : Groups) (done : list Concept),
    (forall t, group t g = groupOf t done) ->
    (forall c, In c rest -> inherited (topic c) = false) ->
    exists g', reduce rest g = Normal g'
               /\ forall t, group t g' = groupOf t (done ++ rest).
Proof.
  induction rest as [|c rest IH]; intros g done Hinv Hni; simpl.
  - exists g. split; [reflexivity|]. now rewrite app_nil_r.
  - destruct (addToGroup_groups g done c Hinv (Hni c (or_introl eq_refl)))
      as [g1 [E1 H1]].
    rewrite E1. simpl.
    destruct (IH g1 (done ++ [c]) H1 (fun x Hx => Hni x (or_intror Hx)))
      as [g' [E' H']].
    exists g'. split; [assumption|]. intros t. rewrite H'.
    now rewrite <- app_assoc.
Qed.

Lemma addToGroup_keys (g g' : Groups) (c : Concept) :
  (forall t, group t g <> None -> inherited t = false) ->
  addToGroup g c = Normal g' ->
  inherited (topic c) = false
  /\ forall t, group t g' <> None -> inherited t = false.
Proof.
  intros Hinv. unfold addToGroup.
  destruct (group (topic c) g) as [m|] eqn:Hg.
  - intros [= <-]. split; [apply Hinv; congruence|]. intros t.
    rewrite (group_pushTo (topic c) t c g m Hg).
    destruct (String.eqb_spec (topic c) t) as [<-|_]; [|apply Hinv].
    intros _. apply Hinv. congruence.
  - destruct (inherited (topic c)) eqn:Hi; [discriminate|].
    intros [= <-]. split; [reflexivity|]. intros t. rewrite group_new.
    destruct (group t g) eqn:Ht; [intros _; apply Hinv; congruence|].
    destruct (String.eqb_spec (topic c) t) as [<-|_]; [now intros _ | congruence].
Qed.

Lemma reduce_throws (rest : list Concept) :
  forall g : Groups,
    (forall t, group t g <> None -> inherited t = false) ->
    (exists c, In c rest /\ inherited (topic c) = true) ->
    exists e, reduce rest g = Throw e.
Proof.
  induction rest as [|c rest IH]; intros g Hinv [x [Hx Hi]]; [destruct Hx|].
  simpl. destruct (addToGroup g c) as [g1|e] eqn:Ha; simpl; [|eauto].
  destruct (addToGroup_keys g g1 c Hinv Ha) as [Hc Hinv1].
  apply IH; [assumption|].
  destruct Hx as [<-|Hx]; [congruence|]. now exists x.
Qed.

(** X23.  Grouping by topic: when no topic is a name inherited from the object
    prototype, every topic that occurs gets one group, holding exactly the
    records of that topic in their order, and no other name gets a group.
    When some record has such a name for topic ("constructor", "toString",
    ...), the grouping raises and nothing is grouped. *)
Theorem grouping_by_topic (cs : list Concept) :
  ((forall c, In c cs -> inherited (topic c) = false) ->
   exists g, groupedConcepts cs = Normal g
             /\ forall t, group t g = groupOf t cs)
  /\ ((exists c, In c cs /\ inherited (topic c) = true) ->
      exists e, groupedConcepts cs = Throw e).
Proof.
  unfold groupedConcepts. split.
  - intros Hni. apply (reduce_groups cs [] []); [reflexivity | assumption].
  - intros Hex. apply reduce_throws; [|assumption]. intros t H. now elim H.
Qed.

End Grouping.

Lemma hasId_spec (id : string) (c : Concept) :
  hasId id c = true <-> _id c = Some id.
Proof.
  unfold hasId. destruct (_id c) as [i|]; [|split; discriminate].
  rewrite String.eqb_eq. split; [now intros -> | now intros [= ->]].
Qed.

Section Crud.

Context {api : Api}.

(** X24.  Deleting removes the records that carry the identifier and nothing
    else: without the user's confirmation nothing happens, not even a
    request; when the server does not answer with success, records and
    cache stay; when it does, exactly the records with that identifier go.
    A record without identifier, such as one that was imported and never
    synchronised, cannot be deleted from its card. *)
Theorem delete_removes_that_record (confirmed : bool) (id : string) (st : ListState) :
  let st' := handleDelete confirmed id st in
  (confirmed = false -> st' = st)
  /\ (forall c, In c (l_concepts st') -> In c (l_concepts st))
  /\ ((forall d, crud (DeleteConcept id) <> Normal (Succeeded d)) ->
      l_concepts st' = l_concepts st /\ l_localStorage st' = l_localStorage st)
  /\ (forall d,
         confirmed = true ->
         crud (DeleteConcept id) = Normal (Succeeded d) ->
         (forall c, In c (l_concepts st') <-> In c (l_concepts st) /\ _id c <> Some id)
         /\ (storeItem (l_concepts st') = None ->
             l_localStorage st' = Some (l_concepts st')))
  /\ (forall c, _id c = None -> cardDelete confirmed c st = st).
Proof.
  cbv zeta. unfold handleDelete. split; [|split; [|split; [|split]]].
  - now intros ->.
  - intros c. destruct confirmed; simpl; [|auto].
    destruct (crud (DeleteConcept id)) as [[d|]|e]; simpl; auto.
    intros H. now apply filter_In in H.
  - intros Hno. destruct confirmed; simpl; [|auto].
    destruct (crud (DeleteConcept id)) as [[d|]|e] eqn:Hc; simpl; auto.
    exfalso. now apply (Hno d).
  - intros d -> Hc. simpl. rewrite Hc. simpl. split.
    + intros c. rewrite filter_In. split.
      * intros [Hin Hid]. split; [assumption|]. intros H.
        apply hasId_spec in H. now rewrite H in Hid.
      * intros [Hin Hid]. split; [assumption|].
        destruct (hasId id c) eqn:Hh; [|reflexivity].
        apply hasId_spec in Hh. contradiction.
    + intros Hs. now rewrite Hs.
  - intros c Hc. unfold cardDelete. now rewrite Hc.
Qed.

Lemma nth_error_replace (id : string) (saved : Concept) (cs : list Concept) :
  forall n c,
    nth_error cs n = Some c ->
    nth_error (map (fun x => if hasId id x then saved else x) cs) n
    = Some (if hasId id c then saved else c).
Proof.
  intros n c H. rewrite nth_error_map, H. reflexivity.
Qed.

(** X25.  Saving sends one request, a PUT for the identifier being edited or
    else a POST, and ends with the busy flag down.  Without an identifier
    to edit, a successful save puts the new record in front of the list;
    with one, it replaces in place every record that carries the
    identifier and leaves the others where they are.  When the request
    that was sent is not answered with success, records and cache stay,
    whatever the server would have answered to another request.  Editing a
    record that has no identifier, such as an imported one, therefore adds
    a record and leaves the edited one in the list. *)
Theorem save_prepends_or_replaces (data : FormData) (st : ListState) :
  let st' := handleSave data st in
  let sent := match editingId st with
              | Some id => PutConcept id data
              | None => PostConcept data
              end in
  l_isLoading st' = false
  /\ l_requests st' = l_requests st ++ [sent]
  /\ (forall saved,
         editingId st = None ->
         crud (PostConcept data) = Normal (Succeeded saved) ->
         l_concepts st' = saved :: l_concepts st)
  /\ (forall id saved,
         editingId st = Some id ->
         crud (PutConcept id data) = Normal (Succeeded saved) ->
         List.length (l_concepts st') = List.length (l_concepts st)
         /\ forall n c, nth_error (l_concepts st) n = Some c ->
                        nth_error (l_concepts st') n
                        = Some (if hasId id c then saved else c))
  /\ ((forall saved, crud sent <> Normal (Succeeded saved)) ->
      l_concepts st' = l_concepts st /\ l_localStorage st' = l_localStorage st)
  /\ (forall c saved,
         _id c = None ->
         crud (PostConcept data) = Normal (Succeeded saved) ->
         l_concepts (handleSave data (handleEdit c st)) = saved :: l_concepts st).
Proof.
  cbv zeta. split; [|split; [|split; [|split; [|split]]]].
  - unfold handleSave.
    destruct (crud _) as [[saved|]|e]; simpl; try reflexivity.
    destruct (storeItem _); reflexivity.
  - unfold handleSave.
    destruct (crud _) as [[saved|]|e]; simpl; try reflexivity.
    destruct (storeItem _); reflexivity.
  - intros saved He Hc. unfold handleSave. rewrite He, Hc. simpl.
    destruct (storeItem _); reflexivity.
  - intros id saved He Hc. unfold handleSave. rewrite He, Hc. simpl.
    assert (Hl : l_concepts
                   match storeItem (map (fun c => if hasId id c then saved else c)
                                        (l_concepts st)) with
                   | Some _ =>
                       mkList (map (fun c => if hasId id c then saved else c)
                                   (l_concepts st))
                              (l_localStorage st) (showForm st) (editingConcept st)
                              (viewingConcept st) false
                              (l_requests st ++ [PutConcept id data])
                   | None =>
                       mkList (map (fun c => if hasId id c then saved else c)
                                   (l_concepts st))
                              (Some (map (fun c => if hasId id c then saved else c)
                                         (l_concepts st)))
                              false None (viewingConcept st) false
                              (l_requests st ++ [PutConcept id data])
                   end
                 = map (fun c => if hasId id c then saved else c) (l_concepts st)).
    { destruct (storeItem _); reflexivity. }
    rewrite Hl. split; [apply length_map | apply nth_error_replace].
  - intros Hno. unfold handleSave.
    destruct (crud _) as [[saved|]|e] eqn:Hc; simpl; auto.
    exfalso. exact (Hno saved eq_refl).
  - intros c saved Hid Hc. unfold handleSave, handleEdit, editingId. simpl.
    rewrite Hid, Hc. simpl. destruct (storeItem _); reflexivity.
Qed.

End Crud.

Section Form.

Context {engine : Engine}.
Variable clock : Clock.

(** X26.  The edit form shows every text of a record as it is, and its topic
    number as it is unless that number is zero, which it shows, and will
    submit, as 1.  So the form gives back the record's own fields exactly
    when the topic number is not zero; a record that the validator built
    from an entry without [topicID] is shown with topic number 1. *)
Theorem form_turns_zero_topic_into_one (c : Concept) :
  let f := initialFormData (Some c) in
  (f_topic f = topic c /\ f_title f = title c /\ f_definition f = definition c
   /\ f_detailedExplanation f = detailedExplanation c
   /\ f_whenToUse f = whenToUse c /\ f_whyNeed f = whyNeed c
   /\ f_codeExample f = codeExample c /\ f_keyword f = keyword c
   /\ f_differences f = differences c)
  /\ (f = formFields c <-> isZero (topicID c) = false)
  /\ (isZero (topicID c) = true -> f_topicID f = 1%Q)
  /\ (forall i entry,
         Validator.buildConcept clock i entry = Normal c ->
         get "topicID" entry = None ->
         f_topicID f = 1%Q).
Proof.
  cbv zeta. split; [repeat split|]. split; [|split].
  - unfold initialFormData, formFields. destruct (isZero (topicID c)) eqn:Hz.
    + split; [|discriminate]. intros H. injection H as H.
      unfold isZero in Hz. rewrite <- H in Hz. discriminate Hz.
    + split; reflexivity.
  - intros Hz. simpl. now rewrite Hz.
  - intros i entry Hb Hget.
    destruct (ValidatorMore.buildConcept_fields clock i entry c Hb)
      as [_ [_ [_ [_ [_ [_ [_ [_ [_ [Ht _]]]]]]]]]].
    simpl. rewrite Ht. unfold Validator.topicIDOrZero. rewrite Hget. reflexivity.
Qed.

End Form.

End ListingFacts.

(* ================================================================== *)
(** ** The further properties on concrete inputs *)

Module MoreExamples.

Import JSString JS Validator Notions Samples MoreSamples.

Lemma non_object_entry_witness :
  nth_error [wholesome; JNull] 1 = Some JNull
  /\ isRecord JNull = false
  /\ reaches (clockAt 0) [wholesome; JNull] 1
  /\ filter (atIndex 1) (errors (validateParsed (clockAt 0) (JArr [wholesome; JNull])))
     = [mkError t_error "Concept at position 2 is not a valid object"
                None None (Some 1)]
  /\ isValid (validateParsed (clockAt 0) (JArr [wholesome; JNull])) = false.
Proof.
  assert (H1 : nth_error [wholesome; JNull] 1 = Some JNull) by reflexivity.
  assert (H2 : isRecord JNull = false) by reflexivity.
  assert (H3 : reaches (clockAt 0) [wholesome; JNull] 1) by reflexivity.
  destruct (ValidatorMore.non_object_entry (clockAt 0) [wholesome; JNull] 1 JNull
              H1 H2 H3) as [Ha Hb].
  exact (conj H1 (conj H2 (conj H3 (conj Ha Hb)))).
Defined.

Lemma unknown_field_warning_witness :
  nth_error [withColor] 0 = Some withColor
  /\ isRecord withColor = true
  /\ reaches (clockAt 0) [withColor] 0
  /\ In "color" (keys withColor)
  /\ includesString allValidFields "color" = false
  /\ In (unknownField 0 "color")
        (errors (validateParsed (clockAt 0) (JArr [withColor]))).
Proof.
  assert (H1 : nth_error [withColor] 0 = Some withColor) by reflexivity.
  assert (H2 : isRecord withColor = true) by reflexivity.
  assert (H3 : reaches (clockAt 0) [withColor] 0) by reflexivity.
  assert (H4 : In "color" (keys withColor)) by (simpl; tauto).
  assert (H5 : includesString allValidFields "color" = false) by reflexivity.
  exact (conj H1 (conj H2 (conj H3 (conj H4 (conj H5
           (proj2 (ValidatorMore.unknown_field_warning
                     (clockAt 0) [withColor] 0 withColor "color" H1 H2 H3)
                  (conj H4 H5))))))).
Defined.

Lemma duplicate_warning_iff_witness :
  nth_error scenario 1 = Some (recordOf "a" "T2" "D2" "K2")
  /\ titleKey (recordOf "a" "T2" "D2" "K2") = Some "a"
  /\ reaches (clockAt 0) scenario 1
  /\ (In (duplicateTitle 1 "a") (errors (validateParsed (clockAt 0) (JArr scenario)))
      <-> exists i ci, i < 1 /\ nth_error scenario i = Some ci
                       /\ titleKey ci = Some "a").
Proof.
  assert (H1 : nth_error scenario 1 = Some (recordOf "a" "T2" "D2" "K2"))
    by reflexivity.
  assert (H2 : titleKey (recordOf "a" "T2" "D2" "K2") = Some "a") by reflexivity.
  assert (H3 : reaches (clockAt 0) scenario 1) by reflexivity.
  exact (conj H1 (conj H2 (conj H3
           (ValidatorMore.duplicate_warning_iff
              (clockAt 0) scenario 1 (recordOf "a" "T2" "D2" "K2") "a" H1 H2 H3)))).
Defined.

Lemma summary_iff_valid_witness :
  isValid (validateJsonContent (clockAt 0) singleText) = true
  /\ infoCount (errors (validateJsonContent (clockAt 0) singleText)) = 1
  /\ exists before,
      errors (validateJsonContent (clockAt 0) singleText)
      = before ++ [summary (List.length
                              (validConcepts (validateJsonContent (clockAt 0) singleText)))].
Proof.
  assert (H1 : isValid (validateJsonContent (clockAt 0) singleText) = true)
    by reflexivity.
  destruct (ValidatorMore.summary_iff_valid (clockAt 0) singleText) as [Ha [Hb _]].
  rewrite H1 in Ha.
  exact (conj H1 (conj Ha (Hb H1))).
Defined.

Lemma root_must_be_array_witness :
  let bare := textOf "A" "T" "D" "K" in
  @JSON_parse recordEngine bare = Normal wholesome
  /\ @wellFormed recordEngine wholesome = true
  /\ @JSON_parse recordEngine singleText = Normal (JArr [wholesome])
  /\ @validateJsonContent recordEngine (clockAt 0) bare
     = mkResult false [rootNotArray] [] 0
  /\ isValid (@validateJsonContent recordEngine (clockAt 0) singleText) = true.
Proof.
  cbv zeta.
  assert (H1 : @JSON_parse recordEngine (textOf "A" "T" "D" "K") = Normal wholesome)
    by reflexivity.
  assert (H2 : @wellFormed recordEngine wholesome = true) by reflexivity.
  assert (H3 : @JSON_parse recordEngine singleText = Normal (JArr [wholesome]))
    by reflexivity.
  destruct (@ValidatorMore.root_must_be_array recordEngine (clockAt 0)
              (textOf "A" "T" "D" "K")) as [_ [_ Hw]].
  destruct (Hw wholesome singleText H1 H2 H3) as [Hbare [Hvalid _]].
  exact (conj H1 (conj H2 (conj H3 (conj Hbare Hvalid)))).
Defined.

Lemma optional_text_not_a_string_witness :
  nth_error [wholesome; numericOptional] 1 = Some numericOptional
  /\ reaches (clockAt 0) [wholesome; numericOptional] 1
  /\ rejected 1 numericOptional = false
  /\ In "whyNeed" optionalStrings
  /\ optionalOk numericOptional "whyNeed" = false
  /\ validConcepts (validateParsed (clockAt 0) (JArr [wholesome; numericOptional])) = []
  /\ isValid (validateParsed (clockAt 0) (JArr [wholesome; numericOptional])) = false.
Proof.
  assert (H1 : nth_error [wholesome; numericOptional] 1 = Some numericOptional)
    by reflexivity.
  assert (H2 : reaches (clockAt 0) [wholesome; numericOptional] 1) by reflexivity.
  assert (H3 : rejected 1 numericOptional = false) by reflexivity.
  assert (H4 : In "whyNeed" optionalStrings) by (simpl; tauto).
  assert (H5 : optionalOk numericOptional "whyNeed" = false) by reflexivity.
  destruct (ValidatorMore.optional_text_not_a_string
              (clockAt 0) [wholesome; numericOptional] 1 numericOptional "whyNeed"
              H1 H2 H3 H4 H5) as [Ha [Hb _]].
  exact (conj H1 (conj H2 (conj H3 (conj H4 (conj H5 (conj Ha Hb)))))).
Defined.

Import Settings FileImport.

Lemma merge_laws_witness :
  In (conceptOf "B") [conceptOf "a"; conceptOf "B"]
  /\ matchesExisting (mergeConcepts [conceptOf "A"] [conceptOf "a"; conceptOf "B"])
                     (conceptOf "B") = true.
Proof.
  assert (H : In (conceptOf "B") [conceptOf "a"; conceptOf "B"]) by (simpl; tauto).
  destruct (SettingsMore.merge_laws [conceptOf "A"] [conceptOf "a"; conceptOf "B"])
    as [_ [_ [Hm _]]].
  exact (conj H (Hm (conceptOf "B") H)).
Defined.

Lemma import_is_additive_witness :
  requests (handleValidatedImport importing) = requests importing
  /\ exists added,
      concepts (handleValidatedImport importing) = concepts importing ++ added
      /\ forall c, In c added ->
                   exists vr, validationResult importing = Some vr
                              /\ In c (validConcepts vr).
Proof.
  destruct (SettingsMore.import_is_additive importing) as [Ha [Hr _]].
  exact (conj Hr Ha).
Defined.

Lemma push_leaves_local_state_witness :
  concepts (handleSyncToDatabase (sampleState [conceptOf "A"])) = [conceptOf "A"]
  /\ requests (handleSyncToDatabase (sampleState [conceptOf "A"]))
     = [SyncPOST [conceptOf "A"]].
Proof.
  destruct (SettingsMore.push_leaves_local_state (sampleState [conceptOf "A"]))
    as [Hc [_ [_ [Hr _]]]].
  exact (conj Hc Hr).
Defined.

Lemma pull_replaces_and_repeats_witness :
  remoteSet <> []
  /\ concepts (handleSyncFromDatabase (browser := remoteBrowser)
                                      (sampleState [conceptOf "A"]))
     = remoteSet
  /\ localStorage (handleSyncFromDatabase (browser := remoteBrowser)
                                          (sampleState [conceptOf "A"]))
     = Some remoteSet.
Proof.
  assert (H : remoteSet <> []) by discriminate.
  destruct (@SettingsMore.pull_replaces_and_repeats remoteBrowser
              (sampleState [conceptOf "A"])) as [_ [_ [Hp _]]].
  destruct (Hp (mkSyncResult true None (Some 1) (Some remoteSet) None None) remoteSet
               eq_refl eq_refl eq_refl H eq_refl) as [Hc [Hl _]].
  exact (conj H (conj Hc Hl)).
Defined.

Lemma file_import_gate_witness :
  (endsWith (file_name tooLarge) ".json" = false
   \/ (10485760 < file_size tooLarge)%N)
  /\ validationResult (handleImport (clockAt 0) (Some tooLarge) (sampleState []))
     = None
  /\ concepts (handleImport (clockAt 0) (Some (jsonFile singleText)) (sampleState []))
     = [].
Proof.
  assert (H : endsWith (file_name tooLarge) ".json" = false
              \/ (10485760 < file_size tooLarge)%N) by (right; reflexivity).
  destruct (SettingsMore.file_import_gate (clockAt 0) (Some tooLarge) (sampleState []))
    as [_ [_ [_ [Hg _]]]].
  destruct (Hg tooLarge eq_refl H) as [Hv _].
  destruct (SettingsMore.file_import_gate (clockAt 0) (Some (jsonFile singleText))
                                          (sampleState []))
    as [Hc _].
  exact (conj H (conj Hv Hc)).
Defined.

Lemma pick_then_commit_witness :
  endsWith (file_name (jsonFile singleText)) ".json" = true
  /\ (file_size (jsonFile singleText) <= 10485760)%N
  /\ file_text (jsonFile singleText) = Some singleText
  /\ trim singleText <> EmptyString
  /\ concepts (handleValidatedImport
                 (handleImport (clockAt 0) (Some (jsonFile singleText))
                               (sampleState [conceptOf "B"])))
     = (if isValid (validateJsonContent (clockAt 0) singleText)
        then mergeConcepts [conceptOf "B"]
                           (validConcepts (validateJsonContent (clockAt 0) singleText))
        else [conceptOf "B"]).
Proof.
  assert (H1 : endsWith (file_name (jsonFile singleText)) ".json" = true)
    by reflexivity.
  assert (H2 : (file_size (jsonFile singleText) <= 10485760)%N) by discriminate.
  assert (H3 : file_text (jsonFile singleText) = Some singleText) by reflexivity.
  assert (H4 : trim singleText <> EmptyString) by discriminate.
  exact (conj H1 (conj H2 (conj H3 (conj H4
           (SettingsMore.pick_then_commit (clockAt 0) (jsonFile singleText) singleText
              (sampleState [conceptOf "B"]) H1 H2 H3 H4))))).
Defined.

Lemma cache_follows_records_witness :
  (forall cs, setItem cs = None)
  /\ coherent (sampleState [conceptOf "A"])
  /\ coherent (handleValidatedImport (sampleState [conceptOf "A"]))
  /\ coherent (handleSyncFromDatabase (sampleState [conceptOf "A"])).
Proof.
  assert (H1 : forall cs, setItem cs = None) by reflexivity.
  assert (H2 : coherent (sampleState [conceptOf "A"])) by reflexivity.
  destruct (SettingsMore.cache_follows_records (clockAt 0)
              (sampleState [conceptOf "A"]) H1 H2) as [Ha [_ [Hb _]]].
  exact (conj H1 (conj H2 (conj Ha Hb))).
Defined.

Import SyncRoute.


Lemma replace_ignores_old_records_witness :
  dbConnect = None
  /\ deleteMany = None
  /\ get "concepts" goodPush = Some (JArr [wholesome])
  /\ Forall (fun c => isNull c = false /\ lacksRequired c = false) [wholesome]
  /\ [wholesome] <> []
  /\ POST (Normal goodPush) [onlyTitle; onlyTitle] = POST (Normal goodPush) [].
Proof.
  assert (H1 : dbConnect = None) by reflexivity.
  assert (H2 : deleteMany = None) by reflexivity.
  assert (H3 : get "concepts" goodPush = Some (JArr [wholesome])) by reflexivity.
  assert (H4 : Forall (fun c => isNull c = false /\ lacksRequired c = false)
                      [wholesome]) by (repeat constructor).
  assert (H5 : [wholesome] <> []) by discriminate.
  exact (conj H1 (conj H2 (conj H3 (conj H4 (conj H5
           (proj1 (RouteMore.replace_ignores_old_records
                     goodPush [wholesome] [onlyTitle; onlyTitle] H1 H2 H3 H4 H5))))))).
Defined.

Lemma validated_records_pass_route_witness :
  dbConnect = None
  /\ deleteMany = None
  /\ checkConcepts 0 (map (Wire.conceptJSON isoStub)
                          (validConcepts (validateJsonContent (clockAt 0) singleText)))
     = AllPresent
  /\ (success (fst (POST (Normal (Wire.syncBody isoStub
                                    (validConcepts
                                       (validateJsonContent (clockAt 0) singleText))))
                         stored)) = true
      \/ exists e remaining,
          insertMany (map (Wire.conceptJSON isoStub)
                          (validConcepts (validateJsonContent (clockAt 0) singleText)))
          = InsertFailed e remaining).
Proof.
  assert (H1 : dbConnect = None) by reflexivity.
  assert (H2 : deleteMany = None) by reflexivity.
  destruct (RouteMore.validated_records_pass_route (clockAt 0) isoStub singleText stored)
    as [Ha Hb].
  exact (conj H1 (conj H2 (conj Ha (Hb H1 H2)))).
Defined.

Import Listing.

Lemma search_ignores_case_and_padding_witness :
  In (conceptOf "Alpha") [conceptOf "Alpha"; conceptOf "Beta"]
  /\ occursIn (toLowerCase (trim " LPH ")) (toLowerCase (title (conceptOf "Alpha")))
  /\ In (conceptOf "Alpha")
        (filteredConcepts [conceptOf "Alpha"; conceptOf "Beta"] " LPH ").
Proof.
  assert (H1 : In (conceptOf "Alpha") [conceptOf "Alpha"; conceptOf "Beta"])
    by (simpl; tauto).
  assert (H2 : occursIn (toLowerCase (trim " LPH "))
                        (toLowerCase (title (conceptOf "Alpha"))))
    by (exists "a", "a"; reflexivity).
  destruct (ListingFacts.search_ignores_case_and_padding
              [conceptOf "Alpha"; conceptOf "Beta"] " LPH ") as [_ [_ [_ Hf]]].
  exact (conj H1 (conj H2 (Hf (conceptOf "Alpha") H1 H2))).
Defined.

Lemma search_narrows_witness :
  includes (trim (toLowerCase "Alp")) (trim (toLowerCase "al")) = true
  /\ forall c, In c (filteredConcepts [conceptOf "Alpha"; conceptOf "Beta"] "Alp") ->
               In c (filteredConcepts [conceptOf "Alpha"; conceptOf "Beta"] "al").
Proof.
  assert (H : includes (trim (toLowerCase "Alp")) (trim (toLowerCase "al")) = true)
    by reflexivity.
  exact (conj H (ListingFacts.search_narrows
                   [conceptOf "Alpha"; conceptOf "Beta"] "al" "Alp" H)).
Defined.

Lemma grouping_by_topic_witness :
  (forall c, In c [topicOf "T"; topicOf "U"; topicOf "T"] -> inherited (topic c) = false)
  /\ (exists g, groupedConcepts [topicOf "T"; topicOf "U"; topicOf "T"] = Normal g
                /\ forall t, group t g
                             = groupOf t [topicOf "T"; topicOf "U"; topicOf "T"])
  /\ (exists c, In c [topicOf "T"; topicOf "constructor"]
                /\ inherited (topic c) = true)
  /\ exists e, groupedConcepts [topicOf "T"; topicOf "constructor"] = Throw e.
Proof.
  assert (H1 : forall c, In c [topicOf "T"; topicOf "U"; topicOf "T"] ->
                         inherited (topic c) = false).
  { intros c [<-|[<-|[<-|[]]]]; reflexivity. }
  assert (H2 : exists c, In c [topicOf "T"; topicOf "constructor"]
                         /\ inherited (topic c) = true).
  { exists (topicOf "constructor"). split; [simpl; tauto | reflexivity]. }
  exact (conj H1
           (conj (proj1 (ListingFacts.grouping_by_topic
                           [topicOf "T"; topicOf "U"; topicOf "T"]) H1)
                 (conj H2
                       (proj2 (ListingFacts.grouping_by_topic
                                 [topicOf "T"; topicOf "constructor"]) H2)))).
Defined.

Lemma delete_removes_that_record_witness :
  crud (DeleteConcept "x1") = Normal (Succeeded (savedAs "x1" "gone"))
  /\ (forall c,
         In c (l_concepts (handleDelete true "x1"
                                        (listOf [savedAs "x1" "A"; savedAs "x2" "B"])))
         <-> In c [savedAs "x1" "A"; savedAs "x2" "B"] /\ _id c <> Some "x1")
  /\ _id (conceptOf "A") = None
  /\ cardDelete true (conceptOf "A") (listOf [conceptOf "A"]) = listOf [conceptOf "A"].
Proof.
  assert (H1 : crud (DeleteConcept "x1") = Normal (Succeeded (savedAs "x1" "gone")))
    by reflexivity.
  assert (H2 : _id (conceptOf "A") = None) by reflexivity.
  destruct (ListingFacts.delete_removes_that_record
              true "x1" (listOf [savedAs "x1" "A"; savedAs "x2" "B"]))
    as [_ [_ [_ [Hd _]]]].
  destruct (ListingFacts.delete_removes_that_record
              true "x1" (listOf [conceptOf "A"])) as [_ [_ [_ [_ Hc]]]].
  exact (conj H1 (conj (proj1 (Hd _ eq_refl H1)) (conj H2 (Hc (conceptOf "A") H2)))).
Defined.

Lemma save_prepends_or_replaces_witness :
  _id (conceptOf "A") = None
  /\ crud (PostConcept (formOf "A2")) = Normal (Succeeded (savedAs "n1" "A2"))
  /\ l_concepts (handleSave (formOf "A2")
                            (handleEdit (conceptOf "A") (listOf [conceptOf "A"])))
     = [savedAs "n1" "A2"; conceptOf "A"]
  /\ (forall saved,
         @crud updatesRefused (PutConcept "x1" (formOf "A2"))
         <> Normal (Succeeded saved))
  /\ l_concepts (@handleSave updatesRefused (formOf "A2")
                             (handleEdit (savedAs "x1" "A")
                                         (listOf [savedAs "x1" "A"])))
     = [savedAs "x1" "A"].
Proof.
  assert (H1 : _id (conceptOf "A") = None) by reflexivity.
  assert (H2 : crud (PostConcept (formOf "A2")) = Normal (Succeeded (savedAs "n1" "A2")))
    by reflexivity.
  assert (H3 : forall saved,
             @crud updatesRefused (PutConcept "x1" (formOf "A2"))
             <> Normal (Succeeded saved)) by (intros saved H; discriminate H).
  destruct (ListingFacts.save_prepends_or_replaces (formOf "A2") (listOf [conceptOf "A"]))
    as [_ [_ [_ [_ [_ Hs]]]]].
  destruct (@ListingFacts.save_prepends_or_replaces updatesRefused (formOf "A2")
              (handleEdit (savedAs "x1" "A") (listOf [savedAs "x1" "A"])))
    as [_ [_ [_ [_ [Hf _]]]]].
  exact (conj H1 (conj H2 (conj (Hs (conceptOf "A") (savedAs "n1" "A2") H1 H2)
           (conj H3 (proj1 (Hf H3)))))).
Defined.

Lemma form_turns_zero_topic_into_one_witness :
  isZero (topicID (conceptOf "A")) = true
  /\ f_topicID (initialFormData (Some (conceptOf "A"))) = 1%Q.
Proof.
  assert (H : isZero (topicID (conceptOf "A")) = true) by reflexivity.
  destruct (ListingFacts.form_turns_zero_topic_into_one (clockAt 0) (conceptOf "A"))
    as [_ [_ [Hz _]]].
  exact (conj H (Hz H)).
Defined.

End MoreExamples.
